(** * Monitoring dashboard (app.py): a shallow embedding and its properties

    The program is a Streamlit page over a pandas table: it cleans a CSV
    load ([preprocess_data]), narrows it by two sidebar selections
    ([filter_data]), derives four indicators ([render_kpis]) and chart
    inputs ([build_impacted_farmers_map], [build_credit_concentration_chart])
    and lays the page out ([render_dashboard]).

    Layout of this file: the Python and float64 helpers the code relies
    on, the table model, the functions of app.py in source order, then the
    lemmas and the theorems about them. *)

From Stdlib Require Import ZArith List String Ascii Lia DecimalString Permutation Sorted.
From Corelib Require Import SpecFloat.
From stdpp Require Import base list strings.

Open Scope string_scope.
Open Scope Z_scope.

(* ===================================================================== *)
(** * Python strings and number formatting *)
(* ===================================================================== *)

Module Py.

(** [str(n)] for a natural number: its decimal digits, "0" for zero. *)
Definition decimal (n : N) : string :=
  NilZero.string_of_uint (N.to_uint n).

(** [str(z)] for a Python int. *)
Definition str_int (z : Z) : string :=
  match z with
  | Zneg p => "-" ++ decimal (Npos p)
  | _ => decimal (Z.to_N z)
  end.

(** Grouping by three, on the digits read from the least significant
    one: a separator goes after every third digit that has a successor. *)
Fixpoint group3 (sep : ascii) (l : list ascii) : list ascii :=
  match l with
  | a :: b :: c :: ((_ :: _) as rest) => a :: b :: c :: sep :: group3 sep rest
  | _ => l
  end.

(** The [,] option of the format mini-language applied to a digit string. *)
Definition group_thousands (sep : ascii) (digits : string) : string :=
  string_of_list_ascii
    (rev (group3 sep (rev (list_ascii_of_string digits)))).

(** [f"{value:,}"] for a Python int. *)
Definition format_comma_int (value : Z) : string :=
  match value with
  | Zneg p => "-" ++ group_thousands "," (decimal (Npos p))
  | _ => group_thousands "," (decimal (Z.to_N value))
  end.

(** [s.replace(old, new)] where [old] and [new] are one character each,
    which is how app.py calls it. *)
Fixpoint replace (old new : ascii) (s : string) : string :=
  match s with
  | EmptyString => EmptyString
  | String c rest =>
      String (if Ascii.eqb c old then new else c) (replace old new rest)
  end.

Fixpoint zeros (n : nat) : string :=
  match n with
  | O => ""
  | S k => String "0" (zeros k)
  end.

(** [s.zfill(width)]: zeros on the left up to [width] characters, kept
    after a leading sign. *)
Definition zfill (width : nat) (s : string) : string :=
  let pad := zeros (width - String.length s) in
  match s with
  | String c rest =>
      if (Ascii.eqb c "-" || Ascii.eqb c "+")%bool
      then String c (pad ++ rest)
      else pad ++ s
  | EmptyString => pad
  end.

(** Two decimal digits of a number below one hundred. *)
Definition two_digits (k : N) : string :=
  if (k <? 10)%N then "0" ++ decimal k else decimal k.

(** Nearest integer to [num / den] ([den] positive), ties to even. *)
Definition div_half_even (num den : Z) : Z :=
  let q := num / den in
  let r := num mod den in
  match Z.compare (2 * r) den with
  | Lt => q
  | Gt => q + 1
  | Eq => if Z.even q then q else q + 1
  end.

End Py.

(* ===================================================================== *)
(** * float64 *)
(* ===================================================================== *)

(** IEEE 754 binary64 values as [spec_float] (53 bits of precision,
    exponents below 1024), with the operations of the Rocq library. *)
Module F64.

Definition prec : Z := 53.
Definition emax : Z := 1024.

Definition zero : spec_float := S754_zero false.

(** Conversion of an integer, rounded to nearest even. *)
Definition of_Z (z : Z) : spec_float := binary_normalize prec emax z 0 false.

Definition is_nan (f : spec_float) : bool :=
  match f with S754_nan => true | _ => false end.

Definition is_finite (f : spec_float) : bool :=
  match f with S754_zero _ | S754_finite _ _ _ => true | _ => false end.


(** [f1 <= f2] and [f1 == f2]; both false when a NaN is involved. *)
Definition leb (f1 f2 : spec_float) : bool := SFleb f1 f2.
Definition eqb (f1 f2 : spec_float) : bool := SFeqb f1 f2.

(** The integer part of [m * 2^e], towards zero. *)
Definition mag_trunc (m : positive) (e : Z) : Z :=
  if 0 <=? e then Zpos m * 2 ^ e else Zpos m / 2 ^ (- e).

(** Truncation towards zero of a finite value. *)
Definition trunc (f : spec_float) : Z :=
  match f with
  | S754_finite s m e => cond_Zopp s (mag_trunc m e)
  | _ => 0
  end.

(** True when the value is finite and has no fractional part. *)
Definition is_integral (f : spec_float) : bool :=
  match f with
  | S754_zero _ => true
  | S754_finite _ m e =>
      if 0 <=? e then true else (Zpos m mod 2 ^ (- e) =? 0)
  | _ => false
  end.

(** [numpy.rint]: the nearest integral float, ties to even; infinities
    and NaN are kept. *)
Definition rint (f : spec_float) : spec_float :=
  match f with
  | S754_finite s m e =>
      if 0 <=? e then f
      else binary_normalize prec emax
             (cond_Zopp s (Py.div_half_even (Zpos m) (2 ^ (- e)))) 0 s
  | _ => f
  end.

(** The value times one hundred, rounded to an integer, ties to even:
    the digits a [.2f] conversion prints. *)
Definition hundredths (m : positive) (e : Z) : N :=
  Z.to_N (if 0 <=? e then Zpos m * 100 * 2 ^ e
          else Py.div_half_even (Zpos m * 100) (2 ^ (- e))).

Definition int64_min : Z := - 2 ^ 63.
Definition int64_max : Z := 2 ^ 63 - 1.

Definition in_int64 (z : Z) : bool :=
  ((int64_min <=? z) && (z <=? int64_max))%bool.

(** Two's complement reduction to the int64 range. *)
Definition wrap64 (z : Z) : Z := (z + 2 ^ 63) mod 2 ^ 64 - 2 ^ 63.

End F64.

Module Py_format.

(** [f"{value:,.2f}"] for a Python float. *)
Definition format_comma_2f (value : spec_float) : string :=
  match value with
  | S754_nan => "nan"
  | S754_infinity s => if s then "-inf" else "inf"
  | S754_zero s => (if s then "-" else "") ++ "0.00"
  | S754_finite s m e =>
      let c := F64.hundredths m e in
      (if s then "-" else "")
      ++ Py.group_thousands "," (Py.decimal (c / 100)%N)
      ++ "." ++ Py.two_digits (c mod 100)%N
  end.

End Py_format.

(* ===================================================================== *)
(** * app.py: number formatting *)
(* ===================================================================== *)

Definition format_brl (value : spec_float) : string :=
  let formatted :=
    Py.replace "X" "."
      (Py.replace "." ","
         (Py.replace "," "X" (Py_format.format_comma_2f value))) in
  "R$ " ++ formatted.

Definition format_int (value : Z) : string :=
  Py.replace "," "." (Py.format_comma_int value).

(* ===================================================================== *)
(** * Exceptions and results *)
(* ===================================================================== *)

Inductive exn : Type :=
| KeyError (key : string)
| TypeError
| ValueError
| OverflowError
| IntCastingNaNError
| IOError.

Inductive result (A : Type) : Type :=
| Ok (a : A)
| Raise (e : exn).
Arguments Ok {A} a.
Arguments Raise {A} e.

Global Instance result_ret : MRet result := fun A a => Ok a.
Global Instance result_bind : MBind result := fun A B k r =>
  match r with
  | Ok a => k a
  | Raise e => Raise e
  end.

Fixpoint traverse {A B : Type} (f : A -> result B) (l : list A) : result (list B) :=
  match l with
  | [] => Ok []
  | a :: rest => b ← f a; bs ← traverse f rest; Ok (b :: bs)
  end.

(* ===================================================================== *)
(** * Tables *)
(* ===================================================================== *)

(** A cell of a table.  [Float S754_nan] is the missing value of float and
    object columns, [NA] the one of a nullable integer column.  [Int]
    cells stand for the elements of integer columns. *)
Inductive scalar : Type :=
| NA
| Int (z : Z)
| Float (f : spec_float)
| Str (s : string).

(** A column is the list of its cells, a table the list of its named
    columns in header order.  Row labels (the index) play no part in
    app.py, which exports and displays without them. *)
Definition Series : Type := list scalar.
Definition DataFrame : Type := list (string * Series).

(** What the numeric reader of [pd.to_numeric] makes of a str cell. *)
Inductive number : Type :=
| NumInt (z : Z)
| NumFloat (f : spec_float).

Definition scalar_of_number (n : number) : scalar :=
  match n with
  | NumInt z => Int z
  | NumFloat f => Float f
  end.

(** The column types the cleaning distinguishes; the type of a column is
    read off its cells. *)
Inductive dtype : Type := int64 | float64 | Int64 | object.

Definition is_int (c : scalar) : bool :=
  match c with Int _ => true | _ => false end.
Definition is_float (c : scalar) : bool :=
  match c with Float _ => true | _ => false end.
Definition is_int_or_na (c : scalar) : bool :=
  match c with Int _ | NA => true | _ => false end.
Definition is_str (c : scalar) : bool :=
  match c with Str _ => true | _ => false end.

Definition dtype_of (s : Series) : dtype :=
  if forallb is_int s then int64
  else if forallb is_float s then float64
  else if forallb is_int_or_na s then Int64
  else object.

(** [pd.isna] *)
Definition isna (c : scalar) : bool :=
  match c with
  | NA => true
  | Float f => F64.is_nan f
  | _ => false
  end.

(** ** Cell comparisons *)

Definition to_float (c : scalar) : spec_float :=
  match c with
  | Int z => F64.of_Z z
  | Float f => f
  | _ => S754_nan
  end.

(** [a == b] on cells: numbers by value, strings by content, a number
    never equals a string, a missing value equals nothing. *)
Definition scalar_eqb (a b : scalar) : bool :=
  match a, b with
  | Int x, Int y => x =? y
  | Str x, Str y => String.eqb x y
  | Int _, Float _ | Float _, Int _ | Float _, Float _ =>
      F64.eqb (to_float a) (to_float b)
  | _, _ => false
  end.

(** Equality as the hash tables behind [unique], [nunique] and [isin] see
    it: as [==], and missing values equal one another. *)
Definition scalar_same (a b : scalar) : bool :=
  (scalar_eqb a b || (isna a && isna b))%bool.

(** [a <= b] on numbers. *)
Definition num_leb (a b : scalar) : bool :=
  match a, b with
  | Int x, Int y => x <=? y
  | _, _ => F64.leb (to_float a) (to_float b)
  end.

Definition is_number (c : scalar) : bool :=
  match c with
  | Int _ => true
  | Float f => negb (F64.is_nan f)
  | _ => false
  end.

Definition str_leb (a b : scalar) : bool :=
  match a, b with
  | Str x, Str y => String.leb x y
  | _, _ => false
  end.

(** ** Sorting *)

Section Sort.
Context {A : Type} (leb : A -> A -> bool).

(** Stable insertion: the new element goes after its equals. *)
Fixpoint insert_sorted (x : A) (l : list A) : list A :=
  match l with
  | [] => [x]
  | y :: rest =>
      if leb y x then y :: insert_sorted x rest else x :: l
  end.

Definition isort (l : list A) : list A :=
  fold_left (fun acc x => insert_sorted x acc) l [].
End Sort.

(** [sorted(values)] on the values of a column without its missing ones:
    strings in code point order, numbers by value; comparing a string
    with a number or with [pd.NA] raises. *)
Definition sorted (l : list scalar) : result (list scalar) :=
  if forallb is_str l then Ok (isort str_leb l)
  else if forallb is_number l then Ok (isort num_leb l)
  else Raise TypeError.

(** ** Series operations *)

(** [s.dropna()] *)
Definition dropna (s : Series) : Series :=
  List.filter (fun c => negb (isna c)) s.

(** [s.unique()]: the values in order of first appearance. *)
Fixpoint unique (s : Series) : list scalar :=
  match s with
  | [] => []
  | c :: rest =>
      c :: List.filter (fun d => negb (scalar_same c d)) (unique rest)
  end.

(** [s.nunique()]: distinct values, missing ones left out. *)
Definition nunique (s : Series) : Z :=
  Z.of_nat (length (unique (dropna s))).

(** [s == value] *)
Definition series_eq (s : Series) (value : scalar) : list bool :=
  map (fun c => scalar_eqb c value) s.

(** [s.isin(values)] *)
Definition isin (s : Series) (values : list scalar) : list bool :=
  map (fun c => existsb (scalar_same c) values) s.

(** [s[mask]]: the cells where the mask holds. *)
Fixpoint select {A : Type} (mask : list bool) (l : list A) : list A :=
  match mask, l with
  | b :: mask', x :: l' =>
      if b then x :: select mask' l' else select mask' l'
  | _, _ => []
  end.

(** ** Table operations *)

Definition columns (df : DataFrame) : list string := map fst df.

(** The column named [col], the first one under that name. *)
Fixpoint lookup_col (col : string) (df : DataFrame) : option Series :=
  match df with
  | [] => None
  | (name, s) :: rest =>
      if String.eqb name col then Some s else lookup_col col rest
  end.

Definition has_col (col : string) (df : DataFrame) : bool :=
  match lookup_col col df with Some _ => true | None => false end.

(** [df[col]] *)
Definition getitem (df : DataFrame) (col : string) : result Series :=
  match lookup_col col df with
  | Some s => Ok s
  | None => Raise (KeyError col)
  end.

(** [df[col] = s]: the column is replaced where it stands, or added as
    the last one. *)
Fixpoint setitem (df : DataFrame) (col : string) (s : Series) : DataFrame :=
  match df with
  | [] => [(col, s)]
  | (name, old) :: rest =>
      if String.eqb name col then (name, s) :: rest
      else (name, old) :: setitem rest col s
  end.

(** [df[mask]]: the rows where the mask holds, in every column. *)
Definition select_rows (mask : list bool) (df : DataFrame) : DataFrame :=
  map (fun '(name, s) => (name, select mask s)) df.

(** [df.take(indexer)]: the rows at the given positions, in that order. *)
Definition take_rows (indexer : list nat) (df : DataFrame) : DataFrame :=
  map (fun '(name, s) => (name, map (fun i => nth i s NA) indexer)) df.

(** [df[[c1, ..., cn]]] *)
Definition getitems (df : DataFrame) (cols : list string) : result DataFrame :=
  traverse (fun col => s ← getitem df col; Ok (col, s)) cols.

(** [len(df)] *)
Definition nrows (df : DataFrame) : nat :=
  match df with
  | [] => O
  | (_, s) :: _ => length s
  end.

(** The row at position [i]: its cells under their column names. *)
Definition row (df : DataFrame) (i : nat) : list (string * scalar) :=
  map (fun '(name, s) => (name, nth i s NA)) df.

(** The rows of a table, top to bottom. *)
Definition rows (df : DataFrame) : list (list (string * scalar)) :=
  map (row df) (seq 0 (nrows df)).

(** The cell of a row under a column name. *)
Fixpoint cell (col : string) (r : list (string * scalar)) : scalar :=
  match r with
  | [] => NA
  | (name, c) :: rest => if String.eqb name col then c else cell col rest
  end.

(** Every column has as many cells as the table has rows. *)
Definition rectangular (df : DataFrame) : Prop :=
  Forall (fun '(_, s) => length s = nrows df) df.

(** ** Selection by rank *)

(** The positions of a column whose cell satisfies [p], in order. *)
Definition positions (p : scalar -> bool) (s : Series) : list nat :=
  List.filter (fun i => p (nth i s NA)) (seq 0 (length s)).

(** [df.nlargest(n, col)]: the [n] rows with the largest values of a
    numeric column, largest first, rows with a missing value after the
    others.  Equal values stay in their order of appearance. *)
Definition nlargest (n : nat) (col : string) (df : DataFrame)
  : result DataFrame :=
  s ← getitem df col;
  match dtype_of s with
  | object => Raise TypeError
  | _ =>
      let key i := nth i s NA in
      let order :=
        isort (fun i j => num_leb (key j) (key i))
              (positions (fun c => negb (isna c)) s) in
      Ok (take_rows (firstn n (order ++ positions isna s)%list) df)
  end.

(** [df.sort_values(col, ascending=True)]: rows by increasing value, rows
    with a missing value last.  The library leaves the order of rows with
    equal values open; here they stay in their order of appearance. *)
Definition sort_values (col : string) (df : DataFrame) : result DataFrame :=
  s ← getitem df col;
  let key i := nth i s NA in
  let present := positions (fun c => negb (isna c)) s in
  leb ← (if forallb is_number (dropna s) then Ok num_leb
         else if forallb is_str (dropna s) then Ok str_leb
         else Raise TypeError);
  Ok (take_rows
        (isort (fun i j => leb (key i) (key j)) present
           ++ positions isna s)%list df).

(* ===================================================================== *)
(** * What the program takes from outside *)
(* ===================================================================== *)

(** The parsed boundary document, kept as its text. *)
Definition geojson : Type := string.

(** The library and environment behaviour app.py depends on and does not
    define: the numeric reader of pandas on text cells, the float to
    integer conversion of values outside the int64 range (left to the
    platform by numpy), the summation order of a float column, the
    network and JSON reader, the CSV writer, and the choices made in the
    two sidebar widgets given the options they show. *)
Record World : Type := {
  parse_number : string -> number;
  cast_out_of_range : spec_float -> Z;
  float_sum : list spec_float -> spec_float;
  urlopen_read : string -> Z -> result string;
  json_loads : string -> result geojson;
  to_csv : DataFrame -> string;
  selectbox : string -> list scalar -> scalar;
  multiselect : string -> list scalar -> list scalar -> list scalar
}.

(* ===================================================================== *)
(** * pandas conversions *)
(* ===================================================================== *)

Section Pandas.
Variable w : World.

Definition to_numeric_cell (c : scalar) : scalar :=
  match c with
  | Str s => scalar_of_number (parse_number w s)
  | NA => Float S754_nan
  | _ => c
  end.

(** [pd.to_numeric(s, errors="coerce")]: a numeric column is returned
    as it is; in an object column text is read as a number (NaN when it
    does not read), and the column is integer when every cell is,
    float otherwise. *)
Definition to_numeric (s : Series) : Series :=
  match dtype_of s with
  | object =>
      let conv := map to_numeric_cell s in
      if forallb is_int conv then conv
      else map (fun c => Float (to_float c)) conv
  | _ => s
  end.

(** [s.fillna(value)], [value] being 0 or 0.0 in app.py: the missing
    cells take the value, in the column's type. *)
Definition fillna (value : scalar) (s : Series) : Series :=
  match dtype_of s with
  | int64 => s
  | float64 =>
      map (fun c => if isna c then Float (to_float value) else c) s
  | Int64 =>
      map (fun c => if isna c
                    then match value with
                         | Float f => Int (F64.trunc f)
                         | _ => value
                         end
                    else c) s
  | object => map (fun c => if isna c then value else c) s
  end.

(** [s.round()]; an object column is refused. *)
Definition series_round (s : Series) : result Series :=
  match dtype_of s with
  | float64 => Ok (map (fun c => Float (F64.rint (to_float c))) s)
  | object => Raise TypeError
  | _ => Ok s
  end.

Definition float_to_int (f : spec_float) : Z :=
  let z := F64.trunc f in
  if F64.in_int64 z then z else cast_out_of_range w f.

(** [s.astype(int)]: a float column converts when all its values are
    finite; a nullable column holding [pd.NA] and an object column
    (which to_numeric never returns) are refused. *)
Definition astype_int (s : Series) : result Series :=
  match dtype_of s with
  | int64 => Ok s
  | float64 =>
      if forallb (fun c => F64.is_finite (to_float c)) s
      then Ok (map (fun c => Int (float_to_int (to_float c))) s)
      else Raise IntCastingNaNError
  | Int64 => Raise ValueError
  | object => Raise ValueError
  end.

(** [s.astype(float)] *)
Definition astype_float (s : Series) : result Series :=
  match dtype_of s with
  | object => Raise ValueError
  | _ => Ok (map (fun c => Float (to_float c)) s)
  end.

Definition float_to_nullable (c : scalar) : result scalar :=
  let f := to_float c in
  if F64.is_nan f then Ok NA
  else if (F64.is_integral f && F64.in_int64 (F64.trunc f))%bool
       then Ok (Int (F64.trunc f))
       else Raise TypeError.

(** [s.astype("Int64")]: NaN becomes [pd.NA]; a float that is not an
    integer of the int64 range is refused. *)
Definition astype_Int64 (s : Series) : result Series :=
  match dtype_of s with
  | int64 | Int64 => Ok s
  | float64 => traverse float_to_nullable s
  | object => Raise TypeError
  end.

(** [s.astype(str)] on the integers that [astype(int)] returned (other
    cells, which do not occur there, are kept). *)
Definition astype_str (s : Series) : Series :=
  map (fun c => match c with
                | Int z => Str (Py.str_int z)
                | _ => c
                end) s.

(** [s.str.zfill(width)]: cells that are not text become NaN. *)
Definition str_zfill (width : nat) (s : Series) : Series :=
  map (fun c => match c with
                | Str t => Str (Py.zfill width t)
                | _ => Float S754_nan
                end) s.

(** [s.sum()] of a numeric column: integers add up in int64 arithmetic;
    in a float column the missing cells count as zero.  The columns
    app.py sums are cleaned ones; an object column is refused here. *)
Definition series_sum (s : Series) : result scalar :=
  match dtype_of s with
  | int64 | Int64 =>
      Ok (Int (F64.wrap64
                 (fold_right Z.add 0
                    (map (fun c => match c with Int z => z | _ => 0 end) s))))
  | float64 =>
      Ok (Float (float_sum w
                   (map (fun c => if isna c then F64.zero else to_float c) s)))
  | object => Raise TypeError
  end.

(** [int(x)] *)
Definition py_int (x : scalar) : result Z :=
  match x with
  | Int z => Ok z
  | Float f =>
      match f with
      | S754_nan => Raise ValueError
      | S754_infinity _ => Raise OverflowError
      | _ => Ok (F64.trunc f)
      end
  | _ => Raise TypeError
  end.

(** [float(x)] *)
Definition py_float (x : scalar) : result spec_float :=
  match x with
  | Int z => Ok (F64.of_Z z)
  | Float f => Ok f
  | _ => Raise TypeError
  end.

End Pandas.

(* ===================================================================== *)
(** * app.py: constants *)
(* ===================================================================== *)

Definition MG_GEOJSON_URL : string :=
  "https://raw.githubusercontent.com/tbrugz/geodata-br/master/geojson/geojs-31-mun.json".

Definition CREDIT_COL : string := "Crédito Pronaf em 2025 (R$)".
Definition IMMEDIATE_REGION_COL : string := "Região Geográfica Imediata (2022)".
Definition MUNICIPALITY_COL : string := "Município".
Definition IBGE_COL : string := "Código IBGE".
Definition AF_COL : string := "Quantidade de Agricultores Familiares".
Definition WOMEN_COL : string := "QUANTIDADE DE MULHERES EM CAF ATIVO".
Definition MEN_COL : string := "QUANTIDADE DE HOMENS EM CAF ATIVO".
Definition CAF_PF_COL : string := "CAFs PF ATIVO".
Definition OPERATIONS_COL : string := "Operações em 2025".

Definition NUMERIC_COLUMNS : list string :=
  [ CAF_PF_COL;
    "CAFs PJ ATIVO";
    WOMEN_COL;
    MEN_COL;
    AF_COL;
    OPERATIONS_COL;
    CREDIT_COL ].

Definition INTEGER_COLUMNS : list string :=
  [ CAF_PF_COL;
    "CAFs PJ ATIVO";
    WOMEN_COL;
    MEN_COL;
    AF_COL ].

(* ===================================================================== *)
(** * Tables as objects: the heap *)
(* ===================================================================== *)

(** [preprocess_data] copies its argument and assigns to the columns of
    the copy.  Tables are therefore objects here: a heap maps references
    to tables, [copy] allocates, and assignment updates the heap at the
    reference it is given. *)
Definition ref : Type := nat.
Definition heap : Type := list DataFrame.

(** A computation on the heap that may raise; the heap it leaves is kept
    in both cases. *)
Definition M (A : Type) : Type := heap -> result A * heap.

Global Instance M_ret : MRet M := fun A a h => (Ok a, h).
Global Instance M_bind : MBind M := fun A B k m h =>
  match m h with
  | (Ok a, h') => k a h'
  | (Raise e, h') => (Raise e, h')
  end.

Definition lift {A : Type} (r : result A) : M A := fun h => (r, h).

(** Reading the object behind a reference (every reference the program
    holds is live; the second case is there for totality). *)
Definition deref (r : ref) : M DataFrame :=
  fun h => match h !! r with
           | Some d => (Ok d, h)
           | None => (Raise (KeyError ""), h)
           end.

(** [df.copy()]: a new object with the same content. *)
Definition df_copy (r : ref) : M ref :=
  fun h => match h !! r with
           | Some d => (Ok (length h), (h ++ [d])%list)
           | None => (Raise (KeyError ""), h)
           end.

(** [col in df.columns] *)
Definition has_column (r : ref) (col : string) : M bool :=
  d ← deref r; mret (has_col col d).

(** [df[col]] *)
Definition df_getitem (r : ref) (col : string) : M Series :=
  d ← deref r; lift (getitem d col).

(** [df[col] = s]: the object behind [r] changes, and no other. *)
Definition df_setitem (r : ref) (col : string) (s : Series) : M unit :=
  fun h => match h !! r with
           | Some d => (Ok tt, <[r := setitem d col s]> h)
           | None => (Raise (KeyError ""), h)
           end.

(** [for x in l: body(x)] *)
Fixpoint for_each {A : Type} (l : list A) (body : A -> M unit) : M unit :=
  match l with
  | [] => mret tt
  | x :: rest => _ ← body x; for_each rest body
  end.

(* ===================================================================== *)
(** * app.py: preprocess_data *)
(* ===================================================================== *)

Section Cleaning.
Variable w : World.

Definition preprocess_data (df : ref) : M ref :=
  treated_df ← df_copy df;
  _ ← for_each NUMERIC_COLUMNS (fun col =>
        present ← has_column treated_df col;
        if present : bool then
          s ← df_getitem treated_df col;
          df_setitem treated_df col (to_numeric w s)
        else mret tt);
  _ ← (present ← has_column treated_df CREDIT_COL;
       if present : bool then
         s ← df_getitem treated_df CREDIT_COL;
         s' ← lift (astype_float (fillna (Float F64.zero) s));
         df_setitem treated_df CREDIT_COL s'
       else mret tt);
  _ ← for_each INTEGER_COLUMNS (fun col =>
        present ← has_column treated_df col;
        if present : bool then
          s ← df_getitem treated_df col;
          s' ← lift (r ← series_round (fillna (Int 0) s); astype_int w r);
          df_setitem treated_df col s'
        else mret tt);
  _ ← (present ← has_column treated_df IBGE_COL;
       if present : bool then
         s ← df_getitem treated_df IBGE_COL;
         s' ← lift (astype_Int64 (to_numeric w s));
         df_setitem treated_df IBGE_COL s'
       else mret tt);
  mret treated_df.

End Cleaning.

(* ===================================================================== *)
(** * The page: Streamlit and Plotly calls *)
(* ===================================================================== *)

(** Where on the page a call draws: the page body, the sidebar, or one of
    the columns app.py creates. *)
Inductive container : Type :=
| Body
| Sidebar
| Kpi (n : nat)
| MapCol
| ScatterCol
| DonutCol
| TableCol.

(** A chart as Plotly receives it: its kind and the table it draws (the
    remaining arguments are constants of app.py). *)
Inductive figure : Type :=
| ChoroplethMapbox (data : DataFrame) (boundaries : geojson)
| Bar (data : DataFrame)
| Scatter (data : DataFrame)
| Pie (data : DataFrame).

Inductive element : Type :=
| Header (text : string)
| Subheader (text : string)
| Markdown (text : string)
| Metric (label value : string)
| Warning (text : string)
| PlotlyChart (fig : figure)
| Table (data : DataFrame)
| DownloadButton (label data file_name mime : string)
| Selectbox (label : string) (options : list scalar)
| Multiselect (label : string) (options default : list scalar).

(** The page so far: what was drawn, in call order. *)
Definition page : Type := list (container * element).

(** A computation that draws on the page and may raise; what it drew
    before raising stays on the page. *)
Definition ui (A : Type) : Type := page -> result A * page.

Global Instance ui_ret : MRet ui := fun A a p => (Ok a, p).
Global Instance ui_bind : MBind ui := fun A B k m p =>
  match m p with
  | (Ok a, p') => k a p'
  | (Raise e, p') => (Raise e, p')
  end.

Definition ui_lift {A : Type} (r : result A) : ui A := fun p => (r, p).

Definition draw (c : container) (e : element) : ui unit :=
  fun p => (Ok tt, (p ++ [(c, e)])%list).

(** [try: body except Exception: handler] *)
Definition try_except {A : Type} (body handler : ui A) : ui A :=
  fun p => match body p with
           | (Ok a, p') => (Ok a, p')
           | (Raise _, p') => handler p'
           end.

(** The columns a Plotly Express call names must be in its table. *)
Definition px_check (cols : list string) (data : DataFrame) : result unit :=
  if forallb (fun c => has_col c data) cols then Ok tt else Raise ValueError.

(* ===================================================================== *)
(** * app.py: load_mg_geojson, filter_data, render_kpis *)
(* ===================================================================== *)

Section App.
Variable w : World.

Definition load_mg_geojson : result geojson :=
  body ← urlopen_read w MG_GEOJSON_URL 30;
  json_loads w body.

(** The region step of [filter_data]:
    [df if selected_region == "Todas" else df[df[COL] == selected_region]] *)
Definition region_step (df : DataFrame) (selected_region : scalar)
  : result DataFrame :=
  if scalar_eqb selected_region (Str "Todas") then Ok df
  else
    col ← getitem df IMMEDIATE_REGION_COL;
    Ok (select_rows (series_eq col selected_region) df).

(** The municipality step of [filter_data]. *)
Definition municipality_step (region_df : DataFrame)
    (selected_municipalities : list scalar) : result DataFrame :=
  if (match selected_municipalities with [] => true | _ => false end
      || existsb (scalar_eqb (Str "Todos")) selected_municipalities)%bool
  then Ok region_df
  else
    col ← getitem region_df MUNICIPALITY_COL;
    Ok (select_rows (isin col selected_municipalities) region_df).

(** The options of the two widgets. *)
Definition region_options (df : DataFrame) : result (list scalar) :=
  col ← getitem df IMMEDIATE_REGION_COL;
  values ← sorted (unique (dropna col));
  Ok (Str "Todas" :: values).

Definition municipality_options (region_df : DataFrame)
  : result (list scalar) :=
  col ← getitem region_df MUNICIPALITY_COL;
  values ← sorted (unique (dropna col));
  Ok (Str "Todos" :: values).

Definition filter_data (df : DataFrame) : ui DataFrame :=
  _ ← draw Sidebar (Header "Filtros Estratégicos");
  immediate_regions ← ui_lift (region_options df);
  _ ← draw Sidebar
        (Selectbox "Região Geográfica Imediata (2022)" immediate_regions);
  let selected_region :=
    selectbox w "Região Geográfica Imediata (2022)" immediate_regions in
  region_df ← ui_lift (region_step df selected_region);
  options ← ui_lift (municipality_options region_df);
  _ ← draw Sidebar (Multiselect "Município" options [Str "Todos"]);
  let selected_municipalities :=
    multiselect w "Município" options [Str "Todos"] in
  ui_lift (municipality_step region_df selected_municipalities).

(** The four indicators of [render_kpis], in source order. *)
Definition kpi_values (df : DataFrame)
  : result (Z * spec_float * Z * Z) :=
  af ← getitem df AF_COL;
  af_sum ← series_sum w af;
  total_agricultores ← py_int af_sum;
  credit ← getitem df CREDIT_COL;
  credit_sum ← series_sum w credit;
  total_credito ← py_float credit_sum;
  women ← getitem df WOMEN_COL;
  women_sum ← series_sum w women;
  total_mulheres ← py_int women_sum;
  municipality ← getitem df MUNICIPALITY_COL;
  let total_municipios := nunique municipality in
  Ok (total_agricultores, total_credito, total_mulheres, total_municipios).

Definition render_kpis (df : DataFrame) : ui unit :=
  '(total_agricultores, total_credito, total_mulheres, total_municipios)
    ← ui_lift (kpi_values df);
  _ ← draw (Kpi 1) (Metric "Total de Agricultores Familiares Atingidos"
                      (format_int total_agricultores));
  _ ← draw (Kpi 2) (Metric "Volume Financeiro Total do Pronaf em Risco"
                      (format_brl total_credito));
  _ ← draw (Kpi 3) (Metric "Total de Mulheres com CAF Ativo"
                      (format_int total_mulheres));
  draw (Kpi 4) (Metric "Número de Municípios Selecionados"
                  (format_int total_municipios)).

(* =================================================================== *)
(** * app.py: the charts *)
(* =================================================================== *)

(** The table the choropleth draws: the three columns, the rows with an
    identifier, the identifier as a zero-filled key. *)
Definition map_frame (df : DataFrame) : result DataFrame :=
  sub ← getitems df [IBGE_COL; MUNICIPALITY_COL; AF_COL];
  ibge ← getitem sub IBGE_COL;
  let map_df := select_rows (map (fun c => negb (isna c)) ibge) sub in
  ids ← getitem map_df IBGE_COL;
  as_int ← astype_int w ids;
  Ok (setitem map_df IBGE_COL (str_zfill 7 (astype_str as_int))).

Definition build_impacted_farmers_map (df : DataFrame) : result figure :=
  map_df ← map_frame df;
  geojson ← load_mg_geojson;
  _ ← px_check [IBGE_COL; AF_COL; MUNICIPALITY_COL] map_df;
  Ok (ChoroplethMapbox map_df geojson).

(** [df.nlargest(10, CREDIT_COL).sort_values(CREDIT_COL, ascending=True)] *)
Definition top_10 (df : DataFrame) : result DataFrame :=
  largest ← nlargest 10 CREDIT_COL df;
  sort_values CREDIT_COL largest.

Definition build_credit_concentration_chart (df : DataFrame)
  : result figure :=
  top ← top_10 df;
  _ ← px_check [CREDIT_COL; MUNICIPALITY_COL] top;
  Ok (Bar top).

Definition build_vulnerability_scatter (df : DataFrame) : result figure :=
  _ ← px_check [AF_COL; CREDIT_COL; CAF_PF_COL; IMMEDIATE_REGION_COL;
                MUNICIPALITY_COL] df;
  Ok (Scatter df).

Definition build_gender_donut (df : DataFrame) : result figure :=
  women ← getitem df WOMEN_COL;
  women_sum ← series_sum w women;
  women_total ← py_int women_sum;
  men ← getitem df MEN_COL;
  men_sum ← series_sum w men;
  men_total ← py_int men_sum;
  let gender_df :=
    [ ("Gênero", [Str "Mulheres"; Str "Homens"]);
      ("Quantidade", [Int women_total; Int men_total]) ] in
  Ok (Pie gender_df).

(** [df.to_csv(index=False).encode("utf-8-sig")]: the byte order mark,
    then the text. *)
Definition dataframe_to_csv (df : DataFrame) : string :=
  String (ascii_of_nat 239) (String (ascii_of_nat 187)
    (String (ascii_of_nat 191) (to_csv w df))).

(* =================================================================== *)
(** * app.py: render_dashboard *)
(* =================================================================== *)

Definition plotly_chart (c : container) (fig : result figure) : ui unit :=
  f ← ui_lift fig;
  draw c (PlotlyChart f).

Definition render_dashboard (df : DataFrame) : ui unit :=
  _ ← draw Body (Subheader "Indicadores Estratégicos (Visão Macro)");
  _ ← render_kpis df;
  _ ← draw Body (Markdown "---");
  _ ← draw Body (Subheader "Vulnerabilidade Econômica Municipal");
  _ ← try_except
        (plotly_chart MapCol (build_impacted_farmers_map df))
        (_ ← draw MapCol
               (Warning ("Não foi possível carregar o mapa geográfico no momento. "
                         ++ "Exibindo o ranking de concentração de crédito."));
         plotly_chart MapCol (build_credit_concentration_chart df));
  _ ← plotly_chart ScatterCol (build_vulnerability_scatter df);
  _ ← plotly_chart Body (build_credit_concentration_chart df);
  _ ← draw Body (Markdown "---");
  _ ← draw Body (Subheader "Perfil Demográfico e Detalhamento");
  _ ← plotly_chart DonutCol (build_gender_donut df);
  _ ← draw TableCol (Subheader "Base Filtrada de Municípios");
  _ ← draw TableCol (Table df);
  draw TableCol
    (DownloadButton "Exportar dados filtrados em CSV"
       (dataframe_to_csv df)
       "monitoramento_impacto_zona_mata.csv" "text/csv").

End App.

(* ===================================================================== *)
(** * Readings used in the statements *)
(* ===================================================================== *)

(** ** Display, in the words of the specification *)

(** A monetary amount given in hundredths: the currency prefix, the whole
    part grouped in thousands by periods, a comma, two decimals. *)
Definition brl_display (hundredths : N) : string :=
  "R$ " ++ Py.group_thousands "." (Py.decimal (hundredths / 100)%N)
        ++ "," ++ Py.two_digits (hundredths mod 100)%N.

(** A count: its digits grouped in thousands by periods. *)
Definition count_display (n : N) : string :=
  Py.group_thousands "." (Py.decimal n).

(** A string of decimal digits only. *)
Definition is_digit (c : ascii) : bool :=
  (48 <=? nat_of_ascii c)%nat && (nat_of_ascii c <=? 57)%nat.

Fixpoint all_digits (s : string) : bool :=
  match s with
  | EmptyString => true
  | String c rest => is_digit c && all_digits rest
  end.

(** What [replace] makes of one character. *)
Definition swap (old new : ascii) (c : ascii) : ascii :=
  if Ascii.eqb c old then new else c.

(** A string without its separators. *)
Fixpoint strip (sep : ascii) (s : string) : string :=
  match s with
  | EmptyString => EmptyString
  | String c rest =>
      if Ascii.eqb c sep then strip sep rest else String c (strip sep rest)
  end.


(** ** The cleaning, column by column *)

(** One assignment of [preprocess_data]: the column it is guarded by and
    writes, and the conversion it applies. *)
Definition step : Type := string * (Series -> result Series).

(** [if col in df.columns: df[col] = f(df[col])] *)
Definition update_col (st : step) (d : DataFrame) : result DataFrame :=
  match lookup_col (fst st) d with
  | Some s => s' ← snd st s; Ok (setitem d (fst st) s')
  | None => Ok d
  end.

(** Assignments in sequence, up to the first that raises; the table as it
    stands then is returned with the outcome. *)
Fixpoint run_steps (steps : list step) (d : DataFrame)
  : result unit * DataFrame :=
  match steps with
  | [] => (Ok tt, d)
  | st :: rest =>
      match update_col st d with
      | Ok d' => run_steps rest d'
      | Raise e => (Raise e, d)
      end
  end.

(** The assignments of [preprocess_data], in source order. *)
Definition cleaning_steps (w : World) : list step :=
  (map (fun col => (col, fun s => Ok (to_numeric w s))) NUMERIC_COLUMNS
   ++ [(CREDIT_COL, fun s => astype_float (fillna (Float F64.zero) s))]
   ++ map (fun col => (col, fun s => r ← series_round (fillna (Int 0) s);
                                     astype_int w r)) INTEGER_COLUMNS
   ++ [(IBGE_COL, fun s => astype_Int64 (to_numeric w s))])%list.

(** What the assignments to the column named [col] make of its cells. *)
Fixpoint column_steps (col : string) (steps : list step) (s : Series)
  : result Series :=
  match steps with
  | [] => Ok s
  | (name, f) :: rest =>
      if String.eqb name col
      then s' ← f s; column_steps col rest s'
      else column_steps col rest s
  end.

(** The table a call returned, when it returned. *)
Definition returned (out : result ref * heap) : result (option DataFrame) :=
  match out with
  | (Ok r, h) => Ok (h !! r)
  | (Raise e, _) => Raise e
  end.

(** ** Cell shapes *)

(** A float cell that is not NaN. *)
Definition is_real (c : scalar) : bool :=
  match c with
  | Float f => negb (F64.is_nan f)
  | _ => false
  end.

(** A cell without text: a number or a missing value. *)
Definition is_numeric (c : scalar) : bool :=
  match c with
  | Str _ => false
  | _ => true
  end.


(** A label cell: text, or missing. *)
Definition is_label (c : scalar) : bool :=
  match c with
  | Str _ => true
  | _ => isna c
  end.

(** The integer in a cell (zero when there is none). *)
Definition int_value (c : scalar) : Z :=
  match c with
  | Int z => z
  | _ => 0
  end.

(** ** Rows *)

(** The positions where a mask holds. *)
Fixpoint true_positions (from : nat) (mask : list bool) : list nat :=
  match mask with
  | [] => []
  | b :: rest =>
      if b then from :: true_positions (S from) rest
      else true_positions (S from) rest
  end.

(** The rows of the table a call returned; none when it raised. *)
Definition result_rows (r : result DataFrame) : list (list (string * scalar)) :=
  match r with
  | Ok d => rows d
  | Raise _ => []
  end.

(** A municipality selection that leaves the region step as it is: empty,
    or holding the sentinel. *)
Definition neutral (selected : list scalar) : bool :=
  match selected with
  | [] => true
  | _ => existsb (scalar_eqb (Str "Todos")) selected
  end.

(** ** The indicators, over the rows *)

(** The integers of a column added up over the rows, each row once. *)
Definition column_total (col : string) (df : DataFrame) : Z :=
  fold_right Z.add 0 (map (fun r => int_value (cell col r)) (rows df)).

(** The floats of the monetary column over the rows, each row once, added
    by the library; zero for a table without rows. *)
Definition credit_total (w : World) (df : DataFrame) : spec_float :=
  match rows df with
  | [] => F64.zero
  | rs => float_sum w (map (fun r => to_float (cell CREDIT_COL r)) rs)
  end.

(** The number of distinct municipality names among the rows. *)
Definition distinct_count (col : string) (df : DataFrame) : Z :=
  Z.of_nat (length (unique (dropna (map (cell col) (rows df))))).

(** ** A cleaned table *)

(** The columns as [preprocess_data] leaves them, where present: the
    numeric columns are of a numeric type, the monetary column holds
    floats that are not NaN, the integer columns hold integers, the
    identifier column integers and [pd.NA]. *)
Definition cleaned (d : DataFrame) : Prop :=
  (forall c s, In c NUMERIC_COLUMNS -> lookup_col c d = Some s ->
               dtype_of s <> object)
  /\ (forall s, lookup_col CREDIT_COL d = Some s -> forallb is_real s = true)
  /\ (forall c s, In c INTEGER_COLUMNS -> lookup_col c d = Some s ->
                  forallb is_int s = true)
  /\ (forall s, lookup_col IBGE_COL d = Some s ->
                forallb is_int_or_na s = true).

(** The names of the columns with their numbers of cells. *)
Definition shape (d : DataFrame) : list (string * nat) :=
  map (fun '(name, s) => (name, length s)) d.

(* ===================================================================== *)
(** * A sample environment and sample tables *)
(* ===================================================================== *)

(** Reading of an unsigned decimal integer; anything else is NaN. *)
Fixpoint read_digits (acc : Z) (s : string) : number :=
  match s with
  | EmptyString => NumInt acc
  | String c rest =>
      if is_digit c
      then read_digits (10 * acc + Z.of_nat (nat_of_ascii c - 48)) rest
      else NumFloat S754_nan
  end.

(** An environment to run the examples in: text cells read as unsigned
    integers, floats added from the left, no network, the first option
    picked in the region widget and the default kept in the other. *)
Definition sample_world : World := {|
  parse_number := fun s =>
    match s with
    | EmptyString => NumFloat S754_nan
    | _ => read_digits 0 s
    end;
  cast_out_of_range := fun _ => F64.int64_min;
  float_sum := fun l => fold_left (SFadd F64.prec F64.emax) l F64.zero;
  urlopen_read := fun _ _ => Raise IOError;
  json_loads := fun body => Ok body;
  to_csv := fun _ => "";
  selectbox := fun _ options => hd NA options;
  multiselect := fun _ _ default => default
|}.

(** A raw table of three municipalities, with a blank credit cell, a
    blank operations cell and text in a count column. *)
Definition sample_raw : DataFrame :=
  [ (MUNICIPALITY_COL, [Str "Viçosa"; Str "Ubá"; Str "Muriaé"]);
    (IMMEDIATE_REGION_COL, [Str "Viçosa"; Str "Ubá"; Str "Muriaé"]);
    (IBGE_COL, [Int 3171303; Int 3169901; Int 3143906]);
    (CAF_PF_COL, [Int 120; Int 80; Int 95]);
    ("CAFs PJ ATIVO", [Int 3; Int 1; Int 2]);
    (WOMEN_COL, [Int 50; Int 30; Int 40]);
    (MEN_COL, [Int 70; Str "50"; Int 55]);
    (AF_COL, [Int 400; Int 250; Int 310]);
    (OPERATIONS_COL, [Float (F64.of_Z 12); Float S754_nan; Float (F64.of_Z 9)]);
    (CREDIT_COL, [Float (F64.of_Z 1500); Float S754_nan; Float (F64.of_Z 700)]) ].

(** The same table as [preprocess_data] returns it. *)
Definition sample_clean : DataFrame :=
  [ (MUNICIPALITY_COL, [Str "Viçosa"; Str "Ubá"; Str "Muriaé"]);
    (IMMEDIATE_REGION_COL, [Str "Viçosa"; Str "Ubá"; Str "Muriaé"]);
    (IBGE_COL, [Int 3171303; Int 3169901; Int 3143906]);
    (CAF_PF_COL, [Int 120; Int 80; Int 95]);
    ("CAFs PJ ATIVO", [Int 3; Int 1; Int 2]);
    (WOMEN_COL, [Int 50; Int 30; Int 40]);
    (MEN_COL, [Int 70; Int 50; Int 55]);
    (AF_COL, [Int 400; Int 250; Int 310]);
    (OPERATIONS_COL, [Float (F64.of_Z 12); Float S754_nan; Float (F64.of_Z 9)]);
    (CREDIT_COL, [Float (F64.of_Z 1500); Float F64.zero; Float (F64.of_Z 700)]) ].


(** A cleaned table with a missing region label, as a blank cell of the
    CSV file leaves it. *)
Definition region_gap_table : DataFrame :=
  [ (MUNICIPALITY_COL, [Str "Viçosa"; Str "Ubá"]);
    (IMMEDIATE_REGION_COL, [Str "Viçosa"; Float S754_nan]);
    (AF_COL, [Int 400; Int 250]);
    (CREDIT_COL, [Float (F64.of_Z 1500); Float (F64.of_Z 700)]) ].

(** A cleaned table with an identifier of eight digits and a missing
    identifier. *)
Definition long_id_table : DataFrame :=
  [ (IBGE_COL, [Int 12345678; NA; Int 123]);
    (MUNICIPALITY_COL, [Str "Viçosa"; Str "Ubá"; Str "Muriaé"]);
    (AF_COL, [Int 400; Int 250; Int 310]) ].

From Stdlib Require DecimalN DecimalPos.

(* ===================================================================== *)
(** * app.py: configure_page, load_data, main *)
(* ===================================================================== *)

(** What [pd.read_csv] makes of a path: a table, the exception for a
    file that is not there, or another exception of the reader. *)
Inductive read_outcome : Type :=
| ReadTable (df : DataFrame)
| ReadNotFound
| ReadFailure (e : exn).

(** What a run of the script finds on disk: the directory of app.py and
    the reader's outcome for each path. *)
Record Files : Type := {
  script_dir : string;
  read_csv : string -> read_outcome
}.

(** The exceptions of a run: [FileNotFoundError], the exception
    [st.stop] raises to end the run, and those of the library calls. *)
Inductive run_exn : Type :=
| FileNotFoundError
| StopException
| LibraryError (e : exn).

Inductive run_result (A : Type) : Type :=
| Returned (a : A)
| Raised (e : run_exn).
Arguments Returned {A} a.
Arguments Raised {A} e.

(** What a run shows: the page calls of [configure_page] and [main], and
    what [filter_data] and [render_dashboard] draw. *)
Inductive screen_element : Type :=
| PageConfig (page_title page_icon layout : string)
| Title (text : string)
| Caption (text : string)
| Error (text : string)
| Drawn (c : container) (e : element).

(** The state of a run: the tables it holds and the screen so far. *)
Record run_state : Type := {
  objects : heap;
  screen : list screen_element
}.

Definition run (A : Type) : Type := run_state -> run_result A * run_state.

Global Instance run_ret : MRet run := fun A a s => (Returned a, s).
Global Instance run_bind : MBind run := fun A B k m s =>
  match m s with
  | (Returned a, s') => k a s'
  | (Raised e, s') => (Raised e, s')
  end.

Definition show (e : screen_element) : run unit :=
  fun s => (Returned tt,
            {| objects := objects s; screen := (screen s ++ [e])%list |}).

Definition throw {A : Type} (e : run_exn) : run A :=
  fun s => (Raised e, s).

(** [st.stop()] *)
Definition st_stop {A : Type} : run A := throw StopException.

(** A computation on the tables, within a run. *)
Definition on_heap {A : Type} (m : M A) : run A :=
  fun s => match m (objects s) with
           | (Ok a, h) => (Returned a, {| objects := h; screen := screen s |})
           | (Raise e, h) =>
               (Raised (LibraryError e), {| objects := h; screen := screen s |})
           end.

Definition drawn (p : page) : list screen_element :=
  map (fun '(c, e) => Drawn c e) p.

(** A drawing computation, within a run: what it draws goes to the
    screen, after what is there. *)
Definition on_page {A : Type} (m : ui A) : run A :=
  fun s => match m [] with
           | (Ok a, p) =>
               (Returned a,
                {| objects := objects s; screen := (screen s ++ drawn p)%list |})
           | (Raise e, p) =>
               (Raised (LibraryError e),
                {| objects := objects s; screen := (screen s ++ drawn p)%list |})
           end.

(** [try: body except FileNotFoundError: handler] *)
Definition try_except_not_found {A : Type} (body handler : run A) : run A :=
  fun s => match body s with
           | (Raised FileNotFoundError, s') => handler s'
           | out => out
           end.

(** [df.empty]: no rows, or no columns. *)
Definition df_empty (df : DataFrame) : bool := (nrows df =? 0)%nat.

Section Run.
Variable files : Files.
Variable w : World.

(** [Path(__file__).resolve().parent / "data" / "df_merged.csv"], as the
    text [str] gives for it on a POSIX system. *)
Definition DATA_FILE : string := script_dir files ++ "/data/df_merged.csv".

Definition configure_page : run unit :=
  _ ← show (PageConfig "Central de Monitoramento - Zona da Mata/MG"
              ":bar_chart:" "wide");
  _ ← show (Title "Monitoramento de Impacto - Agricultura Familiar (Zona da Mata/MG)");
  show (Caption ("Central estratégica para monitorar exposição econômica, priorizar municípios e "
                 ++ "apoiar decisões emergenciais de alocação de recursos públicos.")).

(** [pd.read_csv(file_path)]: the table read is a new object. *)
Definition pd_read_csv (file_path : string) : run ref :=
  fun s => match read_csv files file_path with
           | ReadTable d =>
               (Returned (length (objects s)),
                {| objects := (objects s ++ [d])%list; screen := screen s |})
           | ReadNotFound => (Raised FileNotFoundError, s)
           | ReadFailure e => (Raised (LibraryError e), s)
           end.

(** One run computes [load_data] once; the cache of [st.cache_data],
    which serves later runs, plays no part in it. *)
Definition load_data (file_path : string) : run ref :=
  df ← try_except_not_found (pd_read_csv file_path) (throw FileNotFoundError);
  on_heap (preprocess_data w df).

Definition main : run unit :=
  _ ← configure_page;
  base_df ← try_except_not_found (load_data DATA_FILE)
              (_ ← show (Error ("Arquivo não encontrado: " ++ DATA_FILE));
               st_stop);
  base ← on_heap (deref base_df);
  filtered_df ← on_page (filter_data w base);
  _ ← (if df_empty filtered_df
       then _ ← show (Drawn Body
                        (Warning "Nenhum registro encontrado para os filtros selecionados."));
            st_stop
       else mret tt);
  on_page (render_dashboard w filtered_df).

End Run.

(** The screen [configure_page] leaves on an empty one. *)
Definition page_head : list screen_element :=
  [ PageConfig "Central de Monitoramento - Zona da Mata/MG" ":bar_chart:" "wide";
    Title "Monitoramento de Impacto - Agricultura Familiar (Zona da Mata/MG)";
    Caption ("Central estratégica para monitorar exposição econômica, priorizar municípios e "
             ++ "apoiar decisões emergenciais de alocação de recursos públicos.") ].

(** The state a run starts in. *)
Definition start_state : run_state := {| objects := []; screen := [] |}.

(* ===================================================================== *)
(** * Further readings used in the statements *)
(* ===================================================================== *)

(** A monetary amount given in hundredths, without the currency prefix. *)
Definition amount_display (hundredths : N) : string :=
  Py.group_thousands "." (Py.decimal (hundredths / 100)%N)
  ++ "," ++ Py.two_digits (hundredths mod 100)%N.

(** ** The cleaning, cell by cell *)

(** The float a cell is read as; NaN when it is missing or does not read
    as a number. *)
Definition read_float (w : World) (c : scalar) : spec_float :=
  to_float (to_numeric_cell w c).

(** A float with zero in the place of NaN. *)
Definition nan_to_zero (f : spec_float) : spec_float :=
  if F64.is_nan f then F64.zero else f.

(** The monetary cell after cleaning. *)
Definition credit_cell (w : World) (c : scalar) : scalar :=
  Float (nan_to_zero (read_float w c)).

(** A column the integer conversions take without passing through
    floats: integers with or without [pd.NA], or cells that all read as
    integers. *)
Definition reads_exactly (w : World) (s : Series) : bool :=
  forallb is_int_or_na s || forallb is_int (map (to_numeric_cell w) s).

(** The count cell after cleaning, in a column read exactly: the
    integer, zero for [pd.NA]. *)
Definition count_cell_exact (w : World) (c : scalar) : scalar :=
  match to_numeric_cell w c with
  | Int z => Int z
  | _ => Int 0
  end.

(** The count cell after cleaning, in any other column: the float read,
    zero for a missing one, rounded half to even and converted. *)
Definition count_cell_rounded (w : World) (c : scalar) : scalar :=
  Int (float_to_int w (F64.rint (nan_to_zero (read_float w c)))).

(** The identifier cell after cleaning, in a column read exactly. *)
Definition id_cell_exact (w : World) (c : scalar) : scalar :=
  match c with
  | NA => NA
  | _ => to_numeric_cell w c
  end.

(** The identifier cell after cleaning, in any other column. *)
Definition id_cell_float (w : World) (c : scalar) : scalar :=
  if F64.is_nan (read_float w c) then NA
  else Int (F64.trunc (read_float w c)).

(** A count column the conversion to integers refuses: one read through
    floats in which a value is not finite after rounding. *)
Definition count_refused (w : World) (s : Series) : bool :=
  negb (reads_exactly w s)
  && negb (forallb (fun c => F64.is_finite
                               (F64.rint (nan_to_zero (read_float w c)))) s).

(** An identifier column the conversion to nullable integers refuses:
    one read through floats in which a value that is not NaN has a
    fractional part, is infinite or lies outside the int64 range. *)
Definition identifier_refused (w : World) (s : Series) : bool :=
  negb (reads_exactly w s)
  && negb (forallb (fun c => F64.is_nan (read_float w c)
                             || (F64.is_integral (read_float w c)
                                 && F64.in_int64 (F64.trunc (read_float w c))))
                   s).

(** ** The filter, row by row *)

(** The row passes the region selection. *)
Definition in_region (selected_region : scalar) (r : list (string * scalar))
  : bool :=
  scalar_eqb selected_region (Str "Todas")
  || scalar_eqb (cell IMMEDIATE_REGION_COL r) selected_region.

(** The row passes the municipality selection. *)
Definition in_municipalities (selected : list scalar)
    (r : list (string * scalar)) : bool :=
  neutral selected || existsb (scalar_same (cell MUNICIPALITY_COL r)) selected.

(** The options of a widget list the labels of a column: in increasing
    order, each once, and exactly the values that are not missing. *)
Definition lists_labels (options : list scalar) (s : Series) : Prop :=
  StronglySorted (fun a b => str_leb a b = true) options
  /\ List.NoDup options
  /\ forall v, In v options <-> (In v s /\ isna v = false).

(** What [filter_data] draws in the sidebar. *)
Definition sidebar_widgets (regions options : list scalar) : page :=
  [ (Sidebar, Header "Filtros Estratégicos");
    (Sidebar, Selectbox "Região Geográfica Imediata (2022)" regions);
    (Sidebar, Multiselect "Município" options [Str "Todos"]) ].

(** Widgets as Streamlit has them: the selection is taken among the
    options shown (the default of a multiselect being among them). *)
Definition chooses_among_options (w : World) : Prop :=
  (forall label options, options <> [] ->
     In (selectbox w label options) options)
  /\ (forall label options default x,
        (forall y, In y default -> In y options) ->
        In x (multiselect w label options default) -> In x options).

(** A table narrowed to some of its rows, or left as it is. *)
Definition narrowed (df out : DataFrame) : Prop :=
  out = df
  \/ exists msk, length msk = nrows df /\ out = select_rows msk df.

(** The columns the dashboard reads. *)
Definition DASHBOARD_COLUMNS : list string :=
  [ IBGE_COL; MUNICIPALITY_COL; IMMEDIATE_REGION_COL; AF_COL; CREDIT_COL;
    WOMEN_COL; MEN_COL; CAF_PF_COL ].

(** A table the dashboard can draw: cleaned, rectangular, with the columns
    it reads, the two label columns holding text or missing values. *)
Definition drawable (df : DataFrame) : Prop :=
  rectangular df /\ cleaned df
  /\ forallb (fun c => has_col c df) DASHBOARD_COLUMNS = true
  /\ (forall s, lookup_col IMMEDIATE_REGION_COL df = Some s ->
                forallb is_label s = true)
  /\ (forall s, lookup_col MUNICIPALITY_COL df = Some s ->
                forallb is_label s = true).

(** ** The page of the dashboard *)

(** The four indicators as [render_kpis] draws them. *)
Definition kpi_metrics (v : Z * spec_float * Z * Z) : page :=
  let '(agricultores, credito, mulheres, municipios) := v in
  [ (Kpi 1, Metric "Total de Agricultores Familiares Atingidos"
              (format_int agricultores));
    (Kpi 2, Metric "Volume Financeiro Total do Pronaf em Risco"
              (format_brl credito));
    (Kpi 3, Metric "Total de Mulheres com CAF Ativo" (format_int mulheres));
    (Kpi 4, Metric "Número de Municípios Selecionados"
              (format_int municipios)) ].

(** The column of the map: the map when it was built, otherwise the
    warning and the credit concentration chart. *)
Definition map_column (map_fig : result figure) (bar : figure) : page :=
  match map_fig with
  | Ok fig => [ (MapCol, PlotlyChart fig) ]
  | Raise _ =>
      [ (MapCol,
         Warning ("Não foi possível carregar o mapa geográfico no momento. "
                  ++ "Exibindo o ranking de concentração de crédito."));
        (MapCol, PlotlyChart bar) ]
  end.

(** What [render_dashboard] draws, given the indicators and the charts. *)
Definition dashboard_page (w : World) (df : DataFrame)
    (v : Z * spec_float * Z * Z) (map_fig : result figure)
    (bar donut : figure) : page :=
  ([ (Body, Subheader "Indicadores Estratégicos (Visão Macro)") ]
   ++ kpi_metrics v
   ++ [ (Body, Markdown "---");
        (Body, Subheader "Vulnerabilidade Econômica Municipal") ]
   ++ map_column map_fig bar
   ++ [ (ScatterCol, PlotlyChart (Scatter df));
        (Body, PlotlyChart bar);
        (Body, Markdown "---");
        (Body, Subheader "Perfil Demográfico e Detalhamento");
        (DonutCol, PlotlyChart donut);
        (TableCol, Subheader "Base Filtrada de Municípios");
        (TableCol, Table df);
        (TableCol,
         DownloadButton "Exportar dados filtrados em CSV"
           (dataframe_to_csv w df)
           "monitoramento_impacto_zona_mata.csv" "text/csv") ])%list.

(** The table of the donut, given its two quantities. *)
Definition gender_frame (women men : Z) : DataFrame :=
  [ ("Gênero", [Str "Mulheres"; Str "Homens"]);
    ("Quantidade", [Int women; Int men]) ].

(** The table of the map: the rows with an identifier, the identifier as
    its decimal text filled with zeros to seven characters. *)
Definition keyed_frame (ibge mun af : Series) : DataFrame :=
  [ (IBGE_COL,
     map (fun c => Str (Py.zfill 7 (Py.str_int (int_value c))))
         (select (map (fun c => negb (isna c)) ibge) ibge));
    (MUNICIPALITY_COL, select (map (fun c => negb (isna c)) ibge) mun);
    (AF_COL, select (map (fun c => negb (isna c)) ibge) af) ].

(** ** The run *)

(** A table without rows: every column is empty. *)
Definition no_rows (d : DataFrame) : Prop :=
  Forall (fun col : string * Series => snd col = []) d.

(** A file the run takes without an exception: a rectangular table with
    the columns the dashboard reads, text or missing values in the label
    columns, and no count or identifier column the cleaning refuses. *)
Definition well_formed (w : World) (d : DataFrame) : Prop :=
  rectangular d
  /\ forallb (fun c => has_col c d) DASHBOARD_COLUMNS = true
  /\ (forall s, lookup_col IMMEDIATE_REGION_COL d = Some s ->
                forallb is_label s = true)
  /\ (forall s, lookup_col MUNICIPALITY_COL d = Some s ->
                forallb is_label s = true)
  /\ (forall c s, In c INTEGER_COLUMNS -> lookup_col c d = Some s ->
                  count_refused w s = false)
  /\ (forall s, lookup_col IBGE_COL d = Some s ->
                identifier_refused w s = false).

(** The warning of [main] for an empty selection. *)
Definition empty_warning : screen_element :=
  Drawn Body (Warning "Nenhum registro encontrado para os filtros selecionados.").

(** The run after a load that returned. *)
Definition after_load (w : World) (s : run_state) (d d' : DataFrame)
  : run_result unit * run_state :=
  match filter_data w d' [] with
  | (Raise e, p) =>
      (Raised (LibraryError e),
       {| objects := (objects s ++ [d; d'])%list;
          screen := (screen s ++ page_head ++ drawn p)%list |})
  | (Ok out, p) =>
      if df_empty out
      then (Raised StopException,
            {| objects := (objects s ++ [d; d'])%list;
               screen := (screen s ++ page_head ++ drawn p
                          ++ [empty_warning])%list |})
      else match render_dashboard w out [] with
           | (Ok _, q) =>
               (Returned tt,
                {| objects := (objects s ++ [d; d'])%list;
                   screen := (screen s ++ page_head ++ drawn p
                              ++ drawn q)%list |})
           | (Raise e, q) =>
               (Raised (LibraryError e),
                {| objects := (objects s ++ [d; d'])%list;
                   screen := (screen s ++ page_head ++ drawn p
                              ++ drawn q)%list |})
           end
  end.

(** ** A sample file system *)

(** The CSV file in its place, holding [sample_raw]. *)
Definition sample_files : Files := {|
  script_dir := "/srv/app";
  read_csv := fun path =>
    if String.eqb path "/srv/app/data/df_merged.csv"
    then ReadTable sample_raw else ReadNotFound
|}.

(** No file at all. *)
Definition no_files : Files := {|
  script_dir := "/srv/app";
  read_csv := fun _ => ReadNotFound
|}.

(** A table with the header of [sample_raw] and no rows. *)
Definition header_only : DataFrame :=
  map (fun '(name, _) => (name, [])) sample_raw.

(** The CSV file in its place, holding the header only. *)
Definition header_files : Files := {|
  script_dir := "/srv/app";
  read_csv := fun path =>
    if String.eqb path "/srv/app/data/df_merged.csv"
    then ReadTable header_only else ReadNotFound
|}.

(* ===================================================================== *)
(** * Lemmas: number display *)
(* ===================================================================== *)

Section Display.

Lemma replace_append old new a b :
  Py.replace old new (a ++ b) = Py.replace old new a ++ Py.replace old new b.
Proof. induction a as [|c a IH]; simpl; [reflexivity | now rewrite IH]. Qed.

Lemma replace_of_list old new l :
  Py.replace old new (string_of_list_ascii l)
  = string_of_list_ascii (map (swap old new) l).
Proof. induction l as [|c l IH]; simpl; [reflexivity | now rewrite IH]. Qed.

Lemma list_of_replace old new s :
  list_ascii_of_string (Py.replace old new s)
  = map (swap old new) (list_ascii_of_string s).
Proof. induction s as [|c s IH]; simpl; [reflexivity | now rewrite IH]. Qed.

Lemma group3_step sep a b c d rest :
  Py.group3 sep (a :: b :: c :: d :: rest)
  = a :: b :: c :: sep :: Py.group3 sep (d :: rest).
Proof. reflexivity. Qed.

Lemma group3_map_le (f : ascii -> ascii) sep n :
  forall l, (length l <= n)%nat ->
    map f (Py.group3 sep l) = Py.group3 (f sep) (map f l).
Proof.
  induction n as [|n IH]; intros [|a [|b [|c [|d rest]]]] Hlen;
    try reflexivity; simpl in Hlen; try lia.
  rewrite group3_step. cbn [map]. rewrite group3_step.
  rewrite (IH (d :: rest)) by (simpl; lia). reflexivity.
Qed.

Lemma group3_map (f : ascii -> ascii) sep l :
  map f (Py.group3 sep l) = Py.group3 (f sep) (map f l).
Proof. apply (group3_map_le f sep (length l)). lia. Qed.

Lemma replace_group old new sep digits :
  Py.replace old new (Py.group_thousands sep digits)
  = Py.group_thousands (swap old new sep) (Py.replace old new digits).
Proof.
  unfold Py.group_thousands.
  rewrite replace_of_list, list_of_replace, map_rev, group3_map, map_rev.
  reflexivity.
Qed.

Lemma replace_digits old new s :
  is_digit old = false -> all_digits s = true -> Py.replace old new s = s.
Proof.
  intros Hold. induction s as [|c s IH]; simpl; [reflexivity|].
  intros [Hc Hs]%andb_prop. rewrite (IH Hs).
  destruct (Ascii.eqb_spec c old) as [->|]; [congruence | reflexivity].
Qed.

Lemma all_digits_append a b :
  all_digits (a ++ b) = all_digits a && all_digits b.
Proof. induction a as [|c a IH]; simpl; [reflexivity | now rewrite IH, andb_assoc]. Qed.

Lemma all_digits_uint d : all_digits (NilEmpty.string_of_uint d) = true.
Proof. induction d; simpl; auto. Qed.

Lemma all_digits_decimal n : all_digits (Py.decimal n) = true.
Proof.
  unfold Py.decimal, NilZero.string_of_uint.
  destruct (N.to_uint n); try reflexivity; apply (all_digits_uint (_ _)).
Qed.

Lemma all_digits_two_digits k : all_digits (Py.two_digits k) = true.
Proof.
  unfold Py.two_digits. destruct (k <? 10)%N; [simpl|]; apply all_digits_decimal.
Qed.
End Display.

Lemma format_brl_finite m e :
  format_brl (S754_finite false m e) = brl_display (F64.hundredths m e).
Proof.
  unfold format_brl, brl_display, Py_format.format_comma_2f.
  cbv zeta. change ("" ++ ?x) with x.
  set (c := F64.hundredths m e).
  rewrite !replace_append, !replace_group.
  rewrite (replace_digits "," "X" (Py.decimal _)) by (reflexivity || apply all_digits_decimal).
  rewrite (replace_digits "." "," (Py.decimal _)) by (reflexivity || apply all_digits_decimal).
  rewrite (replace_digits "X" "." (Py.decimal _)) by (reflexivity || apply all_digits_decimal).
  rewrite (replace_digits "," "X" (Py.two_digits _)) by (reflexivity || apply all_digits_two_digits).
  rewrite (replace_digits "." "," (Py.two_digits _)) by (reflexivity || apply all_digits_two_digits).
  rewrite (replace_digits "X" "." (Py.two_digits _)) by (reflexivity || apply all_digits_two_digits).
  reflexivity.
Qed.

Lemma format_int_nonneg n : format_int (Z.of_N n) = count_display n.
Proof.
  unfold format_int, count_display, Py.format_comma_int.
  assert (E : Py.replace "," "." (Py.group_thousands "," (Py.decimal (Z.to_N (Z.of_N n))))
              = Py.group_thousands "." (Py.decimal n)).
  { rewrite N2Z.id, replace_group, replace_digits by (reflexivity || apply all_digits_decimal).
    reflexivity. }
  destruct n; exact E.
Qed.

(* ===================================================================== *)
(** * Number display: grouping, and the claim *)
(* ===================================================================== *)

Lemma strip_of_list sep l :
  strip sep (string_of_list_ascii l)
  = string_of_list_ascii (List.filter (fun c => negb (Ascii.eqb c sep)) l).
Proof.
  induction l as [|c l IH]; simpl; [reflexivity|].
  destruct (Ascii.eqb c sep); simpl; now rewrite IH.
Qed.

Lemma group3_strip_le sep n :
  forall l, (length l <= n)%nat ->
    forallb (fun c => negb (Ascii.eqb c sep)) l = true ->
    List.filter (fun c => negb (Ascii.eqb c sep)) (Py.group3 sep l) = l.
Proof.
  induction n as [|n IH]; intros [|a [|b [|c [|d rest]]]] Hlen;
    simpl in Hlen; try lia;
    try (simpl; intros H;
         repeat (apply andb_prop in H as [-> H] || rewrite H); reflexivity).
  rewrite group3_step. intros H.
  cbn [forallb] in H.
  apply andb_prop in H as [Ha H]. apply andb_prop in H as [Hb H].
  apply andb_prop in H as [Hc H].
  cbn [List.filter]. rewrite Ha, Hb, Hc, Ascii.eqb_refl. cbn [negb].
  rewrite (IH (d :: rest)) by (simpl; lia || exact H). reflexivity.
Qed.

Lemma forallb_rev {A : Type} (p : A -> bool) (l : list A) :
  forallb p (rev l) = forallb p l.
Proof.
  induction l as [|a l IH]; [reflexivity|]. simpl.
  rewrite forallb_app, IH. simpl. rewrite andb_true_r. apply andb_comm.
Qed.

Lemma filter_rev_list {A : Type} (p : A -> bool) (l : list A) :
  List.filter p (rev l) = rev (List.filter p l).
Proof.
  induction l as [|a l IH]; [reflexivity|]. simpl.
  rewrite List.filter_app, IH. simpl. destruct (p a); simpl;
    [reflexivity | now rewrite app_nil_r].
Qed.

Lemma digits_not_separator s :
  all_digits s = true ->
  forallb (fun c => negb (Ascii.eqb c ".")) (list_ascii_of_string s) = true.
Proof.
  induction s as [|c s IH]; simpl; [reflexivity|].
  intros [Hc Hs]%andb_prop. rewrite (IH Hs), andb_true_r.
  destruct (Ascii.eqb_spec c "."); [subst c; discriminate | reflexivity].
Qed.

(** Without its separators, a grouped digit string is the digit string. *)
Lemma strip_group digits :
  all_digits digits = true ->
  strip "." (Py.group_thousands "." digits) = digits.
Proof.
  intros H. unfold Py.group_thousands.
  rewrite strip_of_list, filter_rev_list.
  rewrite (group3_strip_le "." (length (rev (list_ascii_of_string digits))))
    by (lia || (rewrite forallb_rev; now apply digits_not_separator)).
  now rewrite rev_involutive, string_of_list_ascii_of_string.
Qed.





Example format_int_sample : format_int 1234567 = "1.234.567".
Proof. reflexivity. Qed.

Example format_brl_sample :
  format_brl (SFdiv F64.prec F64.emax (F64.of_Z 123456789) (F64.of_Z 100))
  = "R$ 1.234.567,89".
Proof. vm_compute. reflexivity. Qed.

(* ===================================================================== *)
(** * Number display: signs, and reading a display back *)
(* ===================================================================== *)

Lemma strip_append sep a b : strip sep (a ++ b) = strip sep a ++ strip sep b.
Proof.
  induction a as [|c a IH]; [reflexivity|].
  change (String c a ++ b) with (String c (a ++ b)). cbn [strip].
  destruct (Ascii.eqb c sep); rewrite IH; reflexivity.
Qed.

Lemma format_int_negative p :
  format_int (Zneg p) = "-" ++ count_display (Npos p).
Proof.
  unfold format_int, count_display, Py.format_comma_int.
  rewrite replace_append, replace_group.
  rewrite (replace_digits "," "." (Py.decimal _))
    by (reflexivity || apply all_digits_decimal).
  reflexivity.
Qed.

Lemma replace_amount c :
  Py.replace "X" "."
    (Py.replace "." ","
       (Py.replace "," "X"
          (Py.group_thousands "," (Py.decimal (c / 100)%N)
           ++ "." ++ Py.two_digits (c mod 100)%N)))
  = amount_display c.
Proof.
  unfold amount_display.
  rewrite !replace_append, !replace_group.
  rewrite (replace_digits "," "X" (Py.decimal _)) by (reflexivity || apply all_digits_decimal).
  rewrite (replace_digits "." "," (Py.decimal _)) by (reflexivity || apply all_digits_decimal).
  rewrite (replace_digits "X" "." (Py.decimal _)) by (reflexivity || apply all_digits_decimal).
  rewrite (replace_digits "," "X" (Py.two_digits _)) by (reflexivity || apply all_digits_two_digits).
  rewrite (replace_digits "." "," (Py.two_digits _)) by (reflexivity || apply all_digits_two_digits).
  rewrite (replace_digits "X" "." (Py.two_digits _)) by (reflexivity || apply all_digits_two_digits).
  reflexivity.
Qed.

Lemma format_brl_negative m e :
  format_brl (S754_finite true m e)
  = "R$ -" ++ amount_display (F64.hundredths m e).
Proof.
  unfold format_brl, Py_format.format_comma_2f. cbv zeta.
  rewrite (replace_append "," "X" "-"), (replace_append "." ","),
    (replace_append "X" "."), replace_amount.
  reflexivity.
Qed.

(** X6.  A negative count is shown as a minus sign before its grouped
    digits; a negative amount has its minus sign after the currency
    prefix; negative zero, NaN and the infinities are shown as such. *)
Theorem format_signs :
  (forall p, format_int (Zneg p) = "-" ++ count_display (Npos p))
  /\ (forall m e, format_brl (S754_finite true m e)
                  = "R$ -" ++ amount_display (F64.hundredths m e))
  /\ (forall m e, format_brl (S754_finite false m e)
                  = "R$ " ++ amount_display (F64.hundredths m e))
  /\ format_brl (S754_zero true) = "R$ -0,00"
  /\ format_brl S754_nan = "R$ nan"
  /\ format_brl (S754_infinity false) = "R$ inf"
  /\ format_brl (S754_infinity true) = "R$ -inf".
Proof.
  split; [exact format_int_negative|].
  split; [exact format_brl_negative|].
  split; [intros m e; rewrite format_brl_finite; reflexivity|].
  repeat split; reflexivity.
Qed.

Lemma decimal_injective n n' : Py.decimal n = Py.decimal n' -> n = n'.
Proof.
  unfold Py.decimal. intros H.
  apply DecimalN.Unsigned.to_uint_inj.
  assert (Hn : forall k, N.to_uint k <> Decimal.Nil).
  { intros [|p]; [discriminate | apply DecimalPos.Unsigned.to_uint_nonnil]. }
  pose proof (NilZero.usu _ (Hn n)) as E. rewrite H in E.
  rewrite (NilZero.usu _ (Hn n')) in E. now injection E.
Qed.

Lemma str_int_of_N n : Py.str_int (Z.of_N n) = Py.decimal n.
Proof. destruct n; reflexivity. Qed.

Lemma strip_format_int z : strip "." (format_int z) = Py.str_int z.
Proof.
  destruct z as [|p|p].
  - reflexivity.
  - change (Zpos p) with (Z.of_N (Npos p)).
    rewrite format_int_nonneg, str_int_of_N.
    apply strip_group, all_digits_decimal.
  - rewrite format_int_negative, strip_append.
    unfold count_display. rewrite strip_group by apply all_digits_decimal.
    reflexivity.
Qed.

Lemma str_int_injective a b : Py.str_int a = Py.str_int b -> a = b.
Proof.
  assert (Hsign : forall p n, "-" ++ Py.decimal (Npos p) <> Py.decimal n).
  { intros p n H. apply (f_equal all_digits) in H.
    rewrite all_digits_decimal in H. discriminate H. }
  assert (Hnn : forall x y, 0 <= x -> 0 <= y ->
                  Py.decimal (Z.to_N x) = Py.decimal (Z.to_N y) -> x = y).
  { intros x y Hx Hy H%decimal_injective. lia. }
  destruct a as [|p|p], b as [|q|q]; cbn [Py.str_int]; intros H;
    try (apply Hnn in H; [exact H | lia | lia]);
    try (exfalso; exact (Hsign _ _ H));
    try (exfalso; symmetry in H; exact (Hsign _ _ H)).
  injection H as H.
  apply (decimal_injective (Npos p) (Npos q)) in H. congruence.
Qed.

(** X7.  Taking the periods out of a displayed count gives back the
    decimal text of the integer, negative ones included; so two different
    integers are never displayed alike. *)
Theorem format_int_injective :
  (forall z, strip "." (format_int z) = Py.str_int z)
  /\ (forall a b, format_int a = format_int b -> a = b).
Proof.
  split; [exact strip_format_int|].
  intros a b H. apply str_int_injective.
  now rewrite <- !strip_format_int, H.
Qed.

Lemma format_int_injective_sample :
  strip "." (format_int (-1234567)) = "-1234567"
  /\ (format_int 1000 = format_int (500 + 500) -> 1000 = 500 + 500).
Proof.
  split.
  - exact (proj1 format_int_injective (-1234567)).
  - exact (proj2 format_int_injective 1000 (500 + 500)).
Defined.

(* ===================================================================== *)
(** * Lemmas: float64 *)
(* ===================================================================== *)

Section Float.

Lemma iter_pos_invariant {A : Type} (P : A -> Prop) (f : A -> A) :
  (forall x, P x -> P (f x)) ->
  forall p x, P x -> P (SpecFloat.iter_pos f p x).
Proof.
  intros Hf. induction p as [p IH|p IH|]; intros x Hx; simpl; auto.
Qed.

Lemma shr_1_nonneg mrs : 0 <= shr_m mrs -> 0 <= shr_m (shr_1 mrs).
Proof.
  destruct mrs as [m r s]. simpl.
  destruct m as [|[p|p|]|[p|p|]]; simpl; lia.
Qed.

Lemma shr_nonneg mrs e n : 0 <= shr_m mrs -> 0 <= shr_m (fst (shr mrs e n)).
Proof.
  intros H. unfold shr. destruct n; simpl; auto.
  apply (iter_pos_invariant (fun x => 0 <= shr_m x)); auto using shr_1_nonneg.
Qed.

Lemma shr_fexp_nonneg prec emax m e l :
  0 <= m -> 0 <= shr_m (fst (shr_fexp prec emax m e l)).
Proof.
  intros H. unfold shr_fexp. apply shr_nonneg.
  destruct l as [|[]]; exact H.
Qed.

Lemma round_nearest_even_nonneg m l : 0 <= m -> 0 <= round_nearest_even m l.
Proof.
  intros H. unfold round_nearest_even.
  destruct l as [|[]]; try destruct (Z.even m); lia.
Qed.

Lemma binary_round_aux_not_nan prec emax sx mx ex lx :
  0 <= mx -> F64.is_nan (binary_round_aux prec emax sx mx ex lx) = false.
Proof.
  intros H. unfold binary_round_aux.
  pose proof (shr_fexp_nonneg prec emax mx ex lx H) as H1.
  destruct (shr_fexp prec emax mx ex lx) as [mrs' e']. simpl in H1.
  pose proof (shr_fexp_nonneg prec emax _ e' loc_Exact
                (round_nearest_even_nonneg _ (loc_of_shr_record mrs') H1)) as H2.
  destruct (shr_fexp prec emax _ e' loc_Exact) as [mrs'' e'']. simpl in H2.
  destruct (shr_m mrs''); [reflexivity| |lia].
  destruct (e'' <=? emax - prec); reflexivity.
Qed.

Lemma binary_normalize_not_nan prec emax m e szero :
  F64.is_nan (binary_normalize prec emax m e szero) = false.
Proof.
  unfold binary_normalize, binary_round.
  destruct m as [|p|p]; [reflexivity| |];
    destruct (shl_align _ _ _) as [mz ez];
    apply binary_round_aux_not_nan; lia.
Qed.

Lemma of_Z_not_nan z : F64.is_nan (F64.of_Z z) = false.
Proof. apply binary_normalize_not_nan. Qed.

Lemma rint_nan f : F64.is_nan (F64.rint f) = F64.is_nan f.
Proof.
  destruct f as [s|s| |s m e]; try reflexivity.
  simpl. destruct (0 <=? e); [reflexivity|].
  apply binary_normalize_not_nan.
Qed.

(** ** The order of floats that are not NaN *)

Ltac fold_pos_compare :=
  repeat match goal with
         | |- context [PosDef.Pos.compare_cont Eq ?a ?b] =>
             change (PosDef.Pos.compare_cont Eq a b) with (Pos.compare a b)
         end.

Lemma f64_leb_total f1 f2 :
  F64.is_nan f1 = false -> F64.is_nan f2 = false ->
  F64.leb f1 f2 = false -> F64.leb f2 f1 = true.
Proof.
  unfold F64.leb, SFleb, SFcompare.
  destruct f1 as [s1|s1| |s1 m1 e1], f2 as [s2|s2| |s2 m2 e2];
    try discriminate; intros _ _;
    try destruct s1; try destruct s2; try (intros; reflexivity);
    try discriminate;
    fold_pos_compare;
    destruct (Z.compare_spec e1 e2), (Z.compare_spec e2 e1); simpl;
    try discriminate; try (intros; reflexivity); try lia;
    destruct (Pos.compare_spec m1 m2), (Pos.compare_spec m2 m1); simpl;
    try discriminate; try (intros; reflexivity); try lia.
Qed.

Lemma f64_leb_refl f : F64.is_nan f = false -> F64.leb f f = true.
Proof.
  unfold F64.leb, SFleb, SFcompare.
  destruct f as [s|s| |s m e]; try discriminate; intros _;
    try destruct s; try reflexivity;
    fold_pos_compare; rewrite Z.compare_refl, Pos.compare_refl; reflexivity.
Qed.

Lemma f64_leb_trans f1 f2 f3 :
  F64.leb f1 f2 = true -> F64.leb f2 f3 = true -> F64.leb f1 f3 = true.
Proof.
  unfold F64.leb, SFleb, SFcompare.
  destruct f1 as [s1|s1| |s1 m1 e1], f2 as [s2|s2| |s2 m2 e2],
           f3 as [s3|s3| |s3 m3 e3];
    try discriminate;
    try destruct s1; try destruct s2; try destruct s3;
    try discriminate; try (intros; reflexivity);
    fold_pos_compare;
    destruct (Z.compare_spec e1 e2), (Z.compare_spec e2 e3),
             (Z.compare_spec e1 e3); simpl;
    try discriminate; try (intros; reflexivity); try lia;
    destruct (Pos.compare_spec m1 m2), (Pos.compare_spec m2 m3),
             (Pos.compare_spec m1 m3); simpl;
    try discriminate; try (intros; reflexivity); try lia.
Qed.

Lemma f64_eqb_refl f : F64.is_nan f = false -> F64.eqb f f = true.
Proof.
  unfold F64.eqb, SFeqb, SFcompare.
  destruct f as [s|s| |s m e]; try discriminate; intros _;
    try destruct s; try reflexivity;
    fold_pos_compare; rewrite Z.compare_refl, Pos.compare_refl; reflexivity.
Qed.

End Float.

(* ===================================================================== *)
(** * Lemmas: columns of a table *)
(* ===================================================================== *)

Section Tables.

Lemma lookup_setitem c d col s :
  lookup_col c (setitem d col s)
  = if String.eqb col c then Some s else lookup_col c d.
Proof.
  induction d as [|[name old] rest IH]; simpl.
  - destruct (String.eqb col c); reflexivity.
  - destruct (String.eqb_spec name col) as [->|Hne]; simpl.
    + destruct (String.eqb col c); reflexivity.
    + rewrite IH. destruct (String.eqb_spec name c) as [->|]; [|reflexivity].
      destruct (String.eqb_spec col c); [congruence | reflexivity].
Qed.

Lemma columns_setitem d col s s0 :
  lookup_col col d = Some s0 -> columns (setitem d col s) = columns d.
Proof.
  unfold columns. induction d as [|[name old] rest IH]; simpl; [discriminate|].
  destruct (String.eqb name col); simpl; [reflexivity|].
  intros H. now rewrite (IH H).
Qed.

Lemma setitem_same d col s :
  lookup_col col d = Some s -> setitem d col s = d.
Proof.
  induction d as [|[name old] rest IH]; simpl; [discriminate|].
  destruct (String.eqb name col); [now intros [= ->]|].
  intros H. now rewrite (IH H).
Qed.

Lemma shape_setitem d col s s0 :
  lookup_col col d = Some s0 -> length s = length s0 ->
  shape (setitem d col s) = shape d.
Proof.
  unfold shape. induction d as [|[name old] rest IH]; simpl; [discriminate|].
  destruct (String.eqb name col); simpl.
  - intros [= ->] ->. reflexivity.
  - intros H1 H2. now rewrite (IH H1 H2).
Qed.

Lemma shape_columns d d' : shape d = shape d' -> columns d = columns d'.
Proof.
  unfold shape, columns. revert d'.
  induction d as [|[n s] rest IH]; intros [|[n' s'] rest']; simpl;
    try discriminate; [reflexivity|].
  intros [= -> _ H]. now rewrite (IH _ H).
Qed.

Lemma shape_nrows d d' : shape d = shape d' -> nrows d = nrows d'.
Proof.
  destruct d as [|[n s] rest], d' as [|[n' s'] rest']; simpl;
    try discriminate; [reflexivity|]. now intros [= _ -> _].
Qed.

Lemma shape_lookup d d' c s :
  shape d = shape d' -> lookup_col c d = Some s ->
  exists s', lookup_col c d' = Some s' /\ length s' = length s.
Proof.
  revert d'. induction d as [|[n t] rest IH]; intros [|[n' t'] rest']; simpl;
    try discriminate.
  intros [= -> Hlen H]. destruct (String.eqb n' c).
  - intros [= ->]. eauto.
  - apply IH, H.
Qed.

(** ** The heap *)

Lemma heap_lookup_last (h : heap) (d : DataFrame) :
  (h ++ [d])%list !! length h = Some d.
Proof. rewrite lookup_app_r by lia. now rewrite Nat.sub_diag. Qed.

Lemma heap_insert_last (h : heap) (d d' : DataFrame) :
  <[length h := d']> (h ++ [d])%list = (h ++ [d'])%list.
Proof.
  rewrite insert_app_r_alt by lia. now rewrite Nat.sub_diag.
Qed.

(** One guarded assignment of the source, run on the copy, is
    [update_col] on its content. *)
Lemma guarded_assignment_run (h : heap) (d : DataFrame) col f :
  (present ← has_column (length h) col;
   if present : bool then
     s ← df_getitem (length h) col;
     s' ← lift (f s);
     df_setitem (length h) col s'
   else mret tt) (h ++ [d])%list
  = match update_col (col, f) d with
    | Ok d' => (Ok tt, (h ++ [d'])%list)
    | Raise e => (Raise e, (h ++ [d])%list)
    end.
Proof.
  unfold has_column, df_getitem, df_setitem, deref, lift, update_col,
    has_col, getitem, mbind, M_bind, mret, M_ret, result_bind. simpl fst. simpl snd.
  rewrite heap_lookup_last.
  destruct (lookup_col col d) as [s|] eqn:E; [|reflexivity].
  rewrite heap_lookup_last. cbv beta iota. rewrite E.
  destruct (f s) as [s'|e]; [|reflexivity].
  now rewrite heap_lookup_last, heap_insert_last.
Qed.

(** A loop of guarded assignments is [run_steps]. *)
Lemma guarded_loop_run cols (f : string -> Series -> result Series) :
  forall (h : heap) (d : DataFrame),
    for_each cols (fun col =>
      present ← has_column (length h) col;
      if present : bool then
        s ← df_getitem (length h) col;
        s' ← lift (f col s);
        df_setitem (length h) col s'
      else mret tt) (h ++ [d])%list
    = (fst (run_steps (map (fun col => (col, f col)) cols) d),
       (h ++ [snd (run_steps (map (fun col => (col, f col)) cols) d)])%list).
Proof.
  induction cols as [|col cols IH]; intros h d; [reflexivity|].
  cbn [for_each map run_steps].
  unfold mbind at 1, M_bind at 1.
  rewrite guarded_assignment_run.
  destruct (update_col (col, f col) d) as [d'|e]; [apply IH | reflexivity].
Qed.

Lemma run_steps_app steps1 steps2 d :
  run_steps (steps1 ++ steps2) d
  = match run_steps steps1 d with
    | (Ok _, d') => run_steps steps2 d'
    | (Raise e, d') => (Raise e, d')
    end.
Proof.
  revert d. induction steps1 as [|st steps1 IH]; intros d; simpl; [reflexivity|].
  destruct (update_col st d); [apply IH | reflexivity].
Qed.

End Tables.

(* ===================================================================== *)
(** * Lemmas: preprocess_data as a sequence of column assignments *)
(* ===================================================================== *)

Section CleaningRun.
Variable w : World.

(** The call copies the table behind [r] to a new reference, runs the
    assignments on the copy, and touches nothing else. *)
Lemma preprocess_data_run (h : heap) (r : ref) (d : DataFrame) :
  h !! r = Some d ->
  preprocess_data w r h
  = (match fst (run_steps (cleaning_steps w) d) with
     | Ok _ => Ok (length h)
     | Raise e => Raise e
     end,
     (h ++ [snd (run_steps (cleaning_steps w) d)])%list).
Proof.
  intros Hr. unfold preprocess_data, cleaning_steps.
  unfold mbind at 1, M_bind at 1, df_copy. rewrite Hr.
  unfold mbind at 1, M_bind at 1.
  match goal with
  | |- context [for_each NUMERIC_COLUMNS ?b ?hp] =>
      change (for_each NUMERIC_COLUMNS b hp)
        with (for_each NUMERIC_COLUMNS (fun col =>
                present ← has_column (length h) col;
                if present : bool then
                  s ← df_getitem (length h) col;
                  s' ← lift ((fun _ s => Ok (to_numeric w s)) col s);
                  df_setitem (length h) col s'
                else mret tt) hp)
  end.
  rewrite guarded_loop_run, run_steps_app.
  destruct (run_steps _ d) as [[[]|e] d1]; cbn [fst snd]; [|reflexivity].
  unfold mbind at 1, M_bind at 1.
  rewrite guarded_assignment_run.
  change (run_steps ((?st :: nil) ++ ?rest) d1)
    with (match update_col st d1 with
          | Ok d' => run_steps rest d'
          | Raise e => (Raise e, d1)
          end).
  destruct (update_col _ d1) as [d2|e]; [|reflexivity].
  unfold mbind at 1, M_bind at 1.
  rewrite (guarded_loop_run INTEGER_COLUMNS
             (fun _ s => r ← series_round (fillna (Int 0) s); astype_int w r)).
  rewrite run_steps_app.
  destruct (run_steps _ d2) as [[[]|e] d3]; cbn [fst snd]; [|reflexivity].
  unfold mbind at 1, M_bind at 1.
  rewrite guarded_assignment_run. cbn [run_steps].
  destruct (update_col _ d3) as [d4|e]; reflexivity.
Qed.

End CleaningRun.

(* ===================================================================== *)
(** * Lemmas: column types and conversions *)
(* ===================================================================== *)

Section SeriesFacts.
Variable w : World.

Lemma forallb_map_true {A B : Type} (p : B -> bool) (f : A -> B) (l : list A) :
  (forall a, p (f a) = true) -> forallb p (map f l) = true.
Proof. intros H. induction l; simpl; [reflexivity | now rewrite H]. Qed.

Lemma forallb_weaken {A : Type} (p q : A -> bool) (l : list A) :
  (forall a, p a = true -> q a = true) ->
  forallb p l = true -> forallb q l = true.
Proof.
  intros H. induction l as [|a l IH]; simpl; [reflexivity|].
  intros [Ha Hl]%andb_prop. now rewrite (H a Ha), (IH Hl).
Qed.

Lemma forallb_int_float s :
  forallb is_int s = true -> forallb is_float s = true -> s = [].
Proof. destruct s as [|[] ?]; simpl; try discriminate; reflexivity. Qed.

(** The type of a column, with what it says of the cells. *)
Lemma dtype_cases s :
  (dtype_of s = int64 /\ forallb is_int s = true)
  \/ (dtype_of s = float64 /\ forallb is_float s = true /\ forallb is_int s = false)
  \/ (dtype_of s = Int64 /\ forallb is_int_or_na s = true /\ forallb is_int s = false)
  \/ (dtype_of s = object /\ forallb is_int s = false).
Proof.
  unfold dtype_of.
  destruct (forallb is_int s); [now left|].
  destruct (forallb is_float s); [right; left; now repeat split|].
  destruct (forallb is_int_or_na s); [right; right; left; now repeat split|].
  right; right; right; now split.
Qed.

Lemma dtype_all_int s : forallb is_int s = true -> dtype_of s = int64.
Proof. unfold dtype_of. now intros ->. Qed.

Lemma dtype_int64_inv s : dtype_of s = int64 -> forallb is_int s = true.
Proof.
  unfold dtype_of. destruct (forallb is_int s); [reflexivity|].
  destruct (forallb is_float s); [discriminate|].
  destruct (forallb is_int_or_na s); discriminate.
Qed.

Lemma dtype_all_float s :
  forallb is_float s = true -> dtype_of s = int64 \/ dtype_of s = float64.
Proof.
  unfold dtype_of. intros ->. destruct (forallb is_int s); [now left | now right].
Qed.

Lemma dtype_all_int_or_na s :
  forallb is_int_or_na s = true -> dtype_of s = int64 \/ dtype_of s = Int64.
Proof.
  unfold dtype_of. intros H. rewrite H.
  destruct (forallb is_int s) eqn:Hi; [now left|].
  destruct (forallb is_float s) eqn:Hf; [|now right].
  exfalso. destruct s as [|[] ?]; simpl in *; discriminate.
Qed.

Lemma numeric_dtype s :
  dtype_of s <> object -> forallb is_numeric s = true.
Proof.
  destruct (dtype_cases s) as [[_ H]|[[_ [H _]]|[[_ [H _]]|[E _]]]];
    [| | |congruence]; intros _;
    (eapply forallb_weaken; [|exact H]); intros []; simpl; congruence.
Qed.

(** ** to_numeric *)

Lemma to_numeric_cell_shape c :
  is_int (to_numeric_cell w c) = true \/ is_float (to_numeric_cell w c) = true.
Proof.
  destruct c as [|z|f|t]; simpl; auto.
  destruct (parse_number w t); simpl; auto.
Qed.

Lemma to_numeric_dtype s : dtype_of (to_numeric w s) <> object.
Proof.
  unfold to_numeric.
  destruct (dtype_cases s) as [[E _]|[[E _]|[[E _]|[E _]]]]; rewrite E;
    try congruence.
  destruct (forallb is_int (map (to_numeric_cell w) s)) eqn:Hi.
  - rewrite (dtype_all_int _ Hi). discriminate.
  - destruct (dtype_all_float
                (map (fun c => Float (to_float c)) (map (to_numeric_cell w) s))
                (forallb_map_true is_float (fun c => Float (to_float c)) _
                   (fun _ => eq_refl)))
      as [E'|E']; rewrite E'; discriminate.
Qed.

Lemma to_numeric_fixed s : dtype_of s <> object -> to_numeric w s = s.
Proof. unfold to_numeric. destruct (dtype_of s); congruence. Qed.

Lemma to_numeric_idempotent s :
  to_numeric w (to_numeric w s) = to_numeric w s.
Proof. apply to_numeric_fixed, to_numeric_dtype. Qed.

Lemma to_numeric_length s : length (to_numeric w s) = length s.
Proof.
  unfold to_numeric. destruct (dtype_of s); try reflexivity.
  destruct (forallb _ _); now rewrite ?length_map.
Qed.

(** ** fillna, round, astype *)

Lemma fillna_length v s : length (fillna v s) = length s.
Proof. unfold fillna. destruct (dtype_of s); now rewrite ?length_map. Qed.

Lemma series_round_length s s' :
  series_round s = Ok s' -> length s' = length s.
Proof.
  unfold series_round. destruct (dtype_of s); intros [= <-];
    now rewrite ?length_map.
Qed.

Lemma astype_int_length s s' : astype_int w s = Ok s' -> length s' = length s.
Proof.
  unfold astype_int. destruct (dtype_of s); try discriminate.
  - now intros [= <-].
  - destruct (forallb _ s); intros [= <-]. now rewrite length_map.
Qed.

Lemma astype_float_length s s' :
  astype_float s = Ok s' -> length s' = length s.
Proof.
  unfold astype_float. destruct (dtype_of s); intros [= <-];
    now rewrite length_map.
Qed.

Lemma traverse_length {A B : Type} (f : A -> result B) l l' :
  traverse f l = Ok l' -> length l' = length l.
Proof.
  revert l'. induction l as [|a l IH]; intros l'; simpl.
  - now intros [= <-].
  - destruct (f a) as [b|]; [|discriminate]. simpl.
    destruct (traverse f l) as [bs|]; [|discriminate]. simpl.
    intros [= <-]. simpl. now rewrite (IH bs).
Qed.

Lemma traverse_forall {A B : Type} (f : A -> result B) (q : B -> bool) l l' :
  (forall a b, f a = Ok b -> q b = true) ->
  traverse f l = Ok l' -> forallb q l' = true.
Proof.
  intros Hf. revert l'. induction l as [|a l IH]; intros l'; simpl.
  - now intros [= <-].
  - destruct (f a) as [b|] eqn:E; [|discriminate]. simpl.
    destruct (traverse f l) as [bs|]; [|discriminate]. simpl.
    intros [= <-]. simpl. now rewrite (Hf a b E), (IH bs).
Qed.

Lemma astype_Int64_length s s' :
  astype_Int64 s = Ok s' -> length s' = length s.
Proof.
  unfold astype_Int64. destruct (dtype_of s); try discriminate;
    try (now intros [= <-]). apply traverse_length.
Qed.

(** Filling a numeric column leaves integers, or floats that are not NaN. *)
Lemma fillna_zero_shape v s :
  (v = Int 0 \/ v = Float F64.zero) ->
  dtype_of s <> object ->
  forallb is_int (fillna v s) = true \/ forallb is_real (fillna v s) = true.
Proof.
  intros Hv. unfold fillna.
  destruct (dtype_cases s) as [[E H]|[[E [H _]]|[[E [H _]]|[E _]]]]; rewrite E;
    [auto| | |congruence]; intros _; clear E.
  - right. induction s as [|c s IH]; [reflexivity|].
    simpl in H. apply andb_prop in H as [Hc Hs]. cbn [map forallb].
    rewrite (IH Hs), andb_true_r.
    destruct c as [|z|f|t]; try discriminate. simpl.
    destruct (F64.is_nan f) eqn:En; simpl; [|now rewrite En].
    destruct Hv as [-> | ->]; reflexivity.
  - left. induction s as [|c s IH]; [reflexivity|].
    simpl in H. apply andb_prop in H as [Hc Hs]. cbn [map forallb].
    rewrite (IH Hs), andb_true_r.
    destruct c as [|z|f|t]; try discriminate; simpl; [|reflexivity].
    destruct Hv as [-> | ->]; reflexivity.
Qed.

Lemma real_is_float s : forallb is_real s = true -> forallb is_float s = true.
Proof. apply forallb_weaken. intros []; simpl; congruence. Qed.

Lemma real_not_na s :
  forallb is_real s = true -> map (fun c => if isna c then Float F64.zero else c) s = s.
Proof.
  induction s as [|c s IH]; [reflexivity|]. simpl.
  intros [Hc Hs]%andb_prop. rewrite (IH Hs).
  destruct c as [|z|f|t]; try discriminate. simpl in *.
  now destruct (F64.is_nan f).
Qed.

Lemma float_to_float s :
  forallb is_float s = true -> map (fun c => Float (to_float c)) s = s.
Proof.
  induction s as [|c s IH]; [reflexivity|]. simpl.
  intros [Hc Hs]%andb_prop. rewrite (IH Hs).
  now destruct c.
Qed.

(** The conversion of the integer columns yields integers. *)
Lemma integer_step_shape s s' :
  dtype_of s <> object ->
  (r ← series_round (fillna (Int 0) s); astype_int w r) = Ok s' ->
  forallb is_int s' = true.
Proof.
  intros Hs.
  destruct (fillna_zero_shape (Int 0) s (or_introl eq_refl) Hs) as [H|H].
  - unfold series_round. rewrite (dtype_all_int _ H).
    unfold mbind, result_bind, astype_int. rewrite (dtype_all_int _ H).
    now intros [= <-].
  - unfold series_round, mbind, result_bind.
    destruct (dtype_all_float _ (real_is_float _ H)) as [E|E]; rewrite E.
    + unfold astype_int. rewrite E. intros [= <-].
      unfold dtype_of in E. destruct (forallb is_int _); [reflexivity|].
      rewrite (real_is_float _ H) in E. discriminate.
    + unfold astype_int.
      destruct (dtype_of (map _ _)) eqn:Ed; try discriminate.
      * intros [= <-]. now apply dtype_int64_inv.
      * destruct (forallb (fun c => F64.is_finite _) _); [|discriminate].
        intros [= <-]. now apply forallb_map_true.
Qed.

(** The conversion of the monetary column never raises and yields floats
    that are not NaN. *)
Lemma credit_step_shape s :
  dtype_of s <> object ->
  exists s', astype_float (fillna (Float F64.zero) s) = Ok s'
             /\ forallb is_real s' = true.
Proof.
  intros Hs.
  destruct (fillna_zero_shape (Float F64.zero) s (or_intror eq_refl) Hs) as [H|H].
  - unfold astype_float. rewrite (dtype_all_int _ H). eexists; split; [reflexivity|].
    induction (fillna _ s) as [|c l IH]; [reflexivity|].
    simpl in H. apply andb_prop in H as [Hc Hl]. simpl. rewrite (IH Hl), andb_true_r.
    destruct c; try discriminate. simpl. now rewrite of_Z_not_nan.
  - unfold astype_float.
    destruct (dtype_all_float _ (real_is_float _ H)) as [E|E]; rewrite E;
      (eexists; split; [reflexivity|]);
      now rewrite (float_to_float _ (real_is_float _ H)).
Qed.

Lemma float_to_nullable_shape c r :
  float_to_nullable c = Ok r -> is_int_or_na r = true.
Proof.
  unfold float_to_nullable.
  destruct (F64.is_nan _); [now intros [= <-]|].
  destruct (_ && _)%bool; [now intros [= <-] | discriminate].
Qed.

(** The conversion of the identifier column yields integers and [pd.NA]. *)
Lemma ibge_step_shape s s' :
  astype_Int64 (to_numeric w s) = Ok s' -> forallb is_int_or_na s' = true.
Proof.
  unfold astype_Int64.
  destruct (dtype_cases (to_numeric w s))
    as [[E H]|[[E [H _]]|[[E [H _]]|[E _]]]]; rewrite E; try discriminate.
  - intros [= <-]. revert H. apply forallb_weaken. now intros [].
  - apply traverse_forall, float_to_nullable_shape.
  - now intros [= <-].
Qed.

(** ** Columns the cleaning leaves as they are *)

Lemma integer_step_fixed s :
  forallb is_int s = true ->
  (r ← series_round (fillna (Int 0) s); astype_int w r) = Ok s.
Proof.
  intros H.
  assert (Hfill : fillna (Int 0) s = s)
    by (unfold fillna; now rewrite (dtype_all_int _ H)).
  rewrite Hfill. unfold series_round, mbind, result_bind.
  rewrite (dtype_all_int _ H). unfold astype_int. now rewrite (dtype_all_int _ H).
Qed.

Lemma credit_step_fixed s :
  forallb is_real s = true ->
  astype_float (fillna (Float F64.zero) s) = Ok s.
Proof.
  intros H. pose proof (real_is_float _ H) as Hf.
  assert (Hfill : fillna (Float F64.zero) s = s).
  { unfold fillna. destruct (dtype_all_float _ Hf) as [E|E]; rewrite E;
      [reflexivity | apply (real_not_na _ H)]. }
  rewrite Hfill. unfold astype_float.
  destruct (dtype_all_float _ Hf) as [E|E]; rewrite E;
    now rewrite (float_to_float _ Hf).
Qed.

Lemma ibge_step_fixed s :
  forallb is_int_or_na s = true -> astype_Int64 (to_numeric w s) = Ok s.
Proof.
  intros H.
  assert (Hd : dtype_of s <> object)
    by (destruct (dtype_all_int_or_na _ H) as [E|E]; rewrite E; discriminate).
  rewrite (to_numeric_fixed _ Hd). unfold astype_Int64.
  destruct (dtype_all_int_or_na _ H) as [E|E]; now rewrite E.
Qed.

End SeriesFacts.

(* ===================================================================== *)
(** * Lemmas: what the cleaning does to each column *)
(* ===================================================================== *)

Section CleaningFacts.
Variable w : World.

(** ** Sequences of assignments *)

Lemma column_steps_skip c name f rest s :
  name <> c -> column_steps c ((name, f) :: rest) s = column_steps c rest s.
Proof.
  intros H. simpl. destruct (String.eqb_spec name c); [contradiction | reflexivity].
Qed.

Lemma column_steps_here c f rest s :
  column_steps c ((c, f) :: rest) s = (s' ← f s; column_steps c rest s').
Proof. simpl. now rewrite String.eqb_refl. Qed.

(** After a run that returned, each column is what its own assignments
    make of it. *)
Lemma run_steps_lookup steps :
  forall d d', run_steps steps d = (Ok tt, d') ->
  forall c,
    match lookup_col c d with
    | Some s => exists s', column_steps c steps s = Ok s'
                           /\ lookup_col c d' = Some s'
    | None => lookup_col c d' = None
    end.
Proof.
  induction steps as [|[name f] rest IH]; intros d d' Hrun c.
  - simpl in Hrun. injection Hrun as <-.
    destruct (lookup_col c d); eauto.
  - cbn [run_steps] in Hrun. unfold update_col in Hrun. cbn [fst snd] in Hrun.
    destruct (lookup_col name d) as [s0|] eqn:E0.
    + destruct (f s0) as [s0'|e] eqn:Ef; [|discriminate].
      cbn in Hrun. specialize (IH _ _ Hrun c).
      rewrite lookup_setitem in IH.
      destruct (String.eqb_spec name c) as [->|Hne].
      * rewrite E0, column_steps_here, Ef. exact IH.
      * destruct (lookup_col c d); [|exact IH].
        now rewrite column_steps_skip.
    + specialize (IH _ _ Hrun c).
      destruct (String.eqb_spec name c) as [->|Hne].
      * rewrite E0 in *. exact IH.
      * destruct (lookup_col c d); [|exact IH].
        now rewrite column_steps_skip.
Qed.

(** A run that raised did so in the assignments of one column. *)
Lemma run_steps_raise steps :
  forall d d' e, run_steps steps d = (Raise e, d') ->
  exists c s, lookup_col c d = Some s /\ column_steps c steps s = Raise e.
Proof.
  induction steps as [|[name f] rest IH]; intros d d' e Hrun; [discriminate|].
  cbn [run_steps] in Hrun. unfold update_col in Hrun. cbn [fst snd] in Hrun.
  destruct (lookup_col name d) as [s0|] eqn:E0.
  - destruct (f s0) as [s0'|e0] eqn:Ef.
    + cbn in Hrun. destruct (IH _ _ _ Hrun) as (c & s & Hc & Hs).
      rewrite lookup_setitem in Hc.
      destruct (String.eqb_spec name c) as [->|Hne].
      * injection Hc as <-. exists c, s0. split; [exact E0|].
        now rewrite column_steps_here, Ef.
      * exists c, s. split; [exact Hc|]. now rewrite column_steps_skip.
    + cbn in Hrun. injection Hrun as <- <-.
      exists name, s0. split; [exact E0|].
      now rewrite column_steps_here, Ef.
  - destruct (IH _ _ _ Hrun) as (c & s & Hc & Hs).
    exists c, s. split; [exact Hc|].
    rewrite column_steps_skip; [exact Hs|]. intros ->. congruence.
Qed.

(** Assignments that keep the number of cells keep the shape, whether
    the run returns or raises. *)
Lemma run_steps_shape steps :
  Forall (fun st : step => forall s s', snd st s = Ok s' -> length s' = length s) steps ->
  forall d, shape (snd (run_steps steps d)) = shape d.
Proof.
  induction 1 as [|[name f] rest Hf _ IH]; intros d; [reflexivity|].
  cbn [run_steps]. unfold update_col. cbn [fst snd] in *.
  destruct (lookup_col name d) as [s0|] eqn:E0.
  - destruct (f s0) as [s0'|e] eqn:Ef; [|reflexivity].
    cbn. rewrite IH. apply (shape_setitem _ _ _ s0 E0), (Hf _ _ Ef).
  - apply IH.
Qed.

(** Assignments that give back the column they read change nothing. *)
Lemma run_steps_fixed steps d :
  Forall (fun st : step => forall s, lookup_col (fst st) d = Some s -> snd st s = Ok s) steps ->
  run_steps steps d = (Ok tt, d).
Proof.
  induction 1 as [|[name f] rest Hf _ IH]; [reflexivity|].
  cbn [run_steps]. unfold update_col. cbn [fst snd] in *.
  destruct (lookup_col name d) as [s0|] eqn:E0; [|exact IH].
  rewrite (Hf _ eq_refl). cbn. now rewrite (setitem_same _ _ _ E0).
Qed.

(** ** The assignments of preprocess_data, by column *)

Lemma result_bind_ret {A : Type} (x : result A) : (a ← x; Ok a) = x.
Proof. now destruct x. Qed.

Ltac names_differ :=
  let E := fresh in
  intro E; apply String.eqb_eq in E; vm_compute in E; discriminate E.

Ltac column_steps_at_name :=
  unfold cleaning_steps, NUMERIC_COLUMNS, INTEGER_COLUMNS, CAF_PF_COL,
    WOMEN_COL, MEN_COL, AF_COL, OPERATIONS_COL, CREDIT_COL, IBGE_COL;
  cbn [column_steps map app String.eqb Ascii.eqb Bool.eqb andb
       mbind result_bind];
  rewrite ?result_bind_ret; reflexivity.

Lemma column_steps_cases c s :
  (In c INTEGER_COLUMNS
   /\ column_steps c (cleaning_steps w) s
      = (r ← series_round (fillna (Int 0) (to_numeric w s)); astype_int w r))
  \/ (c = CREDIT_COL
      /\ column_steps c (cleaning_steps w) s
         = astype_float (fillna (Float F64.zero) (to_numeric w s)))
  \/ (c = OPERATIONS_COL
      /\ column_steps c (cleaning_steps w) s = Ok (to_numeric w s))
  \/ (c = IBGE_COL
      /\ column_steps c (cleaning_steps w) s = astype_Int64 (to_numeric w s))
  \/ (~ In c NUMERIC_COLUMNS /\ ~ In c INTEGER_COLUMNS /\ c <> IBGE_COL
      /\ column_steps c (cleaning_steps w) s = Ok s).
Proof.
  destruct (String.eqb_spec CAF_PF_COL c) as [<-|N1];
    [left; split; [simpl; tauto | column_steps_at_name]|].
  destruct (String.eqb_spec "CAFs PJ ATIVO" c) as [<-|N2];
    [left; split; [simpl; tauto | column_steps_at_name]|].
  destruct (String.eqb_spec WOMEN_COL c) as [<-|N3];
    [left; split; [simpl; tauto | column_steps_at_name]|].
  destruct (String.eqb_spec MEN_COL c) as [<-|N4];
    [left; split; [simpl; tauto | column_steps_at_name]|].
  destruct (String.eqb_spec AF_COL c) as [<-|N5];
    [left; split; [simpl; tauto | column_steps_at_name]|].
  destruct (String.eqb_spec OPERATIONS_COL c) as [<-|N6];
    [right; right; left; split; [reflexivity | column_steps_at_name]|].
  destruct (String.eqb_spec CREDIT_COL c) as [<-|N7];
    [right; left; split; [reflexivity | column_steps_at_name]|].
  destruct (String.eqb_spec IBGE_COL c) as [<-|N8];
    [right; right; right; left; split; [reflexivity | column_steps_at_name]|].
  right; right; right; right. repeat split.
  - simpl. intuition congruence.
  - simpl. intuition congruence.
  - congruence.
  - unfold cleaning_steps, NUMERIC_COLUMNS, INTEGER_COLUMNS. cbn [map app].
    now rewrite !column_steps_skip by assumption.
Qed.

End CleaningFacts.

(* ===================================================================== *)
(** * preprocess_data: what it returns *)
(* ===================================================================== *)

Section CleaningTheorems.
Variable w : World.

Lemma traverse_raise {A B : Type} (f : A -> result B) l e :
  traverse f l = Raise e -> exists a, In a l /\ f a = Raise e.
Proof.
  induction l as [|a l IH]; simpl; [discriminate|].
  destruct (f a) as [b|e0] eqn:E; simpl.
  - destruct (traverse f l) as [bs|e1]; simpl; [discriminate|].
    intros [= <-]. destruct (IH eq_refl) as (a' & Hin & Ha'). eauto.
  - intros [= <-]. eauto.
Qed.

Lemma integer_step_raise s e :
  dtype_of s <> object ->
  (r ← series_round (fillna (Int 0) s); astype_int w r) = Raise e ->
  e = IntCastingNaNError.
Proof.
  intros Hs.
  destruct (fillna_zero_shape (Int 0) s (or_introl eq_refl) Hs) as [H|H].
  - unfold series_round, mbind, result_bind. rewrite (dtype_all_int _ H).
    unfold astype_int. now rewrite (dtype_all_int _ H).
  - unfold series_round, mbind, result_bind.
    destruct (dtype_all_float _ (real_is_float _ H)) as [E|E]; rewrite E.
    + unfold astype_int. now rewrite E.
    + unfold astype_int.
      destruct (dtype_all_float
                  (map (fun c => Float (F64.rint (to_float c))) (fillna (Int 0) s))
                  (forallb_map_true is_float
                     (fun c => Float (F64.rint (to_float c))) _ (fun _ => eq_refl)))
        as [E'|E']; rewrite E'.
      * discriminate.
      * destruct (forallb (fun c => F64.is_finite _) _);
          [discriminate | now intros [= <-]].
Qed.

Lemma ibge_step_raise s e :
  astype_Int64 (to_numeric w s) = Raise e -> e = TypeError.
Proof.
  unfold astype_Int64. destruct (dtype_of (to_numeric w s));
    try discriminate; [|now intros [= <-]].
  intros (c & _ & Hc)%traverse_raise. unfold float_to_nullable in Hc.
  destruct (F64.is_nan _); [discriminate|].
  destruct (_ && _)%bool; [discriminate | now injection Hc as <-].
Qed.

Ltac names_clash H :=
  exfalso; revert H; clear; intros H;
  repeat (destruct H as [H|H]; [apply String.eqb_eq in H; vm_compute in H; discriminate H|]);
  first [ exact H | apply String.eqb_eq in H; vm_compute in H; discriminate H ].

(** A run of the assignments that returned left a cleaned table. *)
Lemma run_steps_cleaned d d' :
  run_steps (cleaning_steps w) d = (Ok tt, d') -> cleaned d'.
Proof.
  intros Hrun.
  assert (Hcol : forall c s', lookup_col c d' = Some s' ->
            exists s, column_steps c (cleaning_steps w) s = Ok s').
  { intros c s' Hc. pose proof (run_steps_lookup _ _ _ Hrun c) as Hl.
    destruct (lookup_col c d) as [s|]; [|congruence].
    destruct Hl as (s1 & H1 & H2). exists s. congruence. }
  repeat split.
  - intros c s' Hin Hc. destruct (Hcol _ _ Hc) as (s & Hs).
    destruct (column_steps_cases w c s)
      as [[_ E]|[[_ E]|[[_ E]|[[Hn _]|(Hn & _)]]]]; rewrite ?E in Hs.
    + rewrite (dtype_all_int _ (integer_step_shape w _ _ (to_numeric_dtype w s) Hs)).
      discriminate.
    + destruct (credit_step_shape (to_numeric w s) (to_numeric_dtype w s))
        as (s1 & H1 & H2).
      assert (s1 = s') as -> by congruence.
      destruct (dtype_all_float _ (real_is_float _ H2)) as [E'|E']; rewrite E';
        discriminate.
    + injection Hs as <-. apply to_numeric_dtype.
    + subst c. names_clash Hin.
    + contradiction.
  - intros s' Hc. destruct (Hcol _ _ Hc) as (s & Hs).
    destruct (column_steps_cases w CREDIT_COL s)
      as [[Hn _]|[[_ E]|[[Hn _]|[[Hn _]|(Hn & _)]]]].
    + names_clash Hn.
    + rewrite E in Hs.
      destruct (credit_step_shape (to_numeric w s) (to_numeric_dtype w s))
        as (s1 & H1 & H2). congruence.
    + names_clash Hn.
    + names_clash Hn.
    + exfalso. apply Hn. simpl. tauto.
  - intros c s' Hin Hc. destruct (Hcol _ _ Hc) as (s & Hs).
    destruct (column_steps_cases w c s)
      as [[_ E]|[[Hn _]|[[Hn _]|[[Hn _]|(_ & Hn & _)]]]].
    + rewrite E in Hs. exact (integer_step_shape w _ _ (to_numeric_dtype w s) Hs).
    + subst c. names_clash Hin.
    + subst c. names_clash Hin.
    + subst c. names_clash Hin.
    + contradiction.
  - intros s' Hc. destruct (Hcol _ _ Hc) as (s & Hs).
    destruct (column_steps_cases w IBGE_COL s)
      as [[Hn _]|[[Hn _]|[[Hn _]|[[_ E]|(_ & _ & Hn & _)]]]].
    + names_clash Hn.
    + names_clash Hn.
    + names_clash Hn.
    + rewrite E in Hs. exact (ibge_step_shape w _ _ Hs).
    + congruence.
Qed.

(** A run of the assignments raises one of two exceptions. *)
Lemma run_steps_exceptions d d' e :
  run_steps (cleaning_steps w) d = (Raise e, d') ->
  e = IntCastingNaNError \/ e = TypeError.
Proof.
  intros (c & s & _ & Hs)%run_steps_raise.
  destruct (column_steps_cases w c s)
    as [[_ E]|[[_ E]|[[_ E]|[[_ E]|(_ & _ & _ & E)]]]]; rewrite E in Hs.
  - left. exact (integer_step_raise _ _ (to_numeric_dtype w s) Hs).
  - destruct (credit_step_shape (to_numeric w s) (to_numeric_dtype w s))
      as (s1 & H1 & _). congruence.
  - discriminate.
  - right. exact (ibge_step_raise _ _ Hs).
  - discriminate.
Qed.

(** On a cleaned table the assignments change nothing. *)
Lemma run_steps_on_cleaned d :
  cleaned d -> run_steps (cleaning_steps w) d = (Ok tt, d).
Proof.
  intros (Hnum & Hcredit & Hint & Hibge).
  apply run_steps_fixed. unfold cleaning_steps.
  rewrite !Forall_app. repeat split.
  - apply List.Forall_forall. intros [name f] Hin s Hs.
    apply in_map_iff in Hin as (col & [= <- <-] & Hcol). cbn [fst snd] in *.
    now rewrite (to_numeric_fixed w s (Hnum _ _ Hcol Hs)).
  - constructor; [|constructor]. intros s Hs. cbn [fst snd] in *.
    apply credit_step_fixed, Hcredit, Hs.
  - apply List.Forall_forall. intros [name f] Hin s Hs.
    apply in_map_iff in Hin as (col & [= <- <-] & Hcol). cbn [fst snd] in *.
    apply integer_step_fixed, (Hint _ _ Hcol Hs).
  - constructor; [|constructor]. intros s Hs. cbn [fst snd] in *.
    apply ibge_step_fixed, Hibge, Hs.
Qed.

Lemma cleaning_steps_keep_length :
  Forall (fun st : step => forall s s', snd st s = Ok s' -> length s' = length s)
         (cleaning_steps w).
Proof.
  unfold cleaning_steps. rewrite !Forall_app. repeat split.
  - apply List.Forall_forall. intros [name f] Hin s s' Hs.
    apply in_map_iff in Hin as (col & [= <- <-] & _). cbn [snd] in Hs.
    injection Hs as <-. apply to_numeric_length.
  - constructor; [|constructor]. intros s s' Hs. cbn [snd] in Hs.
    rewrite (astype_float_length _ _ Hs). apply fillna_length.
  - apply List.Forall_forall. intros [name f] Hin s s' Hs.
    apply in_map_iff in Hin as (col & [= <- <-] & _). cbn [snd] in Hs.
    destruct (series_round (fillna (Int 0) s)) as [r|] eqn:Er; [|discriminate].
    cbn in Hs. rewrite (astype_int_length w _ _ Hs), (series_round_length _ _ Er).
    apply fillna_length.
  - constructor; [|constructor]. intros s s' Hs. cbn [snd] in Hs.
    rewrite (astype_Int64_length _ _ Hs). apply to_numeric_length.
Qed.

End CleaningTheorems.

(* ===================================================================== *)
(** * preprocess_data: the claims *)
(* ===================================================================== *)

Lemma preprocess_data_outcome (w : World) (h : heap) (r : ref) (d : DataFrame) :
  h !! r = Some d ->
  (exists d', preprocess_data w r h = (Ok (length h), (h ++ [d'])%list)
              /\ run_steps (cleaning_steps w) d = (Ok tt, d'))
  \/ (exists e d', preprocess_data w r h = (Raise e, (h ++ [d'])%list)
                   /\ run_steps (cleaning_steps w) d = (Raise e, d')).
Proof.
  intros Hr. rewrite (preprocess_data_run w h r d Hr).
  destruct (run_steps (cleaning_steps w) d) as [[[]|e] d']; cbn [fst snd]; eauto.
Qed.

Example preprocess_data_sample :
  returned (preprocess_data sample_world 0%nat [sample_raw])
  = Ok (Some sample_clean).
Proof. vm_compute. reflexivity. Qed.




(** C4.  Cleaning the table that a cleaning returned gives that table
    again, and a cleaning that raises does so in the first pass. *)
Theorem preprocess_data_idempotent (w : World) (h : heap) (r : ref) (d : DataFrame) :
  h !! r = Some d ->
  returned ((r1 ← preprocess_data w r; preprocess_data w r1) h)
  = returned (preprocess_data w r h).
Proof.
  intros Hr. unfold mbind, M_bind.
  destruct (preprocess_data_outcome w h r d Hr)
    as [(d' & -> & Hrun)|(e & d' & -> & Hrun)]; [|reflexivity].
  pose proof (run_steps_on_cleaned w d' (run_steps_cleaned w _ _ Hrun)) as Hfix.
  rewrite (preprocess_data_run w _ _ d' (heap_lookup_last h d')), Hfix.
  cbn [fst snd returned].
  now rewrite !heap_lookup_last.
Qed.

Lemma preprocess_data_idempotent_sample :
  returned ((r1 ← preprocess_data sample_world 0%nat;
             preprocess_data sample_world r1) [sample_raw])
  = returned (preprocess_data sample_world 0%nat [sample_raw]).
Proof.
  exact (preprocess_data_idempotent sample_world [sample_raw] 0%nat sample_raw eq_refl).
Defined.

(** C10.  [preprocess_data] leaves every table of the heap as it was, the
    one it was given included, whether it returns or raises.  The table
    it returns is a new object with the same columns in the same order
    and as many cells in each, and its columns outside the numeric set,
    the integer set and the identifier are those of the input. *)
Theorem preprocess_data_frame (w : World) (h : heap) (r : ref) (d : DataFrame) :
  h !! r = Some d ->
  (forall i, (i < length h)%nat -> snd (preprocess_data w r h) !! i = h !! i)
  /\ (forall r', fst (preprocess_data w r h) = Ok r' ->
        r' = length h
        /\ exists d', snd (preprocess_data w r h) !! r' = Some d'
             /\ shape d' = shape d
             /\ forall c, ~ In c NUMERIC_COLUMNS -> ~ In c INTEGER_COLUMNS ->
                          c <> IBGE_COL -> lookup_col c d' = lookup_col c d).
Proof.
  intros Hr. rewrite (preprocess_data_run w h r d Hr). cbn [fst snd]. split.
  - intros i Hi. now apply lookup_app_l.
  - intros r' Hok.
    destruct (run_steps (cleaning_steps w) d) as [[[]|e] d'] eqn:Hrun;
      cbn [fst snd] in *; [|discriminate].
    injection Hok as <-. split; [reflexivity|].
    exists d'. split; [apply heap_lookup_last|]. split.
    + pose proof (run_steps_shape _ (cleaning_steps_keep_length w) d) as Hs.
      now rewrite Hrun in Hs.
    + intros c Hnum Hint Hibge.
      pose proof (run_steps_lookup _ _ _ Hrun c) as Hl.
      destruct (lookup_col c d) as [s|]; [|exact Hl].
      destruct Hl as (s' & Hs' & ->).
      destruct (column_steps_cases w c s)
        as [[Hn _]|[[-> _]|[[-> _]|[[-> _]|(_ & _ & _ & E)]]]];
        [contradiction| | | |congruence]; exfalso.
      * apply Hnum. simpl. tauto.
      * apply Hnum. simpl. tauto.
      * now apply Hibge.
Qed.

Lemma preprocess_data_frame_sample :
  (forall i, (i < length [sample_raw])%nat ->
     snd (preprocess_data sample_world 0%nat [sample_raw]) !! i
     = [sample_raw] !! i)
  /\ (forall r', fst (preprocess_data sample_world 0%nat [sample_raw]) = Ok r' ->
        r' = length [sample_raw]
        /\ exists d', snd (preprocess_data sample_world 0%nat [sample_raw]) !! r'
                      = Some d'
             /\ shape d' = shape sample_raw
             /\ forall c, ~ In c NUMERIC_COLUMNS -> ~ In c INTEGER_COLUMNS ->
                          c <> IBGE_COL ->
                          lookup_col c d' = lookup_col c sample_raw).
Proof.
  exact (preprocess_data_frame sample_world [sample_raw] 0%nat sample_raw eq_refl).
Defined.

(* ===================================================================== *)
(** * preprocess_data, cell by cell *)
(* ===================================================================== *)

Section CleaningCells.
Variable w : World.

Ltac other_column H :=
  exfalso; revert H; clear; intros H;
  repeat (destruct H as [H|H];
          [apply String.eqb_eq in H; vm_compute in H; discriminate H|]);
  first [ exact H | apply String.eqb_eq in H; vm_compute in H; discriminate H ].

Lemma column_steps_credit s :
  column_steps CREDIT_COL (cleaning_steps w) s
  = astype_float (fillna (Float F64.zero) (to_numeric w s)).
Proof.
  destruct (column_steps_cases w CREDIT_COL s)
    as [[Hn _]|[[_ E]|[[Hn _]|[[Hn _]|(Hn & _)]]]].
  - other_column Hn.
  - exact E.
  - other_column Hn.
  - other_column Hn.
  - exfalso. apply Hn. simpl. tauto.
Qed.

Lemma column_steps_integer c s :
  In c INTEGER_COLUMNS ->
  column_steps c (cleaning_steps w) s
  = (r ← series_round (fillna (Int 0) (to_numeric w s)); astype_int w r).
Proof.
  intros Hin.
  destruct (column_steps_cases w c s)
    as [[_ E]|[[Hn _]|[[Hn _]|[[Hn _]|(_ & Hn & _)]]]].
  - exact E.
  - subst c. other_column Hin.
  - subst c. other_column Hin.
  - subst c. other_column Hin.
  - contradiction.
Qed.

Lemma column_steps_ibge s :
  column_steps IBGE_COL (cleaning_steps w) s = astype_Int64 (to_numeric w s).
Proof.
  destruct (column_steps_cases w IBGE_COL s)
    as [[Hn _]|[[Hn _]|[[Hn _]|[[_ E]|(_ & _ & Hn & _)]]]].
  - other_column Hn.
  - other_column Hn.
  - other_column Hn.
  - exact E.
  - congruence.
Qed.

Lemma column_steps_region s :
  column_steps IMMEDIATE_REGION_COL (cleaning_steps w) s = Ok s.
Proof.
  destruct (column_steps_cases w IMMEDIATE_REGION_COL s)
    as [[Hn _]|[[Hn _]|[[Hn _]|[[Hn _]|(_ & _ & _ & E)]]]].
  - other_column Hn.
  - other_column Hn.
  - other_column Hn.
  - other_column Hn.
  - exact E.
Qed.

Lemma column_steps_municipality s :
  column_steps MUNICIPALITY_COL (cleaning_steps w) s = Ok s.
Proof.
  destruct (column_steps_cases w MUNICIPALITY_COL s)
    as [[Hn _]|[[Hn _]|[[Hn _]|[[Hn _]|(_ & _ & _ & E)]]]].
  - other_column Hn.
  - other_column Hn.
  - other_column Hn.
  - other_column Hn.
  - exact E.
Qed.

(** ** Lists *)

Lemma forallb_map_compose {A B : Type} (p : B -> bool) (f : A -> B) l :
  forallb p (map f l) = forallb (fun a => p (f a)) l.
Proof. induction l as [|a l IH]; simpl; [reflexivity | now rewrite IH]. Qed.

Lemma forallb_ext_in {A : Type} (p q : A -> bool) l :
  (forall a, In a l -> p a = q a) -> forallb p l = forallb q l.
Proof.
  induction l as [|a l IH]; simpl; intros H; [reflexivity|].
  rewrite (H a (or_introl eq_refl)), IH; [reflexivity|].
  intros b Hb. apply H. now right.
Qed.

Lemma map_not_nil {A B : Type} (f : A -> B) l : l <> [] -> map f l <> [].
Proof. destruct l; [contradiction | discriminate]. Qed.

Lemma forallb_in {A : Type} (p : A -> bool) l a :
  forallb p l = true -> In a l -> p a = true.
Proof. intros H Hin. rewrite forallb_forall in H. now apply H. Qed.

Lemma traverse_cases {A B : Type} (f : A -> result B) (ok : A -> bool)
    (g : A -> B) (e : exn) l :
  (forall a, f a = if ok a then Ok (g a) else Raise e) ->
  traverse f l = if forallb ok l then Ok (map g l) else Raise e.
Proof.
  intros Hf. induction l as [|a l IH]; simpl; [reflexivity|].
  rewrite Hf. destruct (ok a); simpl; [|reflexivity].
  rewrite IH. now destruct (forallb ok l).
Qed.

(** ** The float a cell is read as *)

Lemma read_float_numeric c : is_numeric c = true -> read_float w c = to_float c.
Proof. now destruct c. Qed.

Lemma to_numeric_floats s :
  map to_float (to_numeric w s) = map (read_float w) s.
Proof.
  unfold to_numeric.
  destruct (dtype_of s) eqn:E.
  1-3: apply List.map_ext_in; intros c Hc; symmetry; apply read_float_numeric;
       apply (forallb_in is_numeric s); [apply numeric_dtype; congruence | exact Hc].
  destruct (forallb is_int (map (to_numeric_cell w) s)).
  - now rewrite List.map_map.
  - now rewrite !List.map_map.
Qed.

Lemma dtype_floats t :
  forallb is_float t = true -> t <> [] -> dtype_of t = float64.
Proof.
  intros H Hne. unfold dtype_of. rewrite H.
  destruct t as [|c t]; [contradiction|].
  destruct c; try discriminate. reflexivity.
Qed.

Lemma floats_numeric t : forallb is_float t = true -> forallb is_numeric t = true.
Proof. apply forallb_weaken. now intros []. Qed.

(** ** The monetary column *)

Lemma fill_float_cells t :
  dtype_of t <> object ->
  astype_float (fillna (Float F64.zero) t)
  = Ok (map (fun c => Float (nan_to_zero (to_float c))) t).
Proof.
  intros Hobj.
  destruct (dtype_cases t) as [[E H]|[(E & H & _)|[(E & H & _)|[E _]]]];
    [| | |contradiction].
  - unfold fillna, astype_float. rewrite E, E. f_equal.
    apply List.map_ext_in. intros c Hc.
    pose proof (forallb_in _ _ _ H Hc) as Hi. destruct c; try discriminate.
    simpl. unfold nan_to_zero. now rewrite of_Z_not_nan.
  - unfold fillna. rewrite E.
    set (t' := map _ t).
    assert (Hf : forallb is_float t' = true).
    { unfold t'. rewrite forallb_map_compose.
      rewrite <- H. apply forallb_ext_in. intros c Hc.
      pose proof (forallb_in _ _ _ H Hc) as Hi. destruct c; try discriminate.
      simpl. now destruct (F64.is_nan f). }
    unfold astype_float.
    destruct (dtype_all_float _ Hf) as [E'|E']; rewrite E'; f_equal;
      unfold t'; rewrite List.map_map; apply List.map_ext_in; intros c Hc;
      pose proof (forallb_in _ _ _ H Hc) as Hi; (destruct c; try discriminate);
      simpl; unfold nan_to_zero; now destruct (F64.is_nan f).
  - unfold fillna. rewrite E.
    set (t' := map _ t).
    assert (Hf : forallb is_int t' = true).
    { unfold t'. rewrite forallb_map_compose.
      rewrite <- H. apply forallb_ext_in. intros c Hc.
      pose proof (forallb_in _ _ _ H Hc) as Hi. now destruct c. }
    unfold astype_float. rewrite (dtype_all_int _ Hf). f_equal.
    unfold t'. rewrite List.map_map. apply List.map_ext_in. intros c Hc.
    pose proof (forallb_in _ _ _ H Hc) as Hi. destruct c; try discriminate.
    + reflexivity.
    + simpl. unfold nan_to_zero. now rewrite of_Z_not_nan.
Qed.

Lemma credit_step_cells s :
  astype_float (fillna (Float F64.zero) (to_numeric w s))
  = Ok (map (credit_cell w) s).
Proof.
  rewrite (fill_float_cells _ (to_numeric_dtype w s)). f_equal.
  change (map (fun c => Float (nan_to_zero (to_float c))) (to_numeric w s))
    with (map (fun c => (fun f => Float (nan_to_zero f)) (to_float c))
              (to_numeric w s)).
  rewrite <- (List.map_map to_float (fun f => Float (nan_to_zero f))).
  rewrite to_numeric_floats. now rewrite List.map_map.
Qed.

(** ** The count columns *)

Lemma round_astype_ints t :
  forallb is_int t = true -> (r ← series_round t; astype_int w r) = Ok t.
Proof.
  intros H. unfold series_round, astype_int, mbind, result_bind.
  now rewrite !(dtype_all_int _ H).
Qed.

Lemma floats_not_exact s :
  dtype_of s = float64 -> reads_exactly w s = false.
Proof.
  intros E.
  destruct (dtype_cases s) as [[E' _]|[(_ & Hf & Hi)|[(E' & _)|[E' _]]]];
    try congruence.
  unfold reads_exactly.
  assert (Hm : map (to_numeric_cell w) s = s).
  { rewrite <- (List.map_id s) at 2. apply List.map_ext_in. intros c Hc.
    pose proof (forallb_in _ _ _ Hf Hc). now destruct c. }
  rewrite Hm, Hi, Bool.orb_false_r.
  destruct (forallb is_int_or_na s) eqn:Hn; [|reflexivity].
  destruct (dtype_all_int_or_na _ Hn); congruence.
Qed.

Lemma integer_step_exact s :
  reads_exactly w s = true ->
  (r ← series_round (fillna (Int 0) (to_numeric w s)); astype_int w r)
  = Ok (map (count_cell_exact w) s).
Proof.
  intros Hx.
  destruct (dtype_cases s) as [[E H]|[(E & _)|[(E & H & _)|[E _]]]].
  - rewrite (to_numeric_fixed w s) by congruence.
    rewrite (integer_step_fixed w s H). f_equal.
    rewrite <- (List.map_id s) at 1. apply List.map_ext_in. intros c Hc.
    pose proof (forallb_in _ _ _ H Hc). now destruct c.
  - now rewrite (floats_not_exact _ E) in Hx.
  - rewrite (to_numeric_fixed w s) by congruence.
    assert (Hfill : fillna (Int 0) s = map (count_cell_exact w) s).
    { unfold fillna. rewrite E. apply List.map_ext_in. intros c Hc.
      pose proof (forallb_in _ _ _ H Hc). now destruct c. }
    rewrite Hfill. apply round_astype_ints.
    rewrite forallb_map_compose. rewrite <- H. apply forallb_ext_in.
    intros c Hc. pose proof (forallb_in _ _ _ H Hc). now destruct c.
  - unfold reads_exactly in Hx.
    assert (Hn : forallb is_int_or_na s = false).
    { destruct (forallb is_int_or_na s) eqn:Hn; [|reflexivity].
      destruct (dtype_all_int_or_na _ Hn); congruence. }
    rewrite Hn in Hx. simpl in Hx.
    unfold to_numeric. rewrite E, Hx.
    assert (Hfill : fillna (Int 0) (map (to_numeric_cell w) s)
                    = map (to_numeric_cell w) s).
    { unfold fillna. now rewrite (dtype_all_int _ Hx). }
    rewrite Hfill, (round_astype_ints _ Hx). f_equal.
    apply List.map_ext_in. intros c Hc.
    rewrite forallb_map_compose in Hx.
    pose proof (forallb_in _ _ _ Hx Hc) as Hi. simpl in Hi.
    unfold count_cell_exact. now destruct (to_numeric_cell w c).
Qed.

Lemma float_counts t :
  forallb is_float t = true -> t <> [] ->
  (r ← series_round (fillna (Int 0) t); astype_int w r)
  = if forallb (fun c => F64.is_finite (F64.rint (nan_to_zero (to_float c)))) t
    then Ok (map (fun c => Int (float_to_int w
                                  (F64.rint (nan_to_zero (to_float c))))) t)
    else Raise IntCastingNaNError.
Proof.
  intros Hf Hne.
  assert (Hfill : fillna (Int 0) t
                  = map (fun c => Float (nan_to_zero (to_float c))) t).
  { unfold fillna. rewrite (dtype_floats _ Hf Hne).
    apply List.map_ext_in. intros c Hc.
    pose proof (forallb_in _ _ _ Hf Hc). destruct c; try discriminate.
    simpl. unfold nan_to_zero. now destruct (F64.is_nan f). }
  rewrite Hfill.
  unfold series_round, mbind, result_bind.
  rewrite dtype_floats;
    [| now apply forallb_map_true | now apply map_not_nil].
  unfold astype_int.
  rewrite dtype_floats;
    [| now apply forallb_map_true | now apply map_not_nil, map_not_nil].
  rewrite !List.map_map, !forallb_map_compose. reflexivity.
Qed.

Lemma integer_step_rounded s :
  reads_exactly w s = false ->
  (r ← series_round (fillna (Int 0) (to_numeric w s)); astype_int w r)
  = if forallb (fun c => F64.is_finite
                           (F64.rint (nan_to_zero (read_float w c)))) s
    then Ok (map (count_cell_rounded w) s)
    else Raise IntCastingNaNError.
Proof.
  intros Hx. unfold reads_exactly in Hx.
  apply Bool.orb_false_iff in Hx as [Hn Hc].
  assert (Hne : s <> []) by (intros ->; discriminate).
  assert (Hfl : forallb is_float (to_numeric w s) = true
                /\ to_numeric w s <> []).
  { destruct (dtype_cases s) as [[E H]|[(E & H & _)|[(E & H & _)|[E _]]]].
    - rewrite (forallb_weaken is_int is_int_or_na s) in Hn;
        [discriminate | now intros [] | exact H].
    - rewrite (to_numeric_fixed w s) by congruence. now split.
    - congruence.
    - unfold to_numeric. rewrite E, Hc. split.
      + now apply forallb_map_true.
      + destruct s; [contradiction | discriminate]. }
  destruct Hfl as [Hfl Hnn].
  rewrite (float_counts _ Hfl Hnn).
  assert (Hall : forall (A : Type) (k : spec_float -> A),
             map (fun c => k (to_float c)) (to_numeric w s)
             = map (fun c => k (read_float w c)) s).
  { intros A k.
    rewrite <- (List.map_map to_float k), to_numeric_floats.
    now rewrite List.map_map. }
  rewrite <- (forallb_map_compose
                (fun f => F64.is_finite (F64.rint (nan_to_zero f))) to_float).
  rewrite to_numeric_floats, forallb_map_compose.
  rewrite (Hall scalar
             (fun f => Int (float_to_int w (F64.rint (nan_to_zero f))))).
  reflexivity.
Qed.

(** ** The identifier column *)

Lemma ibge_step_exact s :
  reads_exactly w s = true ->
  astype_Int64 (to_numeric w s) = Ok (map (id_cell_exact w) s).
Proof.
  intros Hx.
  destruct (forallb is_int_or_na s) eqn:Hn.
  - rewrite (ibge_step_fixed w s Hn). f_equal.
    rewrite <- (List.map_id s) at 1. apply List.map_ext_in. intros c Hc.
    pose proof (forallb_in _ _ _ Hn Hc). now destruct c.
  - unfold reads_exactly in Hx. rewrite Hn in Hx. simpl in Hx.
    destruct (dtype_cases s) as [[E H]|[(E & H)|[(E & H & _)|[E _]]]].
    + rewrite (forallb_weaken is_int is_int_or_na s) in Hn;
        [discriminate | now intros [] | exact H].
    + pose proof (floats_not_exact _ E) as Hno. unfold reads_exactly in Hno.
      rewrite Hx, Bool.orb_true_r in Hno. discriminate.
    + congruence.
    + unfold to_numeric. rewrite E, Hx.
      unfold astype_Int64. rewrite (dtype_all_int _ Hx). f_equal.
      apply List.map_ext_in. intros c Hc.
      rewrite forallb_map_compose in Hx.
      pose proof (forallb_in _ _ _ Hx Hc) as Hi. simpl in Hi.
      now destruct c.
Qed.

Lemma ibge_step_float s :
  reads_exactly w s = false ->
  astype_Int64 (to_numeric w s)
  = if forallb (fun c => F64.is_nan (read_float w c)
                         || (F64.is_integral (read_float w c)
                             && F64.in_int64 (F64.trunc (read_float w c)))) s
    then Ok (map (id_cell_float w) s)
    else Raise TypeError.
Proof.
  intros Hx. unfold reads_exactly in Hx.
  apply Bool.orb_false_iff in Hx as [Hn Hc].
  assert (Hne : s <> []) by (intros ->; discriminate).
  assert (Hfl : forallb is_float (to_numeric w s) = true
                /\ to_numeric w s <> []).
  { destruct (dtype_cases s) as [[E H]|[(E & H & _)|[(E & H & _)|[E _]]]].
    - rewrite (forallb_weaken is_int is_int_or_na s) in Hn;
        [discriminate | now intros [] | exact H].
    - rewrite (to_numeric_fixed w s) by congruence. now split.
    - congruence.
    - unfold to_numeric. rewrite E, Hc. split.
      + now apply forallb_map_true.
      + destruct s; [contradiction | discriminate]. }
  destruct Hfl as [Hfl Hnn].
  unfold astype_Int64. rewrite (dtype_floats _ Hfl Hnn).
  rewrite (traverse_cases float_to_nullable
             (fun c => F64.is_nan (to_float c)
                       || (F64.is_integral (to_float c)
                           && F64.in_int64 (F64.trunc (to_float c))))
             (fun c => if F64.is_nan (to_float c) then NA
                       else Int (F64.trunc (to_float c)))
             TypeError).
  - rewrite <- (forallb_map_compose
                  (fun f => F64.is_nan f
                            || (F64.is_integral f && F64.in_int64 (F64.trunc f)))
                  to_float).
    rewrite <- (List.map_map to_float
                  (fun f => if F64.is_nan f then NA else Int (F64.trunc f))).
    rewrite to_numeric_floats, forallb_map_compose, List.map_map.
    reflexivity.
  - intros c. unfold float_to_nullable.
    destruct (F64.is_nan (to_float c)); [reflexivity|]. simpl.
    now destruct (_ && _).
Qed.

(** ** When the assignments raise *)

Lemma run_steps_raise_refused d d' e :
  run_steps (cleaning_steps w) d = (Raise e, d') ->
  (exists c s, In c INTEGER_COLUMNS /\ lookup_col c d = Some s
               /\ count_refused w s = true)
  \/ (exists s, lookup_col IBGE_COL d = Some s
                /\ identifier_refused w s = true).
Proof.
  intros R.
  destruct (run_steps_raise _ _ _ _ R) as (c & s & Hs & Hc).
  destruct (column_steps_cases w c s)
    as [[Hin Ec]|[[_ Ec]|[[_ Ec]|[[-> Ec]|(_ & _ & _ & Ec)]]]];
    rewrite Ec in Hc.
  - left. exists c, s. repeat split; [exact Hin | exact Hs |].
    unfold count_refused.
    destruct (reads_exactly w s) eqn:Hx.
    + rewrite (integer_step_exact s Hx) in Hc. discriminate.
    + rewrite (integer_step_rounded s Hx) in Hc.
      now destruct (forallb _ s).
  - rewrite credit_step_cells in Hc. discriminate.
  - discriminate.
  - right. exists s. split; [exact Hs|].
    unfold identifier_refused.
    destruct (reads_exactly w s) eqn:Hx.
    + rewrite (ibge_step_exact s Hx) in Hc. discriminate.
    + rewrite (ibge_step_float s Hx) in Hc.
      now destruct (forallb _ s).
  - discriminate.
Qed.

Lemma run_steps_accepted d :
  (forall c s, In c INTEGER_COLUMNS -> lookup_col c d = Some s ->
               count_refused w s = false) ->
  (forall s, lookup_col IBGE_COL d = Some s -> identifier_refused w s = false) ->
  exists d', run_steps (cleaning_steps w) d = (Ok tt, d').
Proof.
  intros Hcount Hid.
  destruct (run_steps (cleaning_steps w) d) as [[[]|e] d'] eqn:R; [eauto|].
  exfalso.
  destruct (run_steps_raise_refused _ _ _ R)
    as [(c & s & Hin & Hs & Hbad)|(s & Hs & Hbad)].
  - rewrite (Hcount c s Hin Hs) in Hbad. discriminate.
  - rewrite (Hid s Hs) in Hbad. discriminate.
Qed.

End CleaningCells.

(* ===================================================================== *)
(** * preprocess_data: the cells of the columns it converts *)
(* ===================================================================== *)

(** X1.  In the table [preprocess_data] returns, every cell of the
    monetary column is the float its source cell reads as, and 0.0 where
    the source cell is missing or does not read as a number; the cells
    stay in their rows. *)
Theorem preprocess_data_credit_cells (w : World) (h : heap) (r : ref)
    (d : DataFrame) (s : Series) (r' : ref) (h' : heap) :
  h !! r = Some d ->
  lookup_col CREDIT_COL d = Some s ->
  preprocess_data w r h = (Ok r', h') ->
  exists d', h' !! r' = Some d'
             /\ lookup_col CREDIT_COL d' = Some (map (credit_cell w) s).
Proof.
  intros Hr Hs Hrun.
  destruct (preprocess_data_outcome w h r d Hr)
    as [(d' & E & R)|(e & d' & E & _)]; rewrite E in Hrun; [|discriminate].
  injection Hrun as <- <-. exists d'. split; [apply heap_lookup_last|].
  pose proof (run_steps_lookup _ _ _ R CREDIT_COL) as Hl. rewrite Hs in Hl.
  destruct Hl as (s' & Hc & Hl).
  rewrite column_steps_credit, credit_step_cells in Hc.
  injection Hc as <-. exact Hl.
Qed.

Lemma preprocess_data_credit_cells_sample :
  exists d', [sample_raw; sample_clean] !! 1%nat = Some d'
             /\ lookup_col CREDIT_COL d'
                = Some (map (credit_cell sample_world)
                          [Float (F64.of_Z 1500); Float S754_nan;
                           Float (F64.of_Z 700)]).
Proof.
  apply (preprocess_data_credit_cells sample_world [sample_raw] 0%nat
           sample_raw _ 1%nat [sample_raw; sample_clean]);
    [reflexivity | reflexivity | vm_compute; reflexivity].
Defined.

(** X2.  In the table [preprocess_data] returns, a count column whose
    cells are integers or [pd.NA], or all read as integers, holds those
    integers unchanged and 0 for [pd.NA]; any other count column holds,
    cell by cell, the float read (0.0 for a missing or unreadable cell)
    rounded half to even and converted to an integer. *)
Theorem preprocess_data_count_cells (w : World) (h : heap) (r : ref)
    (d : DataFrame) (c : string) (s : Series) (r' : ref) (h' : heap) :
  h !! r = Some d ->
  In c INTEGER_COLUMNS ->
  lookup_col c d = Some s ->
  preprocess_data w r h = (Ok r', h') ->
  exists d', h' !! r' = Some d'
             /\ lookup_col c d'
                = Some (if reads_exactly w s
                        then map (count_cell_exact w) s
                        else map (count_cell_rounded w) s).
Proof.
  intros Hr Hin Hs Hrun.
  destruct (preprocess_data_outcome w h r d Hr)
    as [(d' & E & R)|(e & d' & E & _)]; rewrite E in Hrun; [|discriminate].
  injection Hrun as <- <-. exists d'. split; [apply heap_lookup_last|].
  pose proof (run_steps_lookup _ _ _ R c) as Hl. rewrite Hs in Hl.
  destruct Hl as (s' & Hc & Hl).
  rewrite (column_steps_integer w c s Hin) in Hc.
  destruct (reads_exactly w s) eqn:Hx.
  - rewrite (integer_step_exact w s Hx) in Hc. injection Hc as <-. exact Hl.
  - rewrite (integer_step_rounded w s Hx) in Hc.
    destruct (forallb _ s); [injection Hc as <-; exact Hl | discriminate].
Qed.

Lemma preprocess_data_count_cells_sample :
  exists d', [sample_raw; sample_clean] !! 1%nat = Some d'
             /\ lookup_col MEN_COL d'
                = Some (if reads_exactly sample_world [Int 70; Str "50"; Int 55]
                        then map (count_cell_exact sample_world)
                               [Int 70; Str "50"; Int 55]
                        else map (count_cell_rounded sample_world)
                               [Int 70; Str "50"; Int 55]).
Proof.
  apply (preprocess_data_count_cells sample_world [sample_raw] 0%nat
           sample_raw MEN_COL _ 1%nat [sample_raw; sample_clean]);
    [reflexivity | simpl; tauto | reflexivity | vm_compute; reflexivity].
Defined.

(** X3.  In the table [preprocess_data] returns, an identifier column
    whose cells are integers or [pd.NA], or all read as integers, holds
    those integers with [pd.NA] kept; in any other identifier column a
    cell that is missing or does not read as a number is [pd.NA] and
    every other cell is the integer its float stands for.  No row is
    dropped: the cells stay in their rows. *)
Theorem preprocess_data_identifier_cells (w : World) (h : heap) (r : ref)
    (d : DataFrame) (s : Series) (r' : ref) (h' : heap) :
  h !! r = Some d ->
  lookup_col IBGE_COL d = Some s ->
  preprocess_data w r h = (Ok r', h') ->
  exists d', h' !! r' = Some d'
             /\ lookup_col IBGE_COL d'
                = Some (if reads_exactly w s
                        then map (id_cell_exact w) s
                        else map (id_cell_float w) s).
Proof.
  intros Hr Hs Hrun.
  destruct (preprocess_data_outcome w h r d Hr)
    as [(d' & E & R)|(e & d' & E & _)]; rewrite E in Hrun; [|discriminate].
  injection Hrun as <- <-. exists d'. split; [apply heap_lookup_last|].
  pose proof (run_steps_lookup _ _ _ R IBGE_COL) as Hl. rewrite Hs in Hl.
  destruct Hl as (s' & Hc & Hl).
  rewrite column_steps_ibge in Hc.
  destruct (reads_exactly w s) eqn:Hx.
  - rewrite (ibge_step_exact w s Hx) in Hc. injection Hc as <-. exact Hl.
  - rewrite (ibge_step_float w s Hx) in Hc.
    destruct (forallb _ s); [injection Hc as <-; exact Hl | discriminate].
Qed.

Lemma preprocess_data_identifier_cells_sample :
  exists d', [sample_raw; sample_clean] !! 1%nat = Some d'
             /\ lookup_col IBGE_COL d'
                = Some (if reads_exactly sample_world
                             [Int 3171303; Int 3169901; Int 3143906]
                        then map (id_cell_exact sample_world)
                               [Int 3171303; Int 3169901; Int 3143906]
                        else map (id_cell_float sample_world)
                               [Int 3171303; Int 3169901; Int 3143906]).
Proof.
  apply (preprocess_data_identifier_cells sample_world [sample_raw] 0%nat
           sample_raw _ 1%nat [sample_raw; sample_clean]);
    [reflexivity | reflexivity | vm_compute; reflexivity].
Defined.

(** X4.  [preprocess_data] raises exactly when a count column read
    through floats holds a value that is not finite after rounding, or
    the identifier column read through floats holds a value that is not
    NaN and is not an integer of the int64 range.  Missing columns,
    blank cells and unreadable text never make it raise. *)
Theorem preprocess_data_raises (w : World) (h : heap) (r : ref)
    (d : DataFrame) :
  h !! r = Some d ->
  ((exists e h', preprocess_data w r h = (Raise e, h'))
   <-> ((exists c s, In c INTEGER_COLUMNS /\ lookup_col c d = Some s
                     /\ count_refused w s = true)
        \/ (exists s, lookup_col IBGE_COL d = Some s
                      /\ identifier_refused w s = true))).
Proof.
  intros Hr.
  destruct (preprocess_data_outcome w h r d Hr)
    as [(d' & E & R)|(e & d' & E & R)]; rewrite E; split.
  - intros (e & h' & [=]).
  - intros [(c & s & Hin & Hs & Hbad)|(s & Hs & Hbad)]; exfalso.
    + pose proof (run_steps_lookup _ _ _ R c) as Hl. rewrite Hs in Hl.
      destruct Hl as (s' & Hc & _).
      rewrite (column_steps_integer w c s Hin) in Hc.
      unfold count_refused in Hbad.
      apply andb_prop in Hbad as [Hx Hfin].
      apply Bool.negb_true_iff in Hx, Hfin.
      rewrite (integer_step_rounded w s Hx), Hfin in Hc. discriminate.
    + pose proof (run_steps_lookup _ _ _ R IBGE_COL) as Hl. rewrite Hs in Hl.
      destruct Hl as (s' & Hc & _).
      rewrite column_steps_ibge in Hc.
      unfold identifier_refused in Hbad.
      apply andb_prop in Hbad as [Hx Hfit].
      apply Bool.negb_true_iff in Hx, Hfit.
      rewrite (ibge_step_float w s Hx), Hfit in Hc. discriminate.
  - intros _. exact (run_steps_raise_refused w _ _ _ R).
  - intros _. eauto.
Qed.

Lemma preprocess_data_raises_sample :
  (exists e h',
      preprocess_data sample_world 0%nat
        [[(AF_COL, [Float (S754_infinity false)])]] = (Raise e, h'))
  <-> ((exists c s, In c INTEGER_COLUMNS
                    /\ lookup_col c [(AF_COL, [Float (S754_infinity false)])]
                       = Some s
                    /\ count_refused sample_world s = true)
       \/ (exists s, lookup_col IBGE_COL [(AF_COL, [Float (S754_infinity false)])]
                     = Some s
                     /\ identifier_refused sample_world s = true)).
Proof.
  apply (preprocess_data_raises sample_world
           [[(AF_COL, [Float (S754_infinity false)])]] 0%nat
           [(AF_COL, [Float (S754_infinity false)])]).
  reflexivity.
Defined.

(** X5.  On a table with none of the columns it converts,
    [preprocess_data] returns a copy equal to its argument: every
    assignment is skipped, and nothing is raised for the absent
    columns. *)
Theorem preprocess_data_no_columns (w : World) (h : heap) (r : ref)
    (d : DataFrame) :
  h !! r = Some d ->
  (forall c, In c NUMERIC_COLUMNS -> lookup_col c d = None) ->
  lookup_col IBGE_COL d = None ->
  preprocess_data w r h = (Ok (length h), (h ++ [d])%list).
Proof.
  intros Hr Hnum Hid.
  rewrite (preprocess_data_run w h r d Hr).
  assert (Hfix : run_steps (cleaning_steps w) d = (Ok tt, d)).
  { apply run_steps_fixed.
    unfold cleaning_steps, INTEGER_COLUMNS. cbn [map app].
    repeat constructor; cbn [fst snd]; intros s Hs;
      first [ rewrite Hid in Hs; discriminate Hs
            | rewrite Hnum in Hs; [discriminate Hs | simpl; tauto] ]. }
  now rewrite Hfix.
Qed.

Lemma preprocess_data_no_columns_sample :
  preprocess_data sample_world 0%nat [[(MUNICIPALITY_COL, [Str "Ubá"])]]
  = (Ok 1%nat, [[(MUNICIPALITY_COL, [Str "Ubá"])]; [(MUNICIPALITY_COL, [Str "Ubá"])]]).
Proof.
  apply (preprocess_data_no_columns sample_world
           [[(MUNICIPALITY_COL, [Str "Ubá"])]] 0%nat
           [(MUNICIPALITY_COL, [Str "Ubá"])]).
  - reflexivity.
  - intros c Hc. simpl in Hc.
    repeat (destruct Hc as [<-|Hc]; [reflexivity|]). contradiction.
  - reflexivity.
Defined.

(* ===================================================================== *)
(** * Lemmas: rows of a table *)
(* ===================================================================== *)

Section Rows.

Lemma map_nth_seq {A : Type} (l : list A) (d : A) :
  map (fun i => nth i l d) (seq 0 (length l)) = l.
Proof.
  induction l as [|a l IH]; [reflexivity|].
  cbn [length seq map nth]. f_equal.
  rewrite <- seq_shift, List.map_map. exact IH.
Qed.

Lemma select_positions {A : Type} (d : A) :
  forall (msk : list bool) (l pre : list A),
    length msk = length l ->
    select msk l
    = map (fun i => nth i (pre ++ l) d) (true_positions (length pre) msk).
Proof.
  induction msk as [|b msk IH]; intros [|a l] pre Hlen; try discriminate;
    [reflexivity|].
  injection Hlen as Hlen. cbn [select true_positions].
  assert (E : (pre ++ a :: l = (pre ++ [a]) ++ l)%list) by now rewrite <- app_assoc.
  assert (L : S (length pre) = length (pre ++ [a])%list)
    by (rewrite length_app; simpl; lia).
  specialize (IH l (pre ++ [a])%list Hlen). rewrite <- L, <- E in IH.
  destruct b; cbn [map]; rewrite <- IH; [|reflexivity].
  f_equal. rewrite app_nth2 by lia. now rewrite Nat.sub_diag.
Qed.

Lemma select_as_take {A : Type} (d : A) (msk : list bool) (l : list A) :
  length msk = length l ->
  select msk l = map (fun i => nth i l d) (true_positions 0 msk).
Proof. intros H. exact (select_positions d msk l [] H). Qed.

Lemma select_map_filter {A : Type} (p : A -> bool) (l : list A) :
  select (map p l) l = List.filter p l.
Proof.
  induction l as [|a l IH]; [reflexivity|]. simpl.
  rewrite IH. reflexivity.
Qed.

Lemma select_rows_take (msk : list bool) (df : DataFrame) :
  rectangular df -> length msk = nrows df ->
  select_rows msk df = take_rows (true_positions 0 msk) df.
Proof.
  unfold rectangular, select_rows, take_rows. intros Hrect Hlen.
  apply List.map_ext_in. intros [name s] Hin. f_equal.
  apply select_as_take.
  rewrite List.Forall_forall in Hrect. specialize (Hrect _ Hin). simpl in Hrect.
  lia.
Qed.

Lemma cell_row c df i s :
  lookup_col c df = Some s -> cell c (row df i) = nth i s NA.
Proof.
  induction df as [|[name t] rest IH]; simpl; [discriminate|].
  destruct (String.eqb name c); [now intros [= ->] | exact IH].
Qed.

(** The cells of a column are the cells of the rows under its name. *)
Lemma column_of_rows c df s :
  rectangular df -> lookup_col c df = Some s ->
  map (cell c) (rows df) = s.
Proof.
  intros Hrect Hs. unfold rows. rewrite List.map_map.
  rewrite (List.map_ext _ (fun i => nth i s NA)) by (intros i; now apply cell_row).
  assert (length s = nrows df) as <-; [|apply map_nth_seq].
  unfold rectangular in Hrect. rewrite List.Forall_forall in Hrect.
  clear -Hrect Hs. revert Hrect Hs. generalize (nrows df) as n. intros n Hrect.
  induction df as [|[name t] rest IH]; simpl; [discriminate|].
  destruct (String.eqb name c).
  - intros [= <-]. exact (Hrect (name, t) (or_introl eq_refl)).
  - apply IH. intros x Hx. apply Hrect. now right.
Qed.

Lemma nrows_take_rows idx df :
  df <> [] -> nrows (take_rows idx df) = length idx.
Proof.
  destruct df as [|[name s] rest]; [congruence|]. intros _. simpl.
  now rewrite length_map.
Qed.

Lemma row_take_rows idx df j :
  (j < length idx)%nat -> row (take_rows idx df) j = row df (nth j idx 0%nat).
Proof.
  intros Hj. unfold row, take_rows. rewrite List.map_map.
  apply List.map_ext. intros [name s]. f_equal.
  rewrite (nth_indep _ NA (nth 0 s NA)) by now rewrite length_map.
  rewrite (List.map_nth (fun i => nth i s NA)). reflexivity.
Qed.

(** The rows of a table taken by position are the rows at those
    positions. *)
Lemma rows_take_rows idx df :
  df <> [] -> rows (take_rows idx df) = map (row df) idx.
Proof.
  intros Hne. unfold rows at 1. rewrite (nrows_take_rows _ _ Hne).
  transitivity (map (row df)
                  (map (fun i => nth i idx 0%nat) (seq 0 (length idx))));
    [|now rewrite map_nth_seq].
  rewrite List.map_map. apply List.map_ext_in. intros j Hj. apply in_seq in Hj.
  apply row_take_rows. lia.
Qed.

Lemma length_rows df : length (rows df) = nrows df.
Proof. unfold rows. now rewrite length_map, length_seq. Qed.

Lemma nth_rows df i :
  (i < nrows df)%nat -> nth i (rows df) [] = row df i.
Proof.
  intros Hi. unfold rows.
  rewrite (nth_indep _ [] (row df 0)) by now rewrite length_map, length_seq.
  rewrite (List.map_nth (row df)), seq_nth by exact Hi. reflexivity.
Qed.

Lemma true_positions_bound msk from i :
  In i (true_positions from msk) -> (from <= i < from + length msk)%nat.
Proof.
  revert from. induction msk as [|b msk IH]; intros from; simpl; [tauto|].
  destruct b; simpl.
  - intros [<-|H]; [lia|]. apply IH in H. lia.
  - intros H. apply IH in H. lia.
Qed.

(** The rows a mask selects are the rows of the table where it holds. *)
Lemma rows_select_rows msk df :
  rectangular df -> df <> [] -> length msk = nrows df ->
  rows (select_rows msk df) = select msk (rows df).
Proof.
  intros Hrect Hne Hlen.
  rewrite (select_rows_take _ _ Hrect Hlen), (rows_take_rows _ _ Hne).
  rewrite (select_as_take [] msk (rows df)) by now rewrite length_rows.
  apply List.map_ext_in. intros i Hi. apply true_positions_bound in Hi.
  symmetry. apply nth_rows. lia.
Qed.

(** Selecting rows by a test on one column is filtering the rows by that
    test on their cell. *)
Lemma rows_select_by_column (test : scalar -> bool) c df s :
  rectangular df -> lookup_col c df = Some s ->
  rows (select_rows (map test s) df)
  = List.filter (fun r => test (cell c r)) (rows df).
Proof.
  intros Hrect Hs.
  assert (Hne : df <> []) by (intros ->; discriminate).
  pose proof (column_of_rows _ _ _ Hrect Hs) as Hcol.
  rewrite rows_select_rows; [|assumption..|].
  - rewrite <- Hcol at 1. rewrite List.map_map. apply select_map_filter.
  - rewrite length_map, <- Hcol, length_map. apply length_rows.
Qed.

Lemma lookup_select_rows c msk df :
  lookup_col c (select_rows msk df) = option_map (select msk) (lookup_col c df).
Proof.
  induction df as [|[name s] rest IH]; [reflexivity|]. simpl.
  destruct (String.eqb name c); [reflexivity | exact IH].
Qed.

Lemma lookup_take_rows c idx df :
  lookup_col c (take_rows idx df)
  = option_map (fun s => map (fun i => nth i s NA) idx) (lookup_col c df).
Proof.
  induction df as [|[name s] rest IH]; [reflexivity|]. simpl.
  destruct (String.eqb name c); [reflexivity | exact IH].
Qed.

Lemma select_length_le {A : Type} (msk : list bool) (l : list A) :
  (length (select msk l) <= length l)%nat.
Proof.
  revert l. induction msk as [|b msk IH]; intros [|a l]; simpl; try lia.
  specialize (IH l). destruct b; simpl; lia.
Qed.

Lemma select_forallb {A : Type} (p : A -> bool) (msk : list bool) (l : list A) :
  forallb p l = true -> forallb p (select msk l) = true.
Proof.
  revert l. induction msk as [|b msk IH]; intros [|a l]; simpl; try reflexivity.
  intros [Ha Hl]%andb_prop. destruct b; simpl; rewrite ?Ha; simpl; auto.
Qed.

Lemma select_rows_rectangular msk df :
  rectangular df -> length msk = nrows df -> rectangular (select_rows msk df).
Proof.
  intros Hrect Hlen.
  rewrite (select_rows_take _ _ Hrect Hlen).
  unfold rectangular, take_rows. destruct df as [|[name s] rest]; [constructor|].
  simpl. rewrite length_map. apply List.Forall_forall.
  intros [n t] [[= <- <-]|Hin]; [now rewrite length_map|].
  apply in_map_iff in Hin as ([n' t'] & [= <- <-] & _). now rewrite length_map.
Qed.

End Rows.

(* ===================================================================== *)
(** * Lemmas: insertion sort *)
(* ===================================================================== *)

Section SortFacts.
Context {A : Type} (leb : A -> A -> bool).

Lemma insert_sorted_perm x l : Permutation (insert_sorted leb x l) (x :: l).
Proof.
  induction l as [|y l IH]; simpl; [reflexivity|].
  destruct (leb y x); [|reflexivity].
  rewrite IH. apply perm_swap.
Qed.

Lemma fold_insert_perm l :
  forall acc,
    Permutation (fold_left (fun acc x => insert_sorted leb x acc) l acc)
                (acc ++ l)%list.
Proof.
  induction l as [|x l IH]; intros acc; simpl.
  - now rewrite app_nil_r.
  - rewrite IH, insert_sorted_perm. apply Permutation_middle.
Qed.

Lemma isort_perm l : Permutation (isort leb l) l.
Proof. unfold isort. now rewrite fold_insert_perm. Qed.

(** Elements on which the order is total and transitive. *)
Variable good : A -> Prop.
Hypothesis leb_total_on :
  forall a b, good a -> good b -> leb a b = false -> leb b a = true.
Hypothesis leb_trans_on :
  forall a b c, good a -> good b -> good c ->
    leb a b = true -> leb b c = true -> leb a c = true.

Lemma insert_sorted_sorted x l :
  good x -> Forall good l ->
  StronglySorted (fun a b => leb a b = true) l ->
  StronglySorted (fun a b => leb a b = true) (insert_sorted leb x l).
Proof.
  intros Hx Hl Hs. induction Hs as [|y l Hs IH Hy]; simpl.
  - repeat constructor.
  - apply Forall_cons_1 in Hl as [Hgy Hgl].
    destruct (leb y x) eqn:E.
    + constructor; [now apply IH|].
      eapply Permutation_Forall; [symmetry; apply insert_sorted_perm|].
      constructor; assumption.
    + constructor; [now constructor|].
      pose proof (leb_total_on y x Hgy Hx E) as Hxy.
      constructor; [exact Hxy|].
      rewrite List.Forall_forall in *. intros z Hz.
      apply (leb_trans_on x y z); auto.
Qed.

Lemma fold_insert_sorted l :
  forall acc, Forall good l -> Forall good acc ->
    StronglySorted (fun a b => leb a b = true) acc ->
    StronglySorted (fun a b => leb a b = true)
      (fold_left (fun acc x => insert_sorted leb x acc) l acc).
Proof.
  induction l as [|x l IH]; intros acc Hl Hacc Hs; simpl; [exact Hs|].
  apply Forall_cons_1 in Hl as [Hx Hl].
  apply IH; [exact Hl| |now apply insert_sorted_sorted].
  eapply Permutation_Forall; [symmetry; apply insert_sorted_perm|].
  now constructor.
Qed.

Lemma isort_sorted l :
  Forall good l -> StronglySorted (fun a b => leb a b = true) (isort leb l).
Proof.
  intros Hl. apply fold_insert_sorted; [exact Hl | constructor | constructor].
Qed.

End SortFacts.

(** In a sorted list, every element of a prefix is related to every
    element after the prefix. *)
Lemma sorted_prefix_dominates {A : Type} (R : A -> A -> Prop) (l : list A) :
  StronglySorted R l ->
  forall n a b, In a (firstn n l) -> In b (skipn n l) -> R a b.
Proof.
  induction 1 as [|x l Hs IH Hx]; intros n a b Ha Hb.
  - destruct n; simpl in Ha; contradiction.
  - destruct n as [|n]; simpl in Ha, Hb; [contradiction|].
    destruct Ha as [<-|Ha].
    + rewrite List.Forall_forall in Hx. apply Hx.
      clear -Hb. revert l Hb. induction n as [|n IHn]; intros [|y l]; simpl; auto.
    + exact (IH n a b Ha Hb).
Qed.

(* ===================================================================== *)
(** * Lemmas: filter_data *)
(* ===================================================================== *)

Section FilterFacts.
Variable w : World.

(** ** Label columns *)

Lemma filter_forallb {A : Type} (p q : A -> bool) (l : list A) :
  forallb p l = true -> forallb p (List.filter q l) = true.
Proof.
  induction l as [|a l IH]; simpl; [reflexivity|].
  intros [Ha Hl]%andb_prop. destruct (q a); simpl; rewrite ?Ha; auto.
Qed.

Lemma dropna_labels s :
  forallb is_label s = true -> forallb is_str (dropna s) = true.
Proof.
  unfold dropna. induction s as [|c s IH]; simpl; [reflexivity|].
  intros [Hc Hs]%andb_prop.
  destruct c as [|z|f|t]; simpl in *; try discriminate; auto.
  rewrite Hc. simpl. auto.
Qed.

Lemma unique_forallb (p : scalar -> bool) s :
  forallb p s = true -> forallb p (unique s) = true.
Proof.
  induction s as [|c s IH]; simpl; [reflexivity|].
  intros [Hc Hs]%andb_prop. rewrite Hc. simpl.
  apply filter_forallb, IH, Hs.
Qed.

Lemma same_strings a b :
  is_str a = true -> is_str b = true -> scalar_same a b = true -> a = b.
Proof.
  destruct a, b; try discriminate. intros _ _. unfold scalar_same. simpl.
  rewrite orb_false_r. now intros ->%String.eqb_eq.
Qed.

Lemma same_refl_string a : is_str a = true -> scalar_same a a = true.
Proof.
  destruct a; try discriminate. intros _. unfold scalar_same. simpl.
  now rewrite String.eqb_refl.
Qed.

Lemma unique_subset s x : In x (unique s) -> In x s.
Proof.
  revert x. induction s as [|c s IH]; simpl; [tauto|].
  intros x [->|Hx]; [now left|]. right. apply IH.
  now apply filter_In in Hx.
Qed.

Lemma unique_covers s x :
  forallb is_str s = true -> In x s -> In x (unique s).
Proof.
  induction s as [|c s IH]; simpl; [tauto|].
  intros [Hc Hs]%andb_prop [->|Hx]; [now left|].
  destruct (scalar_same c x) eqn:E.
  - left. apply same_strings; auto.
    rewrite forallb_forall in Hs. now apply Hs.
  - right. apply filter_In. split; [now apply IH | now rewrite E].
Qed.

Lemma unique_nodup s : forallb is_str s = true -> List.NoDup (unique s).
Proof.
  induction s as [|c s IH]; simpl; [constructor|].
  intros [Hc Hs]%andb_prop. constructor.
  - intros Hin%filter_In. destruct Hin as [_ Hin].
    now rewrite (same_refl_string _ Hc) in Hin.
  - apply List.NoDup_filter, IH, Hs.
Qed.

Lemma sorted_strings l :
  forallb is_str l = true -> sorted l = Ok (isort str_leb l).
Proof. unfold sorted. now intros ->. Qed.

Lemma options_of_labels s :
  forallb is_label s = true ->
  sorted (unique (dropna s)) = Ok (isort str_leb (unique (dropna s))).
Proof. intros H. apply sorted_strings, unique_forallb, dropna_labels, H. Qed.

(** ** The two steps *)

(** What [filter_data] returns: the two steps, on the choices made in the
    widgets. *)
Lemma filter_data_result df p :
  fst (filter_data w df p)
  = (immediate_regions ← region_options df;
     region_df ← region_step df
                   (selectbox w "Região Geográfica Imediata (2022)"
                      immediate_regions);
     options ← municipality_options region_df;
     municipality_step region_df
       (multiselect w "Município" options [Str "Todos"])).
Proof.
  unfold filter_data, mbind, ui_bind, ui_lift, draw, result_bind.
  cbn [fst snd].
  destruct (region_options df) as [opts|]; [|reflexivity]. cbn [fst snd].
  destruct (region_step df _) as [region_df|]; [|reflexivity]. cbn [fst snd].
  destruct (municipality_options region_df) as [mopts|]; reflexivity.
Qed.

Lemma region_step_all df : region_step df (Str "Todas") = Ok df.
Proof. reflexivity. Qed.

Lemma region_step_one df rcol sel :
  rectangular df ->
  lookup_col IMMEDIATE_REGION_COL df = Some rcol ->
  scalar_eqb sel (Str "Todas") = false ->
  region_step df sel = Ok (select_rows (series_eq rcol sel) df)
  /\ rows (select_rows (series_eq rcol sel) df)
     = List.filter (fun r => scalar_eqb (cell IMMEDIATE_REGION_COL r) sel)
                   (rows df).
Proof.
  intros Hrect Hcol Hsel. split.
  - unfold region_step, getitem. now rewrite Hsel, Hcol.
  - exact (rows_select_by_column (fun c => scalar_eqb c sel) _ _ _ Hrect Hcol).
Qed.

Lemma rectangular_column df c s :
  rectangular df -> lookup_col c df = Some s -> length s = nrows df.
Proof.
  unfold rectangular. rewrite List.Forall_forall. generalize (nrows df) as n.
  intros n Hrect. induction df as [|[name t] rest IH]; simpl; [discriminate|].
  destruct (String.eqb name c).
  - intros [= <-]. exact (Hrect (name, t) (or_introl eq_refl)).
  - apply IH. intros x Hx. apply Hrect. now right.
Qed.

(** The region step returns a table of the same kind: rectangular, with
    label columns where the input has them. *)
Lemma region_step_keeps df rcol sel c s :
  rectangular df ->
  lookup_col IMMEDIATE_REGION_COL df = Some rcol ->
  lookup_col c df = Some s ->
  exists region_df s',
    region_step df sel = Ok region_df
    /\ rectangular region_df
    /\ lookup_col c region_df = Some s'
    /\ (forall p : scalar -> bool, forallb p s = true -> forallb p s' = true).
Proof.
  intros Hrect Hcol Hs. unfold region_step, getitem.
  destruct (scalar_eqb sel (Str "Todas")).
  - exists df, s. auto.
  - rewrite Hcol. cbn.
    exists (select_rows (series_eq rcol sel) df), (select (series_eq rcol sel) s).
    split; [reflexivity|]. split; [|split].
    + apply select_rows_rectangular; [exact Hrect|].
      unfold series_eq. rewrite length_map.
      exact (rectangular_column _ _ _ Hrect Hcol).
    + now rewrite lookup_select_rows, Hs.
    + intros p. apply select_forallb.
Qed.

Lemma municipality_step_neutral region_df selected :
  neutral selected = true -> municipality_step region_df selected = Ok region_df.
Proof.
  unfold neutral, municipality_step. destruct selected as [|c l]; [reflexivity|].
  intros ->. reflexivity.
Qed.

Lemma municipality_step_some region_df mcol selected :
  rectangular region_df ->
  lookup_col MUNICIPALITY_COL region_df = Some mcol ->
  neutral selected = false ->
  municipality_step region_df selected
  = Ok (select_rows (isin mcol selected) region_df)
  /\ rows (select_rows (isin mcol selected) region_df)
     = List.filter
         (fun r => existsb (scalar_same (cell MUNICIPALITY_COL r)) selected)
         (rows region_df).
Proof.
  intros Hrect Hcol Hsel. split.
  - unfold neutral in Hsel. unfold municipality_step, getitem.
    destruct selected as [|c l]; [discriminate|].
    rewrite Hsel. cbn [orb]. now rewrite Hcol.
  - exact (rows_select_by_column
             (fun c => existsb (scalar_same c) selected) _ _ _ Hrect Hcol).
Qed.

(** The whole of [filter_data] on a table with label columns. *)
Lemma filter_data_outcome df rcol mcol p :
  rectangular df ->
  lookup_col IMMEDIATE_REGION_COL df = Some rcol ->
  forallb is_label rcol = true ->
  lookup_col MUNICIPALITY_COL df = Some mcol ->
  forallb is_label mcol = true ->
  exists regions region_df region_mcol options,
    region_options df = Ok (Str "Todas" :: regions)
    /\ region_step df
         (selectbox w "Região Geográfica Imediata (2022)" (Str "Todas" :: regions))
       = Ok region_df
    /\ rectangular region_df
    /\ lookup_col MUNICIPALITY_COL region_df = Some region_mcol
    /\ municipality_options region_df = Ok (Str "Todos" :: options)
    /\ fst (filter_data w df p)
       = municipality_step region_df
           (multiselect w "Município" (Str "Todos" :: options) [Str "Todos"]).
Proof.
  intros Hrect Hr Hrl Hm Hml.
  set (regions := isort str_leb (unique (dropna rcol))).
  assert (Hopts : region_options df = Ok (Str "Todas" :: regions)).
  { unfold region_options, getitem. rewrite Hr. cbn.
    now rewrite (options_of_labels _ Hrl). }
  destruct (region_step_keeps df rcol
              (selectbox w "Região Geográfica Imediata (2022)" (Str "Todas" :: regions))
              _ _ Hrect Hr Hm)
    as (region_df & region_mcol & Hstep & Hrect' & Hm' & Hkeep).
  set (options := isort str_leb (unique (dropna region_mcol))).
  assert (Hmopts : municipality_options region_df = Ok (Str "Todos" :: options)).
  { unfold municipality_options, getitem. rewrite Hm'. cbn.
    now rewrite (options_of_labels _ (Hkeep _ Hml)). }
  exists regions, region_df, region_mcol, options.
  repeat split; try assumption.
  rewrite filter_data_result, Hopts. cbn [mbind result_bind].
  rewrite Hstep. cbn [mbind result_bind]. now rewrite Hmopts.
Qed.

(** ** The subsets by region *)

Lemma flat_map_nil {A B : Type} (f : A -> list B) (l : list A) :
  (forall a, In a l -> f a = []) -> flat_map f l = [].
Proof.
  induction l as [|a l IH]; simpl; [reflexivity|]. intros H.
  rewrite (H a (or_introl eq_refl)), IH; [reflexivity|]. intros; apply H; now right.
Qed.

Lemma flat_map_same {A B : Type} (f g : A -> list B) (l : list A) :
  (forall a, In a l -> f a = g a) -> flat_map f l = flat_map g l.
Proof.
  induction l as [|a l IH]; simpl; [reflexivity|]. intros H.
  rewrite (H a (or_introl eq_refl)), IH; [reflexivity|]. intros; apply H; now right.
Qed.

Lemma eqb_string_cells a b :
  is_str b = true -> scalar_eqb a b = true -> a = b.
Proof.
  destruct a, b; try discriminate. simpl. intros _. now intros ->%String.eqb_eq.
Qed.

Lemma eqb_string_refl a : is_str a = true -> scalar_eqb a a = true.
Proof. destruct a; try discriminate. intros _. simpl. apply String.eqb_refl. Qed.

(** Rows filtered by each of a set of distinct labels make up, together,
    the rows that carry a label. *)
Lemma partition_by_label {A : Type} (key : A -> scalar) (vs : list scalar) :
  forallb is_str vs = true -> List.NoDup vs ->
  forall R : list A,
    (forall r, In r R -> is_label (key r) = true) ->
    (forall r, In r R -> is_str (key r) = true -> In (key r) vs) ->
    Permutation
      (flat_map (fun v => List.filter (fun r => scalar_eqb (key r) v) R) vs)
      (List.filter (fun r => negb (isna (key r))) R).
Proof.
  intros Hstr Hnd. rewrite forallb_forall in Hstr.
  induction R as [|r R IH]; intros Hlab Hcov.
  - simpl. now rewrite flat_map_nil.
  - assert (IH' : Permutation
              (flat_map (fun v => List.filter (fun r => scalar_eqb (key r) v) R) vs)
              (List.filter (fun r => negb (isna (key r))) R)).
    { apply IH; intros; [apply Hlab | apply Hcov]; auto; now right. }
    clear IH. cbn [List.filter].
    destruct (is_str (key r)) eqn:Ek.
    + assert (Hna : isna (key r) = false) by (destruct (key r); now try discriminate).
      rewrite Hna. cbn [negb].
      destruct (in_split _ _ (Hcov r (or_introl eq_refl) Ek)) as (l1 & l2 & Hvs).
      rewrite Hvs in *. apply NoDup_remove_2 in Hnd.
      rewrite !flat_map_app in *. cbn [flat_map] in *.
      rewrite (eqb_string_refl _ Ek).
      assert (Hoff : forall l, (forall v, In v l -> In v (l1 ++ l2)%list) ->
                flat_map (fun v => if scalar_eqb (key r) v
                                   then r :: List.filter (fun r0 => scalar_eqb (key r0) v) R
                                   else List.filter (fun r0 => scalar_eqb (key r0) v) R) l
                = flat_map (fun v => List.filter (fun r0 => scalar_eqb (key r0) v) R) l).
      { intros l Hl. apply flat_map_same. intros v Hv.
        destruct (scalar_eqb (key r) v) eqn:E; [|reflexivity].
        exfalso. apply Hnd.
        assert (Hsv : is_str v = true)
          by (apply Hstr, in_or_app; apply Hl, in_app_or in Hv as [?|?];
              [now left | right; now right]).
        rewrite (eqb_string_cells _ _ Hsv E). now apply Hl. }
      rewrite (Hoff l1) by (intros; apply in_or_app; now left).
      rewrite (Hoff l2) by (intros; apply in_or_app; now right).
      rewrite <- IH'. symmetry. apply Permutation_middle.
    + assert (Hna : isna (key r) = true).
      { specialize (Hlab r (or_introl eq_refl)).
        destruct (key r); simpl in *; congruence. }
      rewrite Hna. cbn [negb]. rewrite <- IH'.
      erewrite flat_map_same; [reflexivity|]. intros v Hv. cbn beta.
      assert (E : scalar_eqb (key r) v = false); [|now rewrite E].
      specialize (Hstr v Hv).
      destruct (key r) as [| |f|], v; simpl in *; try discriminate; reflexivity.
Qed.

End FilterFacts.

(* ===================================================================== *)
(** * filter_data: the claims *)
(* ===================================================================== *)

Lemma sample_clean_rectangular : rectangular sample_clean.
Proof. unfold rectangular. repeat constructor. Qed.

Lemma filter_all {A : Type} (p : A -> bool) (l : list A) :
  forallb p l = true -> List.filter p l = l.
Proof.
  induction l as [|a l IH]; simpl; [reflexivity|].
  intros [-> Hl]%andb_prop. now rewrite (IH Hl).
Qed.

(** C2, as amended.  On a table whose region and municipality columns
    hold text or missing values: with the region "Todas" the region step
    returns the table it was given; with any other region it returns
    exactly the rows whose region label equals the selection; when the
    municipality selection is empty or holds "Todos", [filter_data]
    returns what the region step returned; and, no label being the text
    "Todas", the subsets of all the regions offered make up, each row
    once, the rows whose region label is not missing (the whole table
    when none is missing). *)
Theorem filter_data_by_region (w : World) (df : DataFrame)
    (rcol mcol : Series) (p : page) :
  rectangular df ->
  lookup_col IMMEDIATE_REGION_COL df = Some rcol ->
  forallb is_label rcol = true ->
  lookup_col MUNICIPALITY_COL df = Some mcol ->
  forallb is_label mcol = true ->
  exists regions,
    region_options df = Ok (Str "Todas" :: regions)
    /\ region_step df (Str "Todas") = Ok df
    /\ (forall sel, scalar_eqb sel (Str "Todas") = false ->
          exists out,
            region_step df sel = Ok out
            /\ rows out
               = List.filter
                   (fun r => scalar_eqb (cell IMMEDIATE_REGION_COL r) sel)
                   (rows df))
    /\ (exists region_df options,
          region_step df (selectbox w IMMEDIATE_REGION_COL (Str "Todas" :: regions))
          = Ok region_df
          /\ municipality_options region_df = Ok options
          /\ (neutral (multiselect w MUNICIPALITY_COL options [Str "Todos"]) = true ->
              fst (filter_data w df p) = Ok region_df))
    /\ (~ In (Str "Todas") rcol ->
          Permutation
            (flat_map (fun v => result_rows (region_step df v)) regions)
            (List.filter (fun r => negb (isna (cell IMMEDIATE_REGION_COL r)))
                         (rows df))
          /\ (forallb is_str rcol = true ->
              Permutation
                (flat_map (fun v => result_rows (region_step df v)) regions)
                (rows df))).
Proof.
  intros Hrect Hr Hrl Hm Hml.
  destruct (filter_data_outcome w df rcol mcol p Hrect Hr Hrl Hm Hml)
    as (regions & region_df & region_mcol & options
        & Hopts & Hstep & Hrect' & Hm' & Hmopts & Hres).
  exists regions. split; [exact Hopts|]. split; [reflexivity|]. split; [|split].
  - intros sel Hsel.
    destruct (region_step_one df rcol sel Hrect Hr Hsel) as [H1 H2]. eauto.
  - exists region_df, (Str "Todos" :: options).
    split; [exact Hstep|]. split; [exact Hmopts|].
    intros Hn. rewrite Hres. now apply municipality_step_neutral.
  - intros Hsent.
    assert (Hregions : regions = isort str_leb (unique (dropna rcol))).
    { unfold region_options, getitem in Hopts. rewrite Hr in Hopts. cbn in Hopts.
      rewrite (options_of_labels _ Hrl) in Hopts. cbn in Hopts. congruence. }
    assert (Hperm : Permutation regions (unique (dropna rcol)))
      by (rewrite Hregions; apply isort_perm).
    assert (Hdl : forallb is_str (dropna rcol) = true) by now apply dropna_labels.
    assert (Hin : forall v, In v regions -> In v rcol /\ is_str v = true).
    { intros v Hv. apply (Permutation_in _ Hperm) in Hv.
      split.
      - apply unique_subset in Hv. unfold dropna in Hv.
        now apply filter_In in Hv.
      - pose proof (unique_forallb is_str _ Hdl) as Hu.
        rewrite forallb_forall in Hu. now apply Hu. }
    assert (Hunion : Permutation
              (flat_map (fun v => result_rows (region_step df v)) regions)
              (List.filter (fun r => negb (isna (cell IMMEDIATE_REGION_COL r)))
                           (rows df))).
    { erewrite flat_map_same.
      - apply (partition_by_label (cell IMMEDIATE_REGION_COL) regions).
        + apply forallb_forall. intros v Hv. now apply Hin.
        + apply (Permutation_NoDup (l := unique (dropna rcol)));
            [now symmetry | now apply unique_nodup].
        + intros r Hrow.
          rewrite forallb_forall in Hrl. apply Hrl.
          rewrite <- (column_of_rows _ _ _ Hrect Hr). now apply in_map.
        + intros r Hrow Hstr. apply (Permutation_in _ (Permutation_sym Hperm)).
          apply unique_covers; [exact Hdl|]. unfold dropna. apply filter_In.
          split.
          * rewrite <- (column_of_rows _ _ _ Hrect Hr). now apply in_map.
          * destruct (cell IMMEDIATE_REGION_COL r); now try discriminate.
      - intros v Hv. cbn beta. destruct (Hin v Hv) as [Hvr Hvs].
        assert (Hne : scalar_eqb v (Str "Todas") = false).
        { destruct (scalar_eqb v (Str "Todas")) eqn:E; [|reflexivity].
          exfalso. apply Hsent.
          now rewrite <- (eqb_string_cells v (Str "Todas") eq_refl E). }
        destruct (region_step_one df rcol v Hrect Hr Hne) as [H1 H2].
        rewrite H1. exact H2. }
    split; [exact Hunion|].
    intros Hall. rewrite Hunion, filter_all; [reflexivity|].
    apply forallb_forall. intros r Hrow.
    rewrite forallb_forall in Hall.
    assert (Hc : In (cell IMMEDIATE_REGION_COL r) rcol)
      by (rewrite <- (column_of_rows _ _ _ Hrect Hr); now apply in_map).
    specialize (Hall _ Hc). now destruct (cell IMMEDIATE_REGION_COL r).
Qed.

Lemma filter_data_by_region_sample :
  exists regions,
    region_options sample_clean = Ok (Str "Todas" :: regions)
    /\ region_step sample_clean (Str "Todas") = Ok sample_clean
    /\ (forall sel, scalar_eqb sel (Str "Todas") = false ->
          exists out,
            region_step sample_clean sel = Ok out
            /\ rows out
               = List.filter
                   (fun r => scalar_eqb (cell IMMEDIATE_REGION_COL r) sel)
                   (rows sample_clean))
    /\ (exists region_df options,
          region_step sample_clean
            (selectbox sample_world IMMEDIATE_REGION_COL (Str "Todas" :: regions))
          = Ok region_df
          /\ municipality_options region_df = Ok options
          /\ (neutral (multiselect sample_world MUNICIPALITY_COL options
                         [Str "Todos"]) = true ->
              fst (filter_data sample_world sample_clean []) = Ok region_df))
    /\ (~ In (Str "Todas") [Str "Viçosa"; Str "Ubá"; Str "Muriaé"] ->
          Permutation
            (flat_map (fun v => result_rows (region_step sample_clean v)) regions)
            (List.filter (fun r => negb (isna (cell IMMEDIATE_REGION_COL r)))
                         (rows sample_clean))
          /\ (forallb is_str [Str "Viçosa"; Str "Ubá"; Str "Muriaé"] = true ->
              Permutation
                (flat_map (fun v => result_rows (region_step sample_clean v)) regions)
                (rows sample_clean))).
Proof.
  exact (filter_data_by_region sample_world sample_clean _ _ []
           sample_clean_rectangular eq_refl eq_refl eq_refl eq_refl).
Defined.

(** C2 as stated fails: a row whose region label is missing is in the
    subset of no region, so the subsets of the regions offered do not
    make up the table. *)
Lemma missing_region_escapes :
  region_options region_gap_table = Ok [Str "Todas"; Str "Viçosa"]
  /\ length (flat_map (fun v => result_rows (region_step region_gap_table v))
               [Str "Viçosa"]) = 1%nat
  /\ length (rows region_gap_table) = 2%nat.
Proof. repeat split; vm_compute; reflexivity. Qed.

(** C8.  On a table whose region and municipality columns hold text or
    missing values, with [region_df] what the region step returned: when
    the municipality selection is empty or holds "Todos", [filter_data]
    returns [region_df]; otherwise it returns the rows of [region_df]
    whose municipality is one of those selected, and no other row. *)
Theorem filter_data_by_municipality (w : World) (df : DataFrame)
    (rcol mcol : Series) (p : page) :
  rectangular df ->
  lookup_col IMMEDIATE_REGION_COL df = Some rcol ->
  forallb is_label rcol = true ->
  lookup_col MUNICIPALITY_COL df = Some mcol ->
  forallb is_label mcol = true ->
  exists regions region_df options,
    region_options df = Ok (Str "Todas" :: regions)
    /\ region_step df (selectbox w IMMEDIATE_REGION_COL (Str "Todas" :: regions))
       = Ok region_df
    /\ municipality_options region_df = Ok (Str "Todos" :: options)
    /\ (neutral (multiselect w MUNICIPALITY_COL (Str "Todos" :: options)
                   [Str "Todos"]) = true ->
        fst (filter_data w df p) = Ok region_df)
    /\ (neutral (multiselect w MUNICIPALITY_COL (Str "Todos" :: options)
                   [Str "Todos"]) = false ->
        exists out,
          fst (filter_data w df p) = Ok out
          /\ rows out
             = List.filter
                 (fun r => existsb (scalar_same (cell MUNICIPALITY_COL r))
                             (multiselect w MUNICIPALITY_COL
                                (Str "Todos" :: options) [Str "Todos"]))
                 (rows region_df)).
Proof.
  intros Hrect Hr Hrl Hm Hml.
  destruct (filter_data_outcome w df rcol mcol p Hrect Hr Hrl Hm Hml)
    as (regions & region_df & region_mcol & options
        & Hopts & Hstep & Hrect' & Hm' & Hmopts & Hres).
  exists regions, region_df, options.
  split; [exact Hopts|]. split; [exact Hstep|]. split; [exact Hmopts|]. split.
  - intros Hn. rewrite Hres. now apply municipality_step_neutral.
  - intros Hn.
    destruct (municipality_step_some region_df region_mcol _ Hrect' Hm' Hn)
      as [H1 H2].
    eexists. split; [rewrite Hres; exact H1 | exact H2].
Qed.

Lemma filter_data_by_municipality_sample :
  exists regions region_df options,
    region_options sample_clean = Ok (Str "Todas" :: regions)
    /\ region_step sample_clean
         (selectbox sample_world IMMEDIATE_REGION_COL (Str "Todas" :: regions))
       = Ok region_df
    /\ municipality_options region_df = Ok (Str "Todos" :: options)
    /\ (neutral (multiselect sample_world MUNICIPALITY_COL (Str "Todos" :: options)
                   [Str "Todos"]) = true ->
        fst (filter_data sample_world sample_clean []) = Ok region_df)
    /\ (neutral (multiselect sample_world MUNICIPALITY_COL (Str "Todos" :: options)
                   [Str "Todos"]) = false ->
        exists out,
          fst (filter_data sample_world sample_clean []) = Ok out
          /\ rows out
             = List.filter
                 (fun r => existsb (scalar_same (cell MUNICIPALITY_COL r))
                             (multiselect sample_world MUNICIPALITY_COL
                                (Str "Todos" :: options) [Str "Todos"]))
                 (rows region_df)).
Proof.
  exact (filter_data_by_municipality sample_world sample_clean _ _ []
           sample_clean_rectangular eq_refl eq_refl eq_refl eq_refl).
Defined.

(* ===================================================================== *)
(** * render_kpis *)
(* ===================================================================== *)

Lemma wrap64_in_range z : F64.in_int64 z = true -> F64.wrap64 z = z.
Proof.
  unfold F64.in_int64, F64.wrap64, F64.int64_min, F64.int64_max.
  intros [H1 H2]%andb_prop. apply Z.leb_le in H1, H2.
  rewrite Z.mod_small by lia. lia.
Qed.

Lemma series_sum_integers (w : World) s :
  forallb is_int s = true ->
  series_sum w s
  = Ok (Int (F64.wrap64 (fold_right Z.add 0 (map int_value s)))).
Proof. intros H. unfold series_sum. now rewrite (dtype_all_int _ H). Qed.

Lemma real_cells_to_float s :
  forallb is_real s = true ->
  map (fun c => if isna c then F64.zero else to_float c) s = map to_float s.
Proof.
  induction s as [|c s IH]; [reflexivity|]. simpl.
  intros [Hc Hs]%andb_prop. rewrite (IH Hs).
  destruct c as [|z|f|t]; try discriminate. simpl in *.
  now destruct (F64.is_nan f).
Qed.

Lemma series_sum_reals (w : World) s :
  forallb is_real s = true ->
  exists sum,
    series_sum w s = Ok sum
    /\ py_float sum
       = Ok (match s with
             | [] => F64.zero
             | _ => float_sum w (map to_float s)
             end).
Proof.
  intros H. destruct s as [|c s]; [eexists; split; reflexivity|].
  unfold series_sum.
  assert (E : dtype_of (c :: s) = float64).
  { destruct (dtype_all_float _ (real_is_float _ H)) as [E|E]; [|exact E].
    apply dtype_int64_inv in E. destruct c; discriminate. }
  rewrite E. eexists. split; [reflexivity|]. cbn [py_float].
  now rewrite (real_cells_to_float _ H).
Qed.

(** C3.  On a cleaned table with the four columns, the indicators of
    [render_kpis] are: the family-farmer counts of the rows added up in
    the int64 arithmetic of the column, the credit amounts of the rows
    added up as floats, the women counts of the rows added up in int64
    arithmetic, and the number of distinct municipality names of the
    rows; each row counts once.  [render_kpis] shows them in its four
    tiles.  An int64 sum is the exact sum whenever that is in range. *)
Theorem render_kpis_values (w : World) (df : DataFrame)
    (af credit women municipality : Series) (p : page) :
  rectangular df -> cleaned df ->
  lookup_col AF_COL df = Some af ->
  lookup_col CREDIT_COL df = Some credit ->
  lookup_col WOMEN_COL df = Some women ->
  lookup_col MUNICIPALITY_COL df = Some municipality ->
  kpi_values w df
  = Ok (F64.wrap64 (column_total AF_COL df),
        credit_total w df,
        F64.wrap64 (column_total WOMEN_COL df),
        distinct_count MUNICIPALITY_COL df)
  /\ render_kpis w df p
     = (Ok tt,
        (p ++ [ (Kpi 1, Metric "Total de Agricultores Familiares Atingidos"
                          (format_int (F64.wrap64 (column_total AF_COL df))));
                (Kpi 2, Metric "Volume Financeiro Total do Pronaf em Risco"
                          (format_brl (credit_total w df)));
                (Kpi 3, Metric "Total de Mulheres com CAF Ativo"
                          (format_int (F64.wrap64 (column_total WOMEN_COL df))));
                (Kpi 4, Metric "Número de Municípios Selecionados"
                          (format_int (distinct_count MUNICIPALITY_COL df))) ])%list)
  /\ (F64.in_int64 (column_total AF_COL df) = true ->
      F64.wrap64 (column_total AF_COL df) = column_total AF_COL df)
  /\ (F64.in_int64 (column_total WOMEN_COL df) = true ->
      F64.wrap64 (column_total WOMEN_COL df) = column_total WOMEN_COL df).
Proof.
  intros Hrect (_ & Hcredit & Hint & _) Haf Hcr Hwo Hmu.
  assert (Hkpi : kpi_values w df
            = Ok (F64.wrap64 (column_total AF_COL df), credit_total w df,
                  F64.wrap64 (column_total WOMEN_COL df),
                  distinct_count MUNICIPALITY_COL df)).
  { unfold kpi_values, getitem. rewrite Haf, Hcr, Hwo, Hmu.
    cbn [mbind result_bind].
    rewrite (series_sum_integers w af) by (apply (Hint AF_COL); [simpl; tauto | exact Haf]).
    cbn [mbind result_bind py_int].
    destruct (series_sum_reals w credit (Hcredit _ Hcr)) as (credit_sum & Hs1 & Hs2).
    rewrite Hs1. cbn [mbind result_bind]. rewrite Hs2. cbn [mbind result_bind].
    rewrite (series_sum_integers w women)
      by (apply (Hint WOMEN_COL); [simpl; tauto | exact Hwo]).
    cbn [mbind result_bind py_int].
    unfold column_total, credit_total, distinct_count, nunique.
    rewrite <- (column_of_rows _ _ _ Hrect Haf) at 1.
    rewrite <- (column_of_rows _ _ _ Hrect Hwo) at 1.
    rewrite <- (column_of_rows _ _ _ Hrect Hmu) at 1.
    rewrite <- (column_of_rows _ _ _ Hrect Hcr).
    rewrite !List.map_map.
    destruct (rows df); reflexivity. }
  split; [exact Hkpi|]. split; [|split; apply wrap64_in_range].
  unfold render_kpis, mbind, ui_bind, ui_lift, draw. rewrite Hkpi.
  cbn [fst snd]. now rewrite <- !app_assoc.
Qed.

Lemma sample_clean_cleaned : cleaned sample_clean.
Proof.
  repeat split.
  - intros c s Hin Hs. simpl in Hin.
    repeat (destruct Hin as [<-|Hin]; [vm_compute in Hs; injection Hs as <-; vm_compute; discriminate|]).
    contradiction.
  - intros s Hs. vm_compute in Hs. injection Hs as <-. reflexivity.
  - intros c s Hin Hs. simpl in Hin.
    repeat (destruct Hin as [<-|Hin]; [vm_compute in Hs; injection Hs as <-; reflexivity|]).
    contradiction.
  - intros s Hs. vm_compute in Hs. injection Hs as <-. reflexivity.
Qed.

Lemma render_kpis_values_sample :
  kpi_values sample_world sample_clean
  = Ok (F64.wrap64 (column_total AF_COL sample_clean),
        credit_total sample_world sample_clean,
        F64.wrap64 (column_total WOMEN_COL sample_clean),
        distinct_count MUNICIPALITY_COL sample_clean)
  /\ column_total AF_COL sample_clean = 960
  /\ distinct_count MUNICIPALITY_COL sample_clean = 3.
Proof.
  split; [|split; reflexivity].
  exact (proj1 (render_kpis_values sample_world sample_clean _ _ _ _ []
                  sample_clean_rectangular sample_clean_cleaned
                  eq_refl eq_refl eq_refl eq_refl)).
Defined.

(* ===================================================================== *)
(** * build_credit_concentration_chart: the ten largest *)
(* ===================================================================== *)

Section TopTen.

Lemma real_is_number s : forallb is_real s = true -> forallb is_number s = true.
Proof. apply forallb_weaken. intros []; simpl; congruence. Qed.

Lemma real_dropna s : forallb is_real s = true -> dropna s = s.
Proof.
  intros H. unfold dropna. apply filter_all. revert H.
  apply forallb_weaken. intros []; simpl; congruence.
Qed.

Lemma nth_forallb (p : scalar -> bool) s i :
  forallb p s = true -> (i < length s)%nat -> p (nth i s NA) = true.
Proof.
  intros H Hi. rewrite forallb_forall in H. apply H, nth_In, Hi.
Qed.

Lemma positions_all (p : scalar -> bool) s :
  forallb p s = true -> positions p s = seq 0 (length s).
Proof.
  intros H. unfold positions. apply filter_all, forallb_forall.
  intros i Hi%in_seq. apply nth_forallb; [exact H | lia].
Qed.

Lemma positions_none (p q : scalar -> bool) s :
  (forall c, p c = true -> q c = false) ->
  forallb p s = true -> positions q s = [].
Proof.
  intros Hpq H. unfold positions.
  induction (seq 0 (length s)) as [|i l IH] eqn:E in H |- *; [reflexivity|].
  assert (Hall : forall j, In j (i :: l) -> q (nth j s NA) = false).
  { intros j Hj. apply Hpq, nth_forallb; [exact H|].
    rewrite <- E in Hj. apply in_seq in Hj. lia. }
  clear E IH. induction (i :: l) as [|j l' IH]; [reflexivity|].
  simpl. rewrite (Hall j (or_introl eq_refl)). apply IH.
  intros k Hk. apply Hall. now right.
Qed.

Lemma num_leb_total a b :
  is_real a = true -> is_real b = true ->
  num_leb a b = false -> num_leb b a = true.
Proof.
  destruct a as [| |fa|], b as [| |fb|]; try discriminate. simpl.
  intros Ha%negb_true_iff Hb%negb_true_iff. now apply f64_leb_total.
Qed.

Lemma num_leb_trans a b c :
  is_real a = true -> is_real b = true -> is_real c = true ->
  num_leb a b = true -> num_leb b c = true -> num_leb a c = true.
Proof.
  destruct a as [| |fa|], b as [| |fb|], c as [| |fc|]; try discriminate.
  simpl. intros _ _ _. apply f64_leb_trans.
Qed.

Lemma take_rows_compose order idx df :
  (forall j, In j order -> (j < length idx)%nat) ->
  take_rows order (take_rows idx df)
  = take_rows (map (fun j => nth j idx 0%nat) order) df.
Proof.
  intros Hord. unfold take_rows. rewrite List.map_map.
  apply List.map_ext. intros [name s]. f_equal. rewrite List.map_map.
  apply List.map_ext_in. intros j Hj.
  rewrite (nth_indep _ NA (nth 0 s NA)) by (rewrite length_map; now apply Hord).
  now rewrite (List.map_nth (fun i => nth i s NA)).
Qed.

Lemma strongly_sorted_map {A B : Type} (R : B -> B -> Prop) (f : A -> B) l :
  StronglySorted (fun a b => R (f a) (f b)) l -> StronglySorted R (map f l).
Proof.
  induction 1 as [|a l Hs IH Ha]; simpl; constructor; [exact IH|].
  rewrite List.Forall_forall in *. intros b Hb.
  apply in_map_iff in Hb as (x & <- & Hx). now apply Ha.
Qed.

Lemma strongly_sorted_weaken {A : Type} (R S : A -> A -> Prop) (P : A -> Prop) l :
  (forall a b, P a -> P b -> R a b -> S a b) -> Forall P l ->
  StronglySorted R l -> StronglySorted S l.
Proof.
  intros HRS HP Hs. induction Hs as [|a l Hs IH Ha]; constructor.
  - apply IH. now apply Forall_cons_1 in HP.
  - apply Forall_cons_1 in HP as [Pa Pl].
    rewrite List.Forall_forall in *. intros b Hb. apply HRS; auto.
Qed.

Lemma nodup_firstn {A : Type} (n : nat) (l : list A) :
  List.NoDup l -> List.NoDup (firstn n l).
Proof.
  intros H. rewrite <- (firstn_skipn n l) in H.
  now apply List.NoDup_app_remove_r in H.
Qed.

Lemma in_firstn {A : Type} (n : nat) (l : list A) x :
  In x (firstn n l) -> In x l.
Proof.
  intros H. rewrite <- (firstn_skipn n l). apply in_or_app. now left.
Qed.

End TopTen.

(** C6.  On a table whose monetary column holds floats that are not NaN
    (as the cleaning leaves it), the table of the credit concentration
    chart is the rows of [df] at positions [idx], where [idx] has no
    repeated position and min(10, number of rows) positions, no row left
    out has a larger amount than a row taken, and the amounts of the rows
    taken, in the order taken, increase. *)
Theorem top_10_largest (df : DataFrame) (credit : Series) :
  lookup_col CREDIT_COL df = Some credit ->
  forallb is_real credit = true ->
  exists idx : list nat,
    top_10 df = Ok (take_rows idx df)
    /\ rows (take_rows idx df) = map (row df) idx
    /\ lookup_col CREDIT_COL (take_rows idx df)
       = Some (map (fun i => nth i credit NA) idx)
    /\ List.NoDup idx
    /\ (forall i, In i idx -> (i < length credit)%nat)
    /\ length idx = Nat.min 10 (length credit)
    /\ StronglySorted (fun a b => num_leb a b = true)
         (map (fun i => nth i credit NA) idx)
    /\ (forall i j, In i idx -> (j < length credit)%nat -> ~ In j idx ->
          num_leb (nth j credit NA) (nth i credit NA) = true).
Proof.
  intros Hcol Hreal.
  set (n := length credit).
  set (key := fun i => nth i credit NA).
  set (order1 := isort (fun i j => num_leb (key j) (key i)) (seq 0 n)).
  set (idx1 := firstn 10 order1).
  assert (Hkey : forall i, (i < n)%nat -> is_real (key i) = true)
    by (intros i Hi; now apply nth_forallb).
  assert (Hperm1 : Permutation order1 (seq 0 n)) by apply isort_perm.
  assert (Hin1 : forall i, In i order1 -> (i < n)%nat).
  { intros i Hi. apply (Permutation_in _ Hperm1), in_seq in Hi. lia. }
  assert (Hsorted1 : StronglySorted
            (fun i j => num_leb (key j) (key i) = true) order1).
  { apply (isort_sorted _ (fun i => (i < n)%nat)).
    - intros a b Ha Hb. apply num_leb_total; auto.
    - intros a b c Ha Hb Hc H1 H2. apply (num_leb_trans _ (key b)); auto.
    - apply List.Forall_forall. intros i Hi%in_seq. lia. }
  assert (Hnd1 : List.NoDup idx1).
  { apply nodup_firstn, (Permutation_NoDup (Permutation_sym Hperm1)), seq_NoDup. }
  assert (Hidx1 : forall i, In i idx1 -> (i < n)%nat)
    by (intros i Hi; apply Hin1, (in_firstn _ _ _ Hi)).
  assert (Hlen1 : length idx1 = Nat.min 10 n).
  { unfold idx1. rewrite length_firstn, (Permutation_length Hperm1), length_seq.
    reflexivity. }
  (* nlargest *)
  assert (Hlargest : nlargest 10 CREDIT_COL df = Ok (take_rows idx1 df)).
  { unfold nlargest, getitem. rewrite Hcol. cbn [mbind result_bind].
    rewrite (positions_all (fun c => negb (isna c)) credit)
      by (revert Hreal; apply forallb_weaken; intros []; simpl; congruence).
    rewrite (positions_none is_real isna credit)
      by (exact Hreal || (intros []; simpl; try congruence;
                          intros H; now apply negb_true_iff in H)).
    rewrite app_nil_r.
    destruct (dtype_all_float _ (real_is_float _ Hreal)) as [E|E]; rewrite E;
      reflexivity. }
  (* sort_values *)
  set (credit1 := map key idx1).
  assert (Hcol1 : lookup_col CREDIT_COL (take_rows idx1 df) = Some credit1)
    by now rewrite lookup_take_rows, Hcol.
  assert (Hreal1 : forallb is_real credit1 = true).
  { apply forallb_forall. intros c Hc.
    apply in_map_iff in Hc as (i & <- & Hi). now apply Hkey, Hidx1. }
  set (key1 := fun j => nth j credit1 NA).
  set (order2 := isort (fun i j => num_leb (key1 i) (key1 j))
                       (seq 0 (length credit1))).
  assert (Hperm2 : Permutation order2 (seq 0 (length credit1))) by apply isort_perm.
  assert (Hlen_c1 : length credit1 = length idx1) by apply length_map.
  assert (Hin2 : forall j, In j order2 -> (j < length idx1)%nat).
  { intros j Hj. apply (Permutation_in _ Hperm2), in_seq in Hj. lia. }
  assert (Hkey1 : forall j, (j < length idx1)%nat ->
            key1 j = key (nth j idx1 0%nat)).
  { intros j Hj. unfold key1, credit1.
    rewrite (nth_indep _ NA (key 0%nat)) by now rewrite length_map.
    now rewrite (List.map_nth key). }
  assert (Hsorted2 : StronglySorted
            (fun i j => num_leb (key1 i) (key1 j) = true) order2).
  { apply (isort_sorted _ (fun j => (j < length idx1)%nat)).
    - intros a b Ha Hb. rewrite !Hkey1 by assumption.
      apply num_leb_total; apply Hkey, Hidx1, nth_In; assumption.
    - intros a b c Ha Hb Hc. rewrite !Hkey1 by assumption.
      apply num_leb_trans; apply Hkey, Hidx1, nth_In; assumption.
    - apply List.Forall_forall. intros j Hj%in_seq. lia. }
  assert (Hsort : sort_values CREDIT_COL (take_rows idx1 df)
                  = Ok (take_rows order2 (take_rows idx1 df))).
  { unfold sort_values, getitem. rewrite Hcol1. cbn [mbind result_bind].
    rewrite (real_dropna _ Hreal1), (real_is_number _ Hreal1).
    cbn [mbind result_bind].
    rewrite (positions_all (fun c => negb (isna c)) credit1)
      by (revert Hreal1; apply forallb_weaken; intros []; simpl; congruence).
    rewrite (positions_none is_real isna credit1)
      by (exact Hreal1 || (intros []; simpl; try congruence;
                           intros H; now apply negb_true_iff in H)).
    now rewrite app_nil_r. }
  set (idx := map (fun j => nth j idx1 0%nat) order2).
  assert (Hperm : Permutation idx idx1).
  { unfold idx. rewrite Hperm2, Hlen_c1. now rewrite map_nth_seq. }
  exists idx. repeat split.
  - unfold top_10. rewrite Hlargest. cbn [mbind result_bind].
    rewrite Hsort. f_equal. now apply take_rows_compose.
  - apply rows_take_rows. intros ->. discriminate.
  - now rewrite lookup_take_rows, Hcol.
  - exact (Permutation_NoDup (Permutation_sym Hperm) Hnd1).
  - intros i Hi. apply Hidx1, (Permutation_in _ Hperm Hi).
  - now rewrite (Permutation_length Hperm).
  - unfold idx. rewrite List.map_map.
    apply (strongly_sorted_map (fun a b => num_leb a b = true)
             (fun j => key (nth j idx1 0%nat))).
    apply (strongly_sorted_weaken
             (fun i j => num_leb (key1 i) (key1 j) = true) _
             (fun j => (j < length idx1)%nat));
      [|apply List.Forall_forall; exact Hin2 | exact Hsorted2].
    intros a b Ha Hb H. rewrite !Hkey1 in H by assumption. exact H.
  - intros i j Hi Hj Hnot.
    apply (Permutation_in _ Hperm) in Hi.
    assert (Hj1 : ~ In j idx1)
      by (intros H; apply Hnot, (Permutation_in _ (Permutation_sym Hperm) H)).
    assert (Hj2 : In j (skipn 10 order1)).
    { assert (Hjo : In j order1)
        by (apply (Permutation_in _ (Permutation_sym Hperm1)), in_seq; lia).
      rewrite <- (firstn_skipn 10 order1) in Hjo.
      apply in_app_or in Hjo as [H|H]; [contradiction | exact H]. }
    exact (sorted_prefix_dominates _ _ Hsorted1 10%nat i j Hi Hj2).
Qed.

Lemma top_10_largest_sample :
  exists idx : list nat,
    top_10 sample_clean = Ok (take_rows idx sample_clean)
    /\ rows (take_rows idx sample_clean) = map (row sample_clean) idx
    /\ lookup_col CREDIT_COL (take_rows idx sample_clean)
       = Some (map (fun i => nth i
                 [Float (F64.of_Z 1500); Float F64.zero; Float (F64.of_Z 700)] NA) idx)
    /\ List.NoDup idx
    /\ (forall i, In i idx -> (i < 3)%nat)
    /\ length idx = Nat.min 10 3
    /\ StronglySorted (fun a b => num_leb a b = true)
         (map (fun i => nth i
            [Float (F64.of_Z 1500); Float F64.zero; Float (F64.of_Z 700)] NA) idx)
    /\ (forall i j, In i idx -> (j < 3)%nat -> ~ In j idx ->
          num_leb (nth j [Float (F64.of_Z 1500); Float F64.zero; Float (F64.of_Z 700)] NA)
                  (nth i [Float (F64.of_Z 1500); Float F64.zero; Float (F64.of_Z 700)] NA)
          = true).
Proof.
  exact (top_10_largest sample_clean _ eq_refl eq_refl).
Defined.

Example top_10_sample :
  top_10 sample_clean = Ok (take_rows [1%nat; 2%nat; 0%nat] sample_clean).
Proof. vm_compute. reflexivity. Qed.

(* ===================================================================== *)
(** * build_impacted_farmers_map: the join key *)
(* ===================================================================== *)

Section MapKeys.

Lemma length_zeros n : String.length (Py.zeros n) = n.
Proof. induction n as [|n IH]; [reflexivity|]. simpl. f_equal. exact IH. Qed.

Lemma length_append_string a b :
  String.length (a ++ b) = (String.length a + String.length b)%nat.
Proof.
  induction a as [|c a IH]; [reflexivity|].
  change (String.length (String c a ++ b)) with (S (String.length (a ++ b))).
  now rewrite IH.
Qed.

Lemma zfill_length width s :
  String.length (Py.zfill width s) = Nat.max width (String.length s).
Proof.
  unfold Py.zfill. destruct s as [|c rest]; simpl String.length.
  - rewrite length_zeros. lia.
  - destruct (Ascii.eqb c "-" || Ascii.eqb c "+")%bool; simpl String.length;
      rewrite length_append_string, length_zeros; simpl String.length; lia.
Qed.

Lemma append_empty_r s : s ++ "" = s.
Proof.
  induction s as [|c s IH]; [reflexivity|].
  change (String c s ++ "") with (String c (s ++ "")). now rewrite IH.
Qed.

Lemma zfill_digits width s :
  all_digits s = true ->
  Py.zfill width s = Py.zeros (width - String.length s) ++ s.
Proof.
  unfold Py.zfill. destruct s as [|c rest]; simpl.
  - intros _. now rewrite append_empty_r.
  - intros [Hc _]%andb_prop.
    destruct (Ascii.eqb_spec c "-") as [->|]; [discriminate|].
    destruct (Ascii.eqb_spec c "+") as [->|]; [discriminate|]. reflexivity.
Qed.

Lemma all_digits_zeros n : all_digits (Py.zeros n) = true.
Proof. induction n; simpl; auto. Qed.

Lemma str_int_nonneg n : Py.str_int (Z.of_N n) = Py.decimal n.
Proof. destruct n; reflexivity. Qed.

Lemma select_present_ints s :
  forallb is_int_or_na s = true ->
  forallb is_int (select (map (fun c => negb (isna c)) s) s) = true.
Proof.
  induction s as [|c s IH]; [reflexivity|]. simpl.
  intros [Hc Hs]%andb_prop. destruct c; try discriminate; simpl; auto.
Qed.

Lemma astype_str_ints s :
  forallb is_int s = true ->
  astype_str s = map (fun c => Str (Py.str_int (int_value c))) s.
Proof.
  induction s as [|c s IH]; [reflexivity|]. simpl.
  intros [Hc Hs]%andb_prop. rewrite (IH Hs). now destruct c.
Qed.

End MapKeys.

(** C7, as amended.  On a table whose identifier column holds integers
    and [pd.NA] (as the cleaning leaves it), the table of the choropleth
    has the rows whose identifier is not missing and no other, and its
    key column holds, for each of them, the decimal string of the
    identifier filled with zeros on the left up to 7 characters: a key
    has max(7, length of the decimal string) characters; for an
    identifier that is not negative it is the digits after 7 minus their
    number zeros, all of it digits; 123 gives "0000123". *)
Theorem map_frame_keys (w : World) (df : DataFrame) (ibge mun af : Series) :
  lookup_col IBGE_COL df = Some ibge ->
  forallb is_int_or_na ibge = true ->
  lookup_col MUNICIPALITY_COL df = Some mun ->
  lookup_col AF_COL df = Some af ->
  map_frame w df
  = Ok [ (IBGE_COL,
          map (fun c => Str (Py.zfill 7 (Py.str_int (int_value c))))
              (select (map (fun c => negb (isna c)) ibge) ibge));
         (MUNICIPALITY_COL, select (map (fun c => negb (isna c)) ibge) mun);
         (AF_COL, select (map (fun c => negb (isna c)) ibge) af) ]
  /\ forallb is_int (select (map (fun c => negb (isna c)) ibge) ibge) = true
  /\ (forall z, String.length (Py.zfill 7 (Py.str_int z))
                = Nat.max 7 (String.length (Py.str_int z)))
  /\ (forall n : N,
        Py.zfill 7 (Py.str_int (Z.of_N n))
        = Py.zeros (7 - String.length (Py.decimal n)) ++ Py.decimal n
        /\ all_digits (Py.zfill 7 (Py.str_int (Z.of_N n))) = true)
  /\ Py.zfill 7 (Py.str_int 123) = "0000123".
Proof.
  intros Hibge Hshape Hmun Haf.
  pose proof (select_present_ints _ Hshape) as Hints.
  split; [|split; [exact Hints|split; [|split; [|reflexivity]]]].
  - unfold map_frame, getitems, traverse, getitem.
    rewrite Hibge, Hmun, Haf. cbn [mbind result_bind lookup_col].
    rewrite String.eqb_refl. cbn [mbind result_bind select_rows map lookup_col].
    rewrite String.eqb_refl. cbn [mbind result_bind].
    unfold astype_int. rewrite (dtype_all_int _ Hints). cbn [mbind result_bind].
    cbn [setitem]. rewrite String.eqb_refl.
    rewrite (astype_str_ints _ Hints). unfold str_zfill. rewrite List.map_map.
    reflexivity.
  - intros z. apply zfill_length.
  - intros n. rewrite str_int_nonneg.
    rewrite (zfill_digits 7 _ (all_digits_decimal n)). split; [reflexivity|].
    now rewrite all_digits_append, all_digits_zeros, all_digits_decimal.
Qed.

Lemma map_frame_keys_sample :
  map_frame sample_world sample_clean
  = Ok [ (IBGE_COL, [Str "3171303"; Str "3169901"; Str "3143906"]);
         (MUNICIPALITY_COL, [Str "Viçosa"; Str "Ubá"; Str "Muriaé"]);
         (AF_COL, [Int 400; Int 250; Int 310]) ].
Proof.
  exact (proj1 (map_frame_keys sample_world sample_clean _ _ _
                  eq_refl eq_refl eq_refl eq_refl)).
Defined.

(** C7 as stated fails: the key of an identifier of eight digits has
    eight characters. *)
Lemma long_identifier_key :
  (forall w, map_frame w long_id_table
             = Ok [ (IBGE_COL, [Str "12345678"; Str "0000123"]);
                    (MUNICIPALITY_COL, [Str "Viçosa"; Str "Muriaé"]);
                    (AF_COL, [Int 400; Int 310]) ])
  /\ String.length "12345678" = 8%nat.
Proof. split; [intros w; vm_compute; reflexivity | reflexivity]. Qed.

(* ===================================================================== *)
(** * render_dashboard: the fallback *)
(* ===================================================================== *)

(** The map fails when the boundary document cannot be had, whatever the
    table. *)
Lemma map_fails_without_boundaries (w : World) (df : DataFrame) e :
  urlopen_read w MG_GEOJSON_URL 30 = Raise e ->
  exists e', build_impacted_farmers_map w df = Raise e'.
Proof.
  intros H. unfold build_impacted_farmers_map, load_mg_geojson.
  rewrite H. destruct (map_frame w df); cbn; eauto.
Qed.



(* ===================================================================== *)
(** * filter_data: options, rows and what it keeps *)
(* ===================================================================== *)

Section FilterRun.
Variable w : World.

(** ** The order of strings *)

Lemma ascii_compare_lt_trans a b c :
  Ascii.compare a b = Lt -> Ascii.compare b c = Lt -> Ascii.compare a c = Lt.
Proof.
  unfold Ascii.compare. rewrite !N.compare_lt_iff. lia.
Qed.

Lemma string_leb_trans a : forall b c,
  String.leb a b = true -> String.leb b c = true -> String.leb a c = true.
Proof.
  unfold String.leb.
  induction a as [|ca a IH]; intros [|cb b] [|cc c]; simpl;
    try reflexivity; try discriminate.
  destruct (Ascii.compare ca cb) eqn:E1; try discriminate;
    destruct (Ascii.compare cb cc) eqn:E2; try discriminate; intros H1 H2.
  - apply Ascii.compare_eq_iff in E1, E2. subst cb cc.
    assert (E : Ascii.compare ca ca = Eq).
    { unfold Ascii.compare. apply N.compare_refl. }
    rewrite E. exact (IH _ _ H1 H2).
  - apply Ascii.compare_eq_iff in E1. subst cb. now rewrite E2.
  - apply Ascii.compare_eq_iff in E2. subst cc. now rewrite E1.
  - now rewrite (ascii_compare_lt_trans _ _ _ E1 E2).
Qed.

Lemma str_leb_total a b :
  is_str a = true -> is_str b = true ->
  str_leb a b = false -> str_leb b a = true.
Proof.
  destruct a as [|?|?|x], b as [|?|?|y]; try discriminate. simpl.
  intros _ _ H. destruct (String.leb_total x y) as [E|E]; congruence.
Qed.

Lemma str_leb_trans a b c :
  is_str a = true -> is_str b = true -> is_str c = true ->
  str_leb a b = true -> str_leb b c = true -> str_leb a c = true.
Proof.
  destruct a as [|?|?|x], b as [|?|?|y], c as [|?|?|t]; try discriminate.
  simpl. intros _ _ _. apply string_leb_trans.
Qed.

(** ** Lists *)

Lemma filter_pass {A : Type} (p : A -> bool) l :
  (forall a, p a = true) -> List.filter p l = l.
Proof.
  intros H. induction l as [|a l IH]; simpl; [reflexivity|].
  now rewrite H, IH.
Qed.

Lemma filter_same {A : Type} (p q : A -> bool) l :
  (forall a, p a = q a) -> List.filter p l = List.filter q l.
Proof.
  intros H. induction l as [|a l IH]; simpl; [reflexivity|].
  now rewrite H, IH.
Qed.

Lemma filter_twice {A : Type} (p q : A -> bool) l :
  List.filter q (List.filter p l) = List.filter (fun a => p a && q a) l.
Proof.
  induction l as [|a l IH]; simpl; [reflexivity|].
  destruct (p a); simpl; [|exact IH].
  destruct (q a); now rewrite IH.
Qed.

Lemma filter_some {A : Type} (p : A -> bool) l a :
  In a l -> p a = true -> List.filter p l <> [].
Proof.
  intros Hin Hp E.
  assert (Hf : In a (List.filter p l)) by (apply filter_In; now split).
  rewrite E in Hf. contradiction.
Qed.

(** ** The options *)

Lemma labels_listed s :
  forallb is_label s = true ->
  lists_labels (isort str_leb (unique (dropna s))) s.
Proof.
  intros Hl.
  pose proof (dropna_labels _ Hl) as Hstr.
  pose proof (unique_forallb is_str _ Hstr) as Hu.
  split; [|split].
  - apply (isort_sorted str_leb (fun c => is_str c = true)).
    + exact str_leb_total.
    + exact str_leb_trans.
    + apply List.Forall_forall. intros c Hc.
      exact (proj1 (forallb_forall _ _) Hu c Hc).
  - eapply Permutation.Permutation_NoDup.
    + symmetry. apply isort_perm.
    + now apply unique_nodup.
  - intros v. split.
    + intros Hv.
      apply (Permutation_in _ (isort_perm str_leb _)) in Hv.
      apply unique_subset in Hv. unfold dropna in Hv.
      apply filter_In in Hv as [Hin Hv]. split; [exact Hin|].
      now apply Bool.negb_true_iff.
    + intros [Hin Hna].
      apply (Permutation_in _ (Permutation_sym (isort_perm str_leb _))).
      apply unique_covers; [exact Hstr|].
      unfold dropna. apply filter_In. split; [exact Hin|]. now rewrite Hna.
Qed.

Lemma region_options_labels df rcol :
  lookup_col IMMEDIATE_REGION_COL df = Some rcol ->
  forallb is_label rcol = true ->
  region_options df
  = Ok (Str "Todas" :: isort str_leb (unique (dropna rcol))).
Proof.
  intros Hr Hl. unfold region_options, getitem. rewrite Hr. cbn.
  now rewrite (options_of_labels _ Hl).
Qed.

Lemma municipality_options_labels df mcol :
  lookup_col MUNICIPALITY_COL df = Some mcol ->
  forallb is_label mcol = true ->
  municipality_options df
  = Ok (Str "Todos" :: isort str_leb (unique (dropna mcol))).
Proof.
  intros Hm Hl. unfold municipality_options, getitem. rewrite Hm. cbn.
  now rewrite (options_of_labels _ Hl).
Qed.

(** ** The run of filter_data *)

Lemma filter_data_page df p regions region_df options :
  region_options df = Ok regions ->
  region_step df (selectbox w "Região Geográfica Imediata (2022)" regions)
  = Ok region_df ->
  municipality_options region_df = Ok options ->
  filter_data w df p
  = (municipality_step region_df
       (multiselect w "Município" options [Str "Todos"]),
     (p ++ sidebar_widgets regions options)%list).
Proof.
  intros Ho Hs Hm.
  unfold filter_data, mbind, ui_bind, ui_lift, draw.
  rewrite Ho, Hs, Hm. unfold sidebar_widgets.
  now rewrite <- !app_assoc.
Qed.

Lemma filter_data_run df rcol mcol p :
  rectangular df ->
  lookup_col IMMEDIATE_REGION_COL df = Some rcol ->
  forallb is_label rcol = true ->
  lookup_col MUNICIPALITY_COL df = Some mcol ->
  forallb is_label mcol = true ->
  exists regions region_df region_mcol options out,
    region_options df = Ok (Str "Todas" :: regions)
    /\ lists_labels regions rcol
    /\ region_step df
         (selectbox w "Região Geográfica Imediata (2022)" (Str "Todas" :: regions))
       = Ok region_df
    /\ narrowed df region_df
    /\ rectangular region_df
    /\ rows region_df
       = List.filter
           (in_region (selectbox w "Região Geográfica Imediata (2022)"
                         (Str "Todas" :: regions)))
           (rows df)
    /\ lookup_col MUNICIPALITY_COL region_df = Some region_mcol
    /\ forallb is_label region_mcol = true
    /\ municipality_options region_df = Ok (Str "Todos" :: options)
    /\ lists_labels options region_mcol
    /\ filter_data w df p
       = (Ok out,
          (p ++ sidebar_widgets (Str "Todas" :: regions)
                  (Str "Todos" :: options))%list)
    /\ narrowed region_df out
    /\ rectangular out
    /\ rows out
       = List.filter
           (in_municipalities
              (multiselect w "Município" (Str "Todos" :: options) [Str "Todos"]))
           (rows region_df).
Proof.
  intros Hrect Hr Hrl Hm Hml.
  set (regions := isort str_leb (unique (dropna rcol))).
  pose proof (region_options_labels df rcol Hr Hrl) as Hopts.
  fold regions in Hopts.
  set (sel := selectbox w "Região Geográfica Imediata (2022)"
                (Str "Todas" :: regions)).
  assert (Hregion : exists region_df region_mcol,
             region_step df sel = Ok region_df
             /\ narrowed df region_df
             /\ rectangular region_df
             /\ rows region_df = List.filter (in_region sel) (rows df)
             /\ lookup_col MUNICIPALITY_COL region_df = Some region_mcol
             /\ forallb is_label region_mcol = true).
  { destruct (scalar_eqb sel (Str "Todas")) eqn:Esel.
    - exists df, mcol. repeat split; try assumption.
      + unfold region_step. now rewrite Esel.
      + now left.
      + symmetry. apply filter_pass. intros r. unfold in_region.
        now rewrite Esel.
    - destruct (region_step_one df rcol sel Hrect Hr Esel) as [Hstep Hrows].
      exists (select_rows (series_eq rcol sel) df),
             (select (series_eq rcol sel) mcol).
      assert (Hlen : length (series_eq rcol sel) = nrows df).
      { unfold series_eq. rewrite length_map.
        exact (rectangular_column _ _ _ Hrect Hr). }
      repeat split.
      + exact Hstep.
      + right. now exists (series_eq rcol sel).
      + now apply select_rows_rectangular.
      + rewrite Hrows. apply filter_same. intros r. unfold in_region.
        now rewrite Esel.
      + now rewrite lookup_select_rows, Hm.
      + now apply select_forallb. }
  destruct Hregion
    as (region_df & region_mcol & Hstep & Hnar & Hrect' & Hrows & Hm' & Hml').
  set (options := isort str_leb (unique (dropna region_mcol))).
  pose proof (municipality_options_labels region_df region_mcol Hm' Hml')
    as Hmopts.
  fold options in Hmopts.
  set (chosen := multiselect w "Município" (Str "Todos" :: options) [Str "Todos"]).
  assert (Hout : exists out,
             municipality_step region_df chosen = Ok out
             /\ narrowed region_df out
             /\ rectangular out
             /\ rows out
                = List.filter (in_municipalities chosen) (rows region_df)).
  { destruct (neutral chosen) eqn:En.
    - exists region_df. repeat split; try assumption.
      + now apply municipality_step_neutral.
      + now left.
      + symmetry. apply filter_pass. intros r. unfold in_municipalities.
        now rewrite En.
    - destruct (municipality_step_some region_df region_mcol chosen
                  Hrect' Hm' En) as [Hms Hmrows].
      exists (select_rows (isin region_mcol chosen) region_df).
      assert (Hlen : length (isin region_mcol chosen) = nrows region_df).
      { unfold isin. rewrite length_map.
        exact (rectangular_column _ _ _ Hrect' Hm'). }
      repeat split.
      + exact Hms.
      + right. now exists (isin region_mcol chosen).
      + now apply select_rows_rectangular.
      + rewrite Hmrows. apply filter_same. intros r.
        unfold in_municipalities. now rewrite En. }
  destruct Hout as (out & Hms & Hnar' & Hrect'' & Hrows').
  exists regions, region_df, region_mcol, options, out.
  split; [exact Hopts|]. split; [now apply labels_listed|].
  split; [exact Hstep|]. split; [exact Hnar|]. split; [exact Hrect'|].
  split; [exact Hrows|]. split; [exact Hm'|]. split; [exact Hml'|].
  split; [exact Hmopts|]. split; [now apply labels_listed|].
  split; [|split; [exact Hnar'|split; [exact Hrect''|exact Hrows']]].
  rewrite (filter_data_page df p _ _ _ Hopts Hstep Hmopts).
  fold chosen. now rewrite Hms.
Qed.

(** ** What narrowing keeps *)

Lemma select_dtype msk s :
  dtype_of s <> object -> dtype_of (select msk s) <> object.
Proof.
  intros Hobj.
  destruct (dtype_cases s) as [[_ H]|[(_ & H & _)|[(_ & H & _)|[E _]]]];
    [| | |contradiction].
  - rewrite (dtype_all_int _ (select_forallb _ msk _ H)). discriminate.
  - destruct (dtype_all_float _ (select_forallb _ msk _ H)) as [E|E];
      rewrite E; discriminate.
  - destruct (dtype_all_int_or_na _ (select_forallb _ msk _ H)) as [E|E];
      rewrite E; discriminate.
Qed.

Lemma lookup_select_inv c msk df s' :
  lookup_col c (select_rows msk df) = Some s' ->
  exists s, lookup_col c df = Some s /\ s' = select msk s.
Proof.
  rewrite lookup_select_rows. destruct (lookup_col c df) as [s|]; simpl;
    [|discriminate].
  intros [= <-]. now exists s.
Qed.

Lemma cleaned_select_rows msk df : cleaned df -> cleaned (select_rows msk df).
Proof.
  intros (H1 & H2 & H3 & H4). repeat split.
  - intros c s' Hin (s & Hs & ->)%lookup_select_inv.
    apply select_dtype. exact (H1 c s Hin Hs).
  - intros s' (s & Hs & ->)%lookup_select_inv.
    apply select_forallb. exact (H2 s Hs).
  - intros c s' Hin (s & Hs & ->)%lookup_select_inv.
    apply select_forallb. exact (H3 c s Hin Hs).
  - intros s' (s & Hs & ->)%lookup_select_inv.
    apply select_forallb. exact (H4 s Hs).
Qed.

Lemma columns_select_rows msk df : columns (select_rows msk df) = columns df.
Proof.
  unfold columns, select_rows. rewrite List.map_map.
  apply List.map_ext. now intros [name s].
Qed.

Lemma has_col_select_rows c msk df :
  has_col c (select_rows msk df) = has_col c df.
Proof.
  unfold has_col. rewrite lookup_select_rows.
  now destruct (lookup_col c df).
Qed.

Lemma drawable_select_rows msk df :
  length msk = nrows df -> drawable df -> drawable (select_rows msk df).
Proof.
  intros Hlen (Hrect & Hclean & Hcols & Hr & Hm). repeat split.
  - now apply select_rows_rectangular.
  - now apply cleaned_select_rows.
  - now apply cleaned_select_rows.
  - now apply cleaned_select_rows.
  - now apply cleaned_select_rows.
  - rewrite <- Hcols. apply forallb_ext_in. intros c _.
    apply has_col_select_rows.
  - intros s' (s & Hs & ->)%lookup_select_inv.
    apply select_forallb. exact (Hr s Hs).
  - intros s' (s & Hs & ->)%lookup_select_inv.
    apply select_forallb. exact (Hm s Hs).
Qed.

Lemma narrowed_drawable df out :
  narrowed df out -> drawable df -> drawable out.
Proof.
  intros [->|(msk & Hlen & ->)]; [trivial | now apply drawable_select_rows].
Qed.

Lemma narrowed_columns df out : narrowed df out -> columns out = columns df.
Proof.
  intros [->|(msk & _ & ->)]; [reflexivity | apply columns_select_rows].
Qed.

End FilterRun.
(** ** The sample table and environment *)

Lemma sample_clean_drawable : drawable sample_clean.
Proof.
  split; [exact sample_clean_rectangular|].
  split; [exact sample_clean_cleaned|].
  split; [reflexivity|].
  split; intros s [= <-]; reflexivity.
Qed.

Lemma sample_world_chooses : chooses_among_options sample_world.
Proof.
  split.
  - intros label [|o options] Hne; [contradiction | now left].
  - intros label options default x Hd Hx. exact (Hd x Hx).
Qed.

(** X8.  The options of the two widgets are the sentinel followed by the
    labels of the column: in increasing order, each label once, and
    exactly the values of the column that are not missing. *)
Theorem filter_data_options (df : DataFrame) (rcol mcol : Series) :
  lookup_col IMMEDIATE_REGION_COL df = Some rcol ->
  forallb is_label rcol = true ->
  lookup_col MUNICIPALITY_COL df = Some mcol ->
  forallb is_label mcol = true ->
  exists regions municipalities,
    region_options df = Ok (Str "Todas" :: regions)
    /\ lists_labels regions rcol
    /\ municipality_options df = Ok (Str "Todos" :: municipalities)
    /\ lists_labels municipalities mcol.
Proof.
  intros Hr Hrl Hm Hml.
  exists (isort str_leb (unique (dropna rcol))),
         (isort str_leb (unique (dropna mcol))).
  split; [now apply region_options_labels|].
  split; [now apply labels_listed|].
  split; [now apply municipality_options_labels|].
  now apply labels_listed.
Qed.

Lemma filter_data_options_sample :
  exists regions municipalities,
    region_options region_gap_table = Ok (Str "Todas" :: regions)
    /\ lists_labels regions [Str "Viçosa"; Float S754_nan]
    /\ municipality_options region_gap_table
       = Ok (Str "Todos" :: municipalities)
    /\ lists_labels municipalities [Str "Viçosa"; Str "Ubá"].
Proof.
  apply (filter_data_options region_gap_table); reflexivity.
Defined.

(** X9.  On a table with label columns [filter_data] returns, whatever
    is chosen in the widgets: it draws the header and the two widgets in
    the sidebar, and its result holds exactly the rows of the table that
    pass both selections, in their order, under the same columns. *)
Theorem filter_data_rows (w : World) (df : DataFrame)
    (rcol mcol : Series) (p : page) :
  rectangular df ->
  lookup_col IMMEDIATE_REGION_COL df = Some rcol ->
  forallb is_label rcol = true ->
  lookup_col MUNICIPALITY_COL df = Some mcol ->
  forallb is_label mcol = true ->
  exists regions region_df options out,
    region_options df = Ok (Str "Todas" :: regions)
    /\ region_step df
         (selectbox w "Região Geográfica Imediata (2022)" (Str "Todas" :: regions))
       = Ok region_df
    /\ municipality_options region_df = Ok (Str "Todos" :: options)
    /\ filter_data w df p
       = (Ok out,
          (p ++ sidebar_widgets (Str "Todas" :: regions)
                  (Str "Todos" :: options))%list)
    /\ rows out
       = List.filter
           (fun r =>
              in_region
                (selectbox w "Região Geográfica Imediata (2022)"
                   (Str "Todas" :: regions)) r
              && in_municipalities
                   (multiselect w "Município" (Str "Todos" :: options)
                      [Str "Todos"]) r)
           (rows df)
    /\ columns out = columns df
    /\ rectangular out.
Proof.
  intros Hrect Hr Hrl Hm Hml.
  destruct (filter_data_run w df rcol mcol p Hrect Hr Hrl Hm Hml)
    as (regions & region_df & region_mcol & options & out & Hopts & _ & Hstep
        & Hnar & _ & Hrows & _ & _ & Hmopts & _ & Hrun & Hnar' & Hrect'
        & Hrows').
  exists regions, region_df, options, out.
  repeat split; try assumption.
  - now rewrite Hrows', Hrows, filter_twice.
  - rewrite (narrowed_columns _ _ Hnar'). exact (narrowed_columns _ _ Hnar).
Qed.

Lemma filter_data_rows_sample :
  exists regions region_df options out,
    region_options sample_clean = Ok (Str "Todas" :: regions)
    /\ region_step sample_clean
         (selectbox sample_world "Região Geográfica Imediata (2022)"
            (Str "Todas" :: regions))
       = Ok region_df
    /\ municipality_options region_df = Ok (Str "Todos" :: options)
    /\ filter_data sample_world sample_clean []
       = (Ok out,
          ([] ++ sidebar_widgets (Str "Todas" :: regions)
                   (Str "Todos" :: options))%list)
    /\ rows out
       = List.filter
           (fun r =>
              in_region
                (selectbox sample_world "Região Geográfica Imediata (2022)"
                   (Str "Todas" :: regions)) r
              && in_municipalities
                   (multiselect sample_world "Município"
                      (Str "Todos" :: options) [Str "Todos"]) r)
           (rows sample_clean)
    /\ columns out = columns sample_clean
    /\ rectangular out.
Proof.
  apply (filter_data_rows sample_world sample_clean
           [Str "Viçosa"; Str "Ubá"; Str "Muriaé"]
           [Str "Viçosa"; Str "Ubá"; Str "Muriaé"] []);
    [exact sample_clean_rectangular | reflexivity | reflexivity
     | reflexivity | reflexivity].
Defined.

(** X10.  [filter_data] keeps a table the dashboard can draw as one: its
    result is again rectangular and cleaned, has the columns the
    dashboard reads, and text or missing values in the label columns. *)
Theorem filter_data_keeps_drawable (w : World) (df : DataFrame) (p : page) :
  drawable df ->
  exists out, fst (filter_data w df p) = Ok out /\ drawable out.
Proof.
  intros Hd.
  pose proof Hd as (Hrect & _ & Hcols & Hrl & Hml).
  assert (Hr : exists rcol, lookup_col IMMEDIATE_REGION_COL df = Some rcol).
  { cbn [forallb DASHBOARD_COLUMNS] in Hcols. unfold has_col in Hcols.
    destruct (lookup_col IMMEDIATE_REGION_COL df) as [rcol|]; [eauto|].
    rewrite !andb_false_r in Hcols. discriminate. }
  assert (Hm : exists mcol, lookup_col MUNICIPALITY_COL df = Some mcol).
  { cbn [forallb DASHBOARD_COLUMNS] in Hcols. unfold has_col in Hcols.
    destruct (lookup_col MUNICIPALITY_COL df) as [mcol|]; [eauto|].
    rewrite !andb_false_r in Hcols. discriminate. }
  destruct Hr as (rcol & Hr), Hm as (mcol & Hm).
  destruct (filter_data_run w df rcol mcol p Hrect Hr (Hrl _ Hr) Hm (Hml _ Hm))
    as (regions & region_df & region_mcol & options & out & _ & _ & _
        & Hnar & _ & _ & _ & _ & _ & _ & Hrun & Hnar' & _).
  exists out. rewrite Hrun. split; [reflexivity|].
  apply (narrowed_drawable _ _ Hnar'), (narrowed_drawable _ _ Hnar), Hd.
Qed.

Lemma filter_data_keeps_drawable_sample :
  exists out, fst (filter_data sample_world sample_clean []) = Ok out
              /\ drawable out.
Proof.
  apply (filter_data_keeps_drawable sample_world sample_clean []).
  exact sample_clean_drawable.
Defined.

Lemma label_row df c s v :
  rectangular df -> lookup_col c df = Some s -> In v s ->
  exists r, In r (rows df) /\ cell c r = v.
Proof.
  intros Hrect Hs Hv. rewrite <- (column_of_rows c df s Hrect Hs) in Hv.
  apply in_map_iff in Hv as (r & Hc & Hr). eauto.
Qed.

Lemma present_label v s :
  forallb is_label s = true -> In v s -> isna v = false -> is_str v = true.
Proof.
  intros Hl Hin Hna. rewrite forallb_forall in Hl. specialize (Hl v Hin).
  destruct v; simpl in *; congruence.
Qed.

Lemma filter_data_has_row (w : World) (df : DataFrame)
    (rcol mcol : Series) (p : page) :
  chooses_among_options w ->
  rectangular df ->
  lookup_col IMMEDIATE_REGION_COL df = Some rcol ->
  forallb is_label rcol = true ->
  lookup_col MUNICIPALITY_COL df = Some mcol ->
  forallb is_label mcol = true ->
  nrows df <> 0%nat ->
  exists out, fst (filter_data w df p) = Ok out /\ df_empty out = false.
Proof.
  intros [Hsel Hmul] Hrect Hr Hrl Hm Hml Hrows0.
  destruct (filter_data_run w df rcol mcol p Hrect Hr Hrl Hm Hml)
    as (regions & region_df & region_mcol & options & out & _ & Hlist & _
        & _ & Hrect' & Hrows & Hm' & Hml' & _ & Hlist' & Hrun & _ & _
        & Hrows').
  exists out. rewrite Hrun. split; [reflexivity|].
  unfold df_empty. apply Nat.eqb_neq. rewrite <- length_rows, Hrows'.
  assert (Hne : rows region_df <> []).
  { rewrite Hrows.
    set (sel := selectbox w "Região Geográfica Imediata (2022)"
                  (Str "Todas" :: regions)).
    destruct (scalar_eqb sel (Str "Todas")) eqn:Esel.
    - rewrite filter_pass.
      + intros E. apply Hrows0. now rewrite <- length_rows, E.
      + intros r. unfold in_region. now rewrite Esel.
    - assert (Hin : In sel (Str "Todas" :: regions)).
      { apply Hsel. discriminate. }
      destruct Hin as [E|Hin].
      { rewrite <- E in Esel. simpl in Esel. discriminate. }
      apply Hlist in Hin as [Hin Hna].
      destruct (label_row df _ _ _ Hrect Hr Hin) as (r & Hrin & Hcell).
      apply (filter_some _ _ r Hrin). unfold in_region.
      rewrite Hcell, (eqb_string_refl sel (present_label _ _ Hrl Hin Hna)).
      apply orb_true_r. }
  set (chosen := multiselect w "Município" (Str "Todos" :: options) [Str "Todos"]).
  intros E. apply length_zero_iff_nil in E. revert E.
  destruct (neutral chosen) eqn:En.
  - rewrite filter_pass; [exact Hne|].
    intros r. unfold in_municipalities. now rewrite En.
  - destruct chosen as [|x rest] eqn:Ec; [discriminate|].
    assert (Hx : In x (Str "Todos" :: options)).
    { apply (Hmul "Município" (Str "Todos" :: options) [Str "Todos"] x).
      - intros y [<-|[]]. now left.
      - fold chosen. rewrite Ec. now left. }
    destruct Hx as [E|Hx].
    { subst x. simpl in En. discriminate. }
    apply Hlist' in Hx as [Hin Hna].
    destruct (label_row region_df _ _ _ Hrect' Hm' Hin) as (r & Hrin & Hcell).
    apply (filter_some _ _ r Hrin). unfold in_municipalities.
    cbn [existsb]. rewrite Hcell.
    rewrite (same_refl_string x (present_label _ _ Hml' Hin Hna)).
    cbn. apply orb_true_r.
Qed.

(** X11.  When the selections are taken among the options shown, as
    Streamlit's widgets do, and the table has a row, the table
    [filter_data] returns has a row: every region and every municipality
    on offer is met by some row. *)
Theorem filter_data_nonempty (w : World) (df : DataFrame)
    (rcol mcol : Series) (p : page) :
  chooses_among_options w ->
  rectangular df ->
  lookup_col IMMEDIATE_REGION_COL df = Some rcol ->
  forallb is_label rcol = true ->
  lookup_col MUNICIPALITY_COL df = Some mcol ->
  forallb is_label mcol = true ->
  nrows df <> 0%nat ->
  exists out, fst (filter_data w df p) = Ok out /\ df_empty out = false.
Proof. exact (filter_data_has_row w df rcol mcol p). Qed.

Lemma filter_data_nonempty_sample :
  exists out, fst (filter_data sample_world sample_clean []) = Ok out
              /\ df_empty out = false.
Proof.
  apply (filter_data_nonempty sample_world sample_clean
           [Str "Viçosa"; Str "Ubá"; Str "Muriaé"]
           [Str "Viçosa"; Str "Ubá"; Str "Muriaé"] []);
    [exact sample_world_chooses | exact sample_clean_rectangular
     | reflexivity | reflexivity | reflexivity | reflexivity | discriminate].
Defined.

(* ===================================================================== *)
(** * render_dashboard and the charts on a cleaned table *)
(* ===================================================================== *)

Section Dashboard.
Variable w : World.

Lemma has_col_lookup c df :
  has_col c df = true -> exists s, lookup_col c df = Some s.
Proof.
  unfold has_col. destruct (lookup_col c df) as [s|]; [eauto | discriminate].
Qed.

Lemma drawable_column df c :
  drawable df -> In c DASHBOARD_COLUMNS ->
  exists s, lookup_col c df = Some s.
Proof.
  intros (_ & _ & Hcols & _) Hin. apply has_col_lookup.
  rewrite forallb_forall in Hcols. now apply Hcols.
Qed.

Lemma column_sum c df s :
  rectangular df -> lookup_col c df = Some s ->
  fold_right Z.add 0 (map int_value s) = column_total c df.
Proof.
  intros Hrect Hs. unfold column_total.
  rewrite <- (column_of_rows _ _ _ Hrect Hs) at 1.
  now rewrite List.map_map.
Qed.

Lemma int_column_total c df s :
  rectangular df -> lookup_col c df = Some s -> forallb is_int s = true ->
  (total ← series_sum w s; py_int total)
  = Ok (F64.wrap64 (column_total c df)).
Proof.
  intros Hrect Hs Hi. rewrite (series_sum_integers w s Hi).
  cbn [mbind result_bind py_int]. now rewrite (column_sum c df s Hrect Hs).
Qed.

(** ** The indicators and the donut *)

Lemma kpi_values_drawable df :
  drawable df ->
  kpi_values w df
  = Ok (F64.wrap64 (column_total AF_COL df), credit_total w df,
        F64.wrap64 (column_total WOMEN_COL df),
        distinct_count MUNICIPALITY_COL df).
Proof.
  intros Hd.
  destruct (drawable_column df AF_COL Hd) as (af & Haf); [simpl; tauto|].
  destruct (drawable_column df CREDIT_COL Hd) as (credit & Hcr); [simpl; tauto|].
  destruct (drawable_column df WOMEN_COL Hd) as (women & Hwo); [simpl; tauto|].
  destruct (drawable_column df MUNICIPALITY_COL Hd) as (mun & Hmu);
    [simpl; tauto|].
  destruct Hd as (Hrect & (_ & Hcredit & Hint & _) & _).
  unfold kpi_values, getitem. rewrite Haf, Hcr, Hwo, Hmu.
  cbn [mbind result_bind].
  rewrite (series_sum_integers w af)
    by (apply (Hint AF_COL); [simpl; tauto | exact Haf]).
  cbn [mbind result_bind py_int].
  destruct (series_sum_reals w credit (Hcredit _ Hcr)) as (credit_sum & Hs1 & Hs2).
  rewrite Hs1. cbn [mbind result_bind]. rewrite Hs2. cbn [mbind result_bind].
  rewrite (series_sum_integers w women)
    by (apply (Hint WOMEN_COL); [simpl; tauto | exact Hwo]).
  cbn [mbind result_bind py_int].
  unfold column_total, credit_total, distinct_count, nunique.
  rewrite <- (column_of_rows _ _ _ Hrect Haf) at 1.
  rewrite <- (column_of_rows _ _ _ Hrect Hwo) at 1.
  rewrite <- (column_of_rows _ _ _ Hrect Hmu) at 1.
  rewrite <- (column_of_rows _ _ _ Hrect Hcr).
  rewrite !List.map_map.
  destruct (rows df); reflexivity.
Qed.

Lemma build_gender_donut_drawable df :
  drawable df ->
  build_gender_donut w df
  = Ok (Pie (gender_frame (F64.wrap64 (column_total WOMEN_COL df))
                          (F64.wrap64 (column_total MEN_COL df)))).
Proof.
  intros Hd.
  destruct (drawable_column df WOMEN_COL Hd) as (women & Hwo); [simpl; tauto|].
  destruct (drawable_column df MEN_COL Hd) as (men & Hme); [simpl; tauto|].
  destruct Hd as (Hrect & (_ & _ & Hint & _) & _).
  unfold build_gender_donut, getitem. rewrite Hwo, Hme.
  cbn [mbind result_bind].
  rewrite (series_sum_integers w women)
    by (apply (Hint WOMEN_COL); [simpl; tauto | exact Hwo]).
  cbn [mbind result_bind py_int].
  rewrite (series_sum_integers w men)
    by (apply (Hint MEN_COL); [simpl; tauto | exact Hme]).
  cbn [mbind result_bind py_int].
  now rewrite (column_sum _ _ _ Hrect Hwo), (column_sum _ _ _ Hrect Hme).
Qed.

(** ** The map *)

Lemma map_frame_drawable df :
  drawable df ->
  exists ibge mun af,
    lookup_col IBGE_COL df = Some ibge
    /\ lookup_col MUNICIPALITY_COL df = Some mun
    /\ lookup_col AF_COL df = Some af
    /\ map_frame w df = Ok (keyed_frame ibge mun af).
Proof.
  intros Hd.
  destruct (drawable_column df IBGE_COL Hd) as (ibge & Hibge); [simpl; tauto|].
  destruct (drawable_column df MUNICIPALITY_COL Hd) as (mun & Hmun);
    [simpl; tauto|].
  destruct (drawable_column df AF_COL Hd) as (af & Haf); [simpl; tauto|].
  destruct Hd as (_ & (_ & _ & _ & Hid) & _).
  pose proof (select_present_ints _ (Hid _ Hibge)) as Hints.
  exists ibge, mun, af. repeat split; try assumption.
  unfold map_frame, getitems, traverse, getitem.
  rewrite Hibge, Hmun, Haf. cbn [mbind result_bind lookup_col].
  rewrite String.eqb_refl. cbn [mbind result_bind select_rows map lookup_col].
  rewrite String.eqb_refl. cbn [mbind result_bind].
  unfold astype_int. rewrite (dtype_all_int _ Hints). cbn [mbind result_bind].
  cbn [setitem]. rewrite String.eqb_refl.
  rewrite (astype_str_ints _ Hints). unfold str_zfill. rewrite List.map_map.
  reflexivity.
Qed.

Lemma map_drawable df :
  drawable df ->
  exists ibge mun af,
    lookup_col IBGE_COL df = Some ibge
    /\ lookup_col MUNICIPALITY_COL df = Some mun
    /\ lookup_col AF_COL df = Some af
    /\ build_impacted_farmers_map w df
       = match load_mg_geojson w with
         | Ok boundaries =>
             Ok (ChoroplethMapbox (keyed_frame ibge mun af) boundaries)
         | Raise e => Raise e
         end.
Proof.
  intros Hd.
  destruct (map_frame_drawable df Hd) as (ibge & mun & af & H1 & H2 & H3 & Hm).
  exists ibge, mun, af. repeat split; try assumption.
  unfold build_impacted_farmers_map. rewrite Hm. cbn [mbind result_bind].
  destruct (load_mg_geojson w); reflexivity.
Qed.

(** ** The ten largest *)

Lemma top_10_indices df credit :
  lookup_col CREDIT_COL df = Some credit ->
  forallb is_real credit = true ->
  exists idx order,
    top_10 df = Ok (take_rows idx df)
    /\ Permutation idx (firstn 10 order)
    /\ Permutation order (seq 0 (length credit)).
Proof.
  intros Hcol Hreal.
  set (n := length credit).
  set (key := fun i => nth i credit NA).
  set (order1 := isort (fun i j => num_leb (key j) (key i)) (seq 0 n)).
  set (idx1 := firstn 10 order1).
  assert (Hkey : forall i, (i < n)%nat -> is_real (key i) = true)
    by (intros i Hi; now apply nth_forallb).
  assert (Hperm1 : Permutation order1 (seq 0 n)) by apply isort_perm.
  assert (Hlargest : nlargest 10 CREDIT_COL df = Ok (take_rows idx1 df)).
  { unfold nlargest, getitem. rewrite Hcol. cbn [mbind result_bind].
    rewrite (positions_all (fun c => negb (isna c)) credit)
      by (revert Hreal; apply forallb_weaken; intros []; simpl; congruence).
    rewrite (positions_none is_real isna credit)
      by (exact Hreal || (intros []; simpl; try congruence;
                          intros H; now apply negb_true_iff in H)).
    rewrite app_nil_r.
    destruct (dtype_all_float _ (real_is_float _ Hreal)) as [E|E]; rewrite E;
      reflexivity. }
  set (credit1 := map key idx1).
  assert (Hcol1 : lookup_col CREDIT_COL (take_rows idx1 df) = Some credit1)
    by now rewrite lookup_take_rows, Hcol.
  assert (Hreal1 : forallb is_real credit1 = true).
  { apply forallb_forall. intros c Hc.
    apply in_map_iff in Hc as (i & <- & Hi). apply Hkey.
    apply in_firstn in Hi.
    apply (Permutation_in _ Hperm1), in_seq in Hi. lia. }
  set (key1 := fun j => nth j credit1 NA).
  set (order2 := isort (fun i j => num_leb (key1 i) (key1 j))
                       (seq 0 (length credit1))).
  assert (Hperm2 : Permutation order2 (seq 0 (length credit1)))
    by apply isort_perm.
  assert (Hlen_c1 : length credit1 = length idx1) by apply length_map.
  assert (Hin2 : forall j, In j order2 -> (j < length idx1)%nat).
  { intros j Hj. apply (Permutation_in _ Hperm2), in_seq in Hj. lia. }
  assert (Hsort : sort_values CREDIT_COL (take_rows idx1 df)
                  = Ok (take_rows order2 (take_rows idx1 df))).
  { unfold sort_values, getitem. rewrite Hcol1. cbn [mbind result_bind].
    rewrite (real_dropna _ Hreal1), (real_is_number _ Hreal1).
    cbn [mbind result_bind].
    rewrite (positions_all (fun c => negb (isna c)) credit1)
      by (revert Hreal1; apply forallb_weaken; intros []; simpl; congruence).
    rewrite (positions_none is_real isna credit1)
      by (exact Hreal1 || (intros []; simpl; try congruence;
                           intros H; now apply negb_true_iff in H)).
    now rewrite app_nil_r. }
  exists (map (fun j => nth j idx1 0%nat) order2), order1.
  split; [|split; [|exact Hperm1]].
  - unfold top_10. rewrite Hlargest. cbn [mbind result_bind].
    rewrite Hsort. f_equal. now apply take_rows_compose.
  - rewrite Hperm2, Hlen_c1. now rewrite map_nth_seq.
Qed.

Lemma bar_drawable df :
  drawable df ->
  exists top, top_10 df = Ok top
              /\ build_credit_concentration_chart df = Ok (Bar top).
Proof.
  intros Hd.
  destruct (drawable_column df CREDIT_COL Hd) as (credit & Hcr); [simpl; tauto|].
  destruct (drawable_column df MUNICIPALITY_COL Hd) as (mun & Hmu);
    [simpl; tauto|].
  destruct Hd as (_ & (_ & Hcredit & _) & _).
  destruct (top_10_indices df credit Hcr (Hcredit _ Hcr))
    as (idx & order & Htop & _).
  exists (take_rows idx df). split; [exact Htop|].
  unfold build_credit_concentration_chart, px_check. rewrite Htop.
  cbn [mbind result_bind forallb]. unfold has_col.
  now rewrite !lookup_take_rows, Hcr, Hmu.
Qed.

Lemma scatter_drawable df :
  drawable df -> build_vulnerability_scatter df = Ok (Scatter df).
Proof.
  intros Hd. unfold build_vulnerability_scatter, px_check.
  assert (Hall : forallb (fun c => has_col c df)
                   [AF_COL; CREDIT_COL; CAF_PF_COL; IMMEDIATE_REGION_COL;
                    MUNICIPALITY_COL] = true).
  { apply forallb_forall. intros c Hc.
    destruct (drawable_column df c Hd) as (s & Hs).
    - simpl in Hc. simpl. tauto.
    - unfold has_col. now rewrite Hs. }
  now rewrite Hall.
Qed.

(** ** The page *)

Lemma render_dashboard_page df v bar donut p :
  kpi_values w df = Ok v ->
  build_credit_concentration_chart df = Ok bar ->
  build_vulnerability_scatter df = Ok (Scatter df) ->
  build_gender_donut w df = Ok donut ->
  render_dashboard w df p
  = (Ok tt,
     (p ++ dashboard_page w df v (build_impacted_farmers_map w df) bar donut)%list).
Proof.
  intros Hkpi Hbar Hscatter Hdonut.
  unfold render_dashboard, render_kpis, plotly_chart, try_except,
    mbind, ui_bind, ui_lift, draw, dashboard_page, kpi_metrics, map_column.
  rewrite Hkpi, Hbar, Hscatter, Hdonut.
  destruct v as [[[agricultores credito] mulheres] municipios].
  destruct (build_impacted_farmers_map w df); cbn [fst snd];
    f_equal; repeat rewrite <- app_assoc; reflexivity.
Qed.

End Dashboard.

(** X12.  On a table the dashboard can draw, [render_dashboard] always
    returns.  The page holds the map when it could be built, and the
    warning followed by the credit concentration chart when it could not;
    in both cases the four indicators, the scatter of the table itself, the
    credit concentration chart, the donut, the table and the export
    button are drawn, in this order. *)
Theorem render_dashboard_total (w : World) (df : DataFrame) (p : page) :
  drawable df ->
  exists v top donut,
    kpi_values w df = Ok v
    /\ top_10 df = Ok top
    /\ build_gender_donut w df = Ok donut
    /\ render_dashboard w df p
       = (Ok tt,
          (p ++ dashboard_page w df v (build_impacted_farmers_map w df)
                  (Bar top) donut)%list).
Proof.
  intros Hd.
  destruct (bar_drawable df Hd) as (top & Htop & Hbar).
  eexists _, top, _.
  split; [exact (kpi_values_drawable w df Hd)|].
  split; [exact Htop|].
  split; [exact (build_gender_donut_drawable w df Hd)|].
  apply render_dashboard_page.
  - exact (kpi_values_drawable w df Hd).
  - exact Hbar.
  - exact (scatter_drawable df Hd).
  - exact (build_gender_donut_drawable w df Hd).
Qed.

Lemma render_dashboard_total_sample :
  exists v top donut,
    kpi_values sample_world sample_clean = Ok v
    /\ top_10 sample_clean = Ok top
    /\ build_gender_donut sample_world sample_clean = Ok donut
    /\ render_dashboard sample_world sample_clean []
       = (Ok tt,
          ([] ++ dashboard_page sample_world sample_clean v
                   (build_impacted_farmers_map sample_world sample_clean)
                   (Bar top) donut)%list).
Proof.
  apply (render_dashboard_total sample_world sample_clean []).
  exact sample_clean_drawable.
Defined.

(** X13.  On a table the dashboard can draw, building the map fails only
    when the boundary document cannot be had: the table of the map is
    always built, holding the rows with an identifier under the zero-filled
    key, and the map is drawn over it with the document loaded. *)
Theorem build_map_outcome (w : World) (df : DataFrame) :
  drawable df ->
  exists ibge mun af,
    lookup_col IBGE_COL df = Some ibge
    /\ lookup_col MUNICIPALITY_COL df = Some mun
    /\ lookup_col AF_COL df = Some af
    /\ build_impacted_farmers_map w df
       = match load_mg_geojson w with
         | Ok boundaries =>
             Ok (ChoroplethMapbox (keyed_frame ibge mun af) boundaries)
         | Raise e => Raise e
         end.
Proof. exact (map_drawable w df). Qed.

Lemma build_map_outcome_sample :
  exists ibge mun af,
    lookup_col IBGE_COL sample_clean = Some ibge
    /\ lookup_col MUNICIPALITY_COL sample_clean = Some mun
    /\ lookup_col AF_COL sample_clean = Some af
    /\ build_impacted_farmers_map sample_world sample_clean
       = match load_mg_geojson sample_world with
         | Ok boundaries =>
             Ok (ChoroplethMapbox (keyed_frame ibge mun af) boundaries)
         | Raise e => Raise e
         end.
Proof.
  apply (build_map_outcome sample_world sample_clean).
  exact sample_clean_drawable.
Defined.

(** X14.  On a table the dashboard can draw, the two quantities of the
    donut are the int64 sums of the women and men columns over the rows,
    and the women quantity is the number the third indicator shows. *)
Theorem build_gender_donut_totals (w : World) (df : DataFrame) :
  drawable df ->
  build_gender_donut w df
  = Ok (Pie (gender_frame (F64.wrap64 (column_total WOMEN_COL df))
                          (F64.wrap64 (column_total MEN_COL df))))
  /\ exists agricultores credito municipios,
       kpi_values w df
       = Ok (agricultores, credito,
             F64.wrap64 (column_total WOMEN_COL df), municipios).
Proof.
  intros Hd. split; [exact (build_gender_donut_drawable w df Hd)|].
  eexists _, _, _. exact (kpi_values_drawable w df Hd).
Qed.

Lemma build_gender_donut_totals_sample :
  build_gender_donut sample_world sample_clean
  = Ok (Pie (gender_frame (F64.wrap64 (column_total WOMEN_COL sample_clean))
                          (F64.wrap64 (column_total MEN_COL sample_clean))))
  /\ exists agricultores credito municipios,
       kpi_values sample_world sample_clean
       = Ok (agricultores, credito,
             F64.wrap64 (column_total WOMEN_COL sample_clean), municipios).
Proof.
  apply (build_gender_donut_totals sample_world sample_clean).
  exact sample_clean_drawable.
Defined.

(** X15.  On a table of at most ten rows the credit concentration chart
    leaves no row out: the rows of [top_10] are the rows of the table in
    another order. *)
Theorem top_10_small_table (df : DataFrame) (credit : Series) :
  rectangular df ->
  lookup_col CREDIT_COL df = Some credit ->
  forallb is_real credit = true ->
  (length credit <= 10)%nat ->
  exists top, top_10 df = Ok top /\ Permutation (rows top) (rows df).
Proof.
  intros Hrect Hcol Hreal Hlen.
  destruct (top_10_indices df credit Hcol Hreal)
    as (idx & order & Htop & Hidx & Horder).
  exists (take_rows idx df). split; [exact Htop|].
  rewrite rows_take_rows by (intros ->; discriminate).
  unfold rows. apply Permutation_map.
  rewrite <- (rectangular_column _ _ _ Hrect Hcol).
  rewrite Hidx, firstn_all2; [exact Horder|].
  rewrite (Permutation_length Horder), length_seq. exact Hlen.
Qed.

Lemma top_10_small_table_sample :
  exists top, top_10 sample_clean = Ok top
              /\ Permutation (rows top) (rows sample_clean).
Proof.
  apply (top_10_small_table sample_clean
           [Float (F64.of_Z 1500); Float F64.zero; Float (F64.of_Z 700)]);
    [exact sample_clean_rectangular | reflexivity | reflexivity
     | simpl; lia].
Defined.

(* ===================================================================== *)
(** * load_data and main: the run of the script *)
(* ===================================================================== *)

Section RunFacts.
Variable files : Files.
Variable w : World.

Lemma configure_page_run s :
  configure_page s
  = (Returned tt,
     {| objects := objects s; screen := (screen s ++ page_head)%list |}).
Proof.
  unfold configure_page, show, mbind, run_bind, page_head. cbn.
  now rewrite <- !app_assoc.
Qed.

Lemma load_data_run path s :
  load_data files w path s
  = match read_csv files path with
    | ReadTable d =>
        match preprocess_data w (length (objects s)) (objects s ++ [d])%list with
        | (Ok r, h) => (Returned r, {| objects := h; screen := screen s |})
        | (Raise e, h) =>
            (Raised (LibraryError e), {| objects := h; screen := screen s |})
        end
    | ReadNotFound => (Raised FileNotFoundError, s)
    | ReadFailure e => (Raised (LibraryError e), s)
    end.
Proof.
  unfold load_data, try_except_not_found, pd_read_csv, throw, on_heap,
    mbind, run_bind.
  destruct (read_csv files path); reflexivity.
Qed.

Lemma load_data_cleaning path s d :
  read_csv files path = ReadTable d ->
  load_data files w path s
  = match run_steps (cleaning_steps w) d with
    | (Ok _, d') =>
        (Returned (S (length (objects s))),
         {| objects := (objects s ++ [d; d'])%list; screen := screen s |})
    | (Raise e, d') =>
        (Raised (LibraryError e),
         {| objects := (objects s ++ [d; d'])%list; screen := screen s |})
    end.
Proof.
  intros Hread. rewrite load_data_run, Hread.
  rewrite (preprocess_data_run w _ _ d (heap_lookup_last _ _)).
  rewrite length_app, Nat.add_1_r, <- app_assoc. cbn [app].
  destruct (run_steps (cleaning_steps w) d) as [[[]|e] d']; reflexivity.
Qed.

Lemma main_after_load s d d' :
  read_csv files (DATA_FILE files) = ReadTable d ->
  run_steps (cleaning_steps w) d = (Ok tt, d') ->
  main files w s = after_load w s d d'.
Proof.
  intros Hread Hclean.
  unfold main, mbind at 1, run_bind at 1. rewrite configure_page_run.
  unfold try_except_not_found, mbind at 1, run_bind at 1.
  rewrite (load_data_cleaning _ _ d Hread), Hclean. cbn [objects screen].
  unfold on_heap at 1, deref, mbind at 1, run_bind at 1. cbn [objects screen].
  assert (Hd' : @lookup ref DataFrame heap _ (S (length (objects s)))
                  (objects s ++ [d; d'])%list = Some d').
  { change [d; d'] with ([d] ++ [d'])%list. rewrite app_assoc.
    replace (S (length (objects s))) with (length (objects s ++ [d])%list)
      by (rewrite length_app; simpl; lia).
    apply heap_lookup_last. }
  rewrite Hd'.
  unfold after_load, on_page, mbind, run_bind, show, st_stop, throw,
    empty_warning, mret, run_ret.
  destruct (filter_data w d' []) as [[out|e] p]; cbn [objects screen];
    [|now rewrite <- app_assoc].
  destruct (df_empty out); cbn [objects screen].
  - now rewrite <- !app_assoc.
  - destruct (render_dashboard w out []) as [[[]|e] q]; cbn [objects screen];
      now rewrite <- !app_assoc.
Qed.

End RunFacts.

(** ** Tables of the same shape *)

Lemma rectangular_shape d :
  rectangular d <-> Forall (fun x : string * nat => snd x = nrows d) (shape d).
Proof.
  unfold rectangular, shape. rewrite List.Forall_map.
  split; apply List.Forall_impl; now intros [name s].
Qed.

Lemma shape_rectangular d d' :
  shape d' = shape d -> rectangular d -> rectangular d'.
Proof.
  intros Hs Hr. apply rectangular_shape.
  rewrite Hs, (shape_nrows _ _ Hs). now apply rectangular_shape.
Qed.

(** ** A well-formed file *)

Lemma well_formed_cleaning (w : World) (d : DataFrame) :
  well_formed w d ->
  exists d', run_steps (cleaning_steps w) d = (Ok tt, d')
             /\ drawable d' /\ nrows d' = nrows d.
Proof.
  intros (Hrect & Hcols & Hrl & Hml & Hcount & Hid).
  destruct (run_steps_accepted w d Hcount Hid) as (d' & R).
  exists d'. split; [exact R|].
  assert (Hshape : shape d' = shape d).
  { pose proof (run_steps_shape _ (cleaning_steps_keep_length w) d) as H.
    now rewrite R in H. }
  split; [|exact (shape_nrows _ _ Hshape)].
  split; [exact (shape_rectangular _ _ Hshape Hrect)|].
  split; [exact (run_steps_cleaned w _ _ R)|].
  split; [|split].
  - rewrite <- Hcols. apply forallb_ext_in. intros c _. unfold has_col.
    destruct (lookup_col c d) as [s|] eqn:E.
    + destruct (shape_lookup d d' c s (eq_sym Hshape) E) as (s' & -> & _).
      reflexivity.
    + pose proof (run_steps_lookup _ _ _ R c) as Hl. rewrite E in Hl.
      now rewrite Hl.
  - intros s' Hs'.
    pose proof (run_steps_lookup _ _ _ R IMMEDIATE_REGION_COL) as Hl.
    destruct (lookup_col IMMEDIATE_REGION_COL d) as [s|] eqn:E;
      [|rewrite Hl in Hs'; discriminate].
    destruct Hl as (s1 & Hc & Hl). rewrite column_steps_region in Hc.
    injection Hc as <-. rewrite Hl in Hs'. injection Hs' as <-.
    exact (Hrl s eq_refl).
  - intros s' Hs'.
    pose proof (run_steps_lookup _ _ _ R MUNICIPALITY_COL) as Hl.
    destruct (lookup_col MUNICIPALITY_COL d) as [s|] eqn:E;
      [|rewrite Hl in Hs'; discriminate].
    destruct Hl as (s1 & Hc & Hl). rewrite column_steps_municipality in Hc.
    injection Hc as <-. rewrite Hl in Hs'. injection Hs' as <-.
    exact (Hml s eq_refl).
Qed.

Lemma sample_raw_well_formed : well_formed sample_world sample_raw.
Proof.
  split; [repeat constructor|].
  split; [reflexivity|].
  split; [intros s [= <-]; reflexivity|].
  split; [intros s [= <-]; reflexivity|].
  split.
  - intros c s Hin Hs. simpl in Hin.
    repeat (destruct Hin as [<-|Hin];
            [vm_compute in Hs; injection Hs as <-; vm_compute; reflexivity|]).
    contradiction.
  - intros s Hs. vm_compute in Hs. injection Hs as <-. vm_compute. reflexivity.
Qed.

(** ** A file without rows *)

Lemma no_rows_lookup d c s : no_rows d -> lookup_col c d = Some s -> s = [].
Proof.
  unfold no_rows. induction d as [|[name t] rest IH]; simpl; [discriminate|].
  intros H. apply Forall_cons_1 in H as [Ht Hrest]. simpl in Ht.
  destruct (String.eqb name c); [now intros [= <-] | now apply IH].
Qed.

Lemma no_rows_select msk d : no_rows d -> select_rows msk d = d.
Proof.
  unfold no_rows, select_rows. induction d as [|[name t] rest IH]; simpl;
    [reflexivity|].
  intros H. apply Forall_cons_1 in H as [Ht Hrest]. simpl in Ht. subst t.
  rewrite (IH Hrest). now destruct msk.
Qed.

Lemma no_rows_cleaning (w : World) d :
  no_rows d -> run_steps (cleaning_steps w) d = (Ok tt, d).
Proof.
  intros Hno. apply run_steps_fixed.
  unfold cleaning_steps, NUMERIC_COLUMNS, INTEGER_COLUMNS. cbn [map app].
  repeat constructor; cbn [fst snd]; intros s Hs;
    rewrite (no_rows_lookup _ _ _ Hno Hs); reflexivity.
Qed.

Lemma no_rows_filter (w : World) d rcol mcol p :
  no_rows d ->
  lookup_col IMMEDIATE_REGION_COL d = Some rcol ->
  lookup_col MUNICIPALITY_COL d = Some mcol ->
  filter_data w d p
  = (Ok d, (p ++ sidebar_widgets [Str "Todas"] [Str "Todos"])%list).
Proof.
  intros Hno Hr Hm.
  pose proof (no_rows_lookup _ _ _ Hno Hr) as ->.
  pose proof (no_rows_lookup _ _ _ Hno Hm) as ->.
  assert (Hstep : forall sel, region_step d sel = Ok d).
  { intros sel. unfold region_step, getitem. rewrite Hr.
    destruct (scalar_eqb sel (Str "Todas")); [reflexivity|].
    cbn [mbind result_bind]. now rewrite (no_rows_select _ _ Hno). }
  rewrite (filter_data_page w d p [Str "Todas"] d [Str "Todos"]).
  - unfold municipality_step, getitem. rewrite Hm.
    destruct (_ || _); [reflexivity|].
    cbn [mbind result_bind]. now rewrite (no_rows_select _ _ Hno).
  - unfold region_options, getitem. now rewrite Hr.
  - apply Hstep.
  - unfold municipality_options, getitem. now rewrite Hm.
Qed.

Lemma no_rows_empty d : no_rows d -> df_empty d = true.
Proof.
  unfold no_rows, df_empty, nrows. destruct d as [|[name t] rest];
    [reflexivity|].
  intros H. apply Forall_cons_1 in H as [Ht _]. simpl in Ht. now subst t.
Qed.

(** X16.  When the CSV file is not there, [main] shows the page title
    and caption and an error box naming the path, and stops: no filter and
    no chart is drawn, and no table is held.  Any other failure of the
    reader is not caught: it ends the run after the title and caption,
    without the error box. *)
Theorem main_load_failure (files : Files) (w : World) (s : run_state) :
  (read_csv files (DATA_FILE files) = ReadNotFound ->
   main files w s
   = (Raised StopException,
      {| objects := objects s;
         screen := (screen s ++ page_head
                    ++ [Error ("Arquivo não encontrado: " ++ DATA_FILE files)])%list |}))
  /\ (forall e, read_csv files (DATA_FILE files) = ReadFailure e ->
        main files w s
        = (Raised (LibraryError e),
           {| objects := objects s;
              screen := (screen s ++ page_head)%list |})).
Proof.
  split; [|intros e]; intros Hread;
    unfold main, mbind at 1, run_bind at 1; rewrite configure_page_run;
    unfold try_except_not_found, mbind at 1, run_bind at 1;
    rewrite load_data_run, Hread.
  - unfold mbind, run_bind, show, st_stop, throw. cbn [objects screen].
    now rewrite <- app_assoc.
  - reflexivity.
Qed.

Lemma main_load_failure_sample :
  main no_files sample_world start_state
  = (Raised StopException,
     {| objects := [];
        screen := ([] ++ page_head
                   ++ [Error ("Arquivo não encontrado: " ++ DATA_FILE no_files)])%list |}).
Proof.
  apply (proj1 (main_load_failure no_files sample_world start_state)).
  reflexivity.
Defined.

(** X17.  On a CSV file with the header and no rows, [main] shows the
    title, the caption, the two widgets with their sentinels as only
    options, and the warning that no record was found, and stops before
    the dashboard, whatever is chosen in the widgets. *)
Theorem main_header_only (files : Files) (w : World) (s : run_state)
    (d : DataFrame) (rcol mcol : Series) :
  read_csv files (DATA_FILE files) = ReadTable d ->
  no_rows d ->
  lookup_col IMMEDIATE_REGION_COL d = Some rcol ->
  lookup_col MUNICIPALITY_COL d = Some mcol ->
  main files w s
  = (Raised StopException,
     {| objects := (objects s ++ [d; d])%list;
        screen := (screen s ++ page_head
                   ++ drawn (sidebar_widgets [Str "Todas"] [Str "Todos"])
                   ++ [empty_warning])%list |}).
Proof.
  intros Hread Hno Hr Hm.
  rewrite (main_after_load files w s d d Hread (no_rows_cleaning w d Hno)).
  unfold after_load.
  rewrite (no_rows_filter w d rcol mcol [] Hno Hr Hm).
  now rewrite (no_rows_empty d Hno).
Qed.

Lemma main_header_only_sample :
  main header_files sample_world start_state
  = (Raised StopException,
     {| objects := ([] ++ [header_only; header_only])%list;
        screen := ([] ++ page_head
                   ++ drawn (sidebar_widgets [Str "Todas"] [Str "Todos"])
                   ++ [empty_warning])%list |}).
Proof.
  apply (main_header_only header_files sample_world start_state header_only
           [] []);
    [reflexivity | repeat constructor | reflexivity | reflexivity].
Defined.

(** X18.  On a well-formed CSV file [main] never ends in an exception of
    a library call: either it draws the filters and the whole dashboard
    over the filtered table and returns, or the filtered table is empty
    and it stops after the filters and the warning.  In both cases the run
    holds the table read and its cleaned copy. *)
Theorem main_well_formed (files : Files) (w : World) (s : run_state)
    (d : DataFrame) :
  read_csv files (DATA_FILE files) = ReadTable d ->
  well_formed w d ->
  exists d' out regions options,
    run_steps (cleaning_steps w) d = (Ok tt, d')
    /\ filter_data w d' [] = (Ok out, sidebar_widgets regions options)
    /\ drawable out
    /\ ((df_empty out = true
         /\ main files w s
            = (Raised StopException,
               {| objects := (objects s ++ [d; d'])%list;
                  screen := (screen s ++ page_head
                             ++ drawn (sidebar_widgets regions options)
                             ++ [empty_warning])%list |}))
        \/ (df_empty out = false
            /\ exists v top donut,
                 main files w s
                 = (Returned tt,
                    {| objects := (objects s ++ [d; d'])%list;
                       screen := (screen s ++ page_head
                                  ++ drawn (sidebar_widgets regions options)
                                  ++ drawn (dashboard_page w out v
                                              (build_impacted_farmers_map w out)
                                              (Bar top) donut))%list |}))).
Proof.
  intros Hread Hwf.
  destruct (well_formed_cleaning w d Hwf) as (d' & R & Hd & _).
  pose proof Hd as (Hrect & _ & _ & Hrl & Hml).
  destruct (drawable_column d' IMMEDIATE_REGION_COL Hd) as (rcol & Hr);
    [simpl; tauto|].
  destruct (drawable_column d' MUNICIPALITY_COL Hd) as (mcol & Hm);
    [simpl; tauto|].
  destruct (filter_data_run w d' rcol mcol [] Hrect Hr (Hrl _ Hr) Hm (Hml _ Hm))
    as (regions & region_df & region_mcol & options & out & _ & _ & _
        & Hnar & _ & _ & _ & _ & _ & _ & Hrun & Hnar' & _).
  cbn [app] in Hrun.
  assert (Hout : drawable out)
    by apply (narrowed_drawable _ _ Hnar'), (narrowed_drawable _ _ Hnar), Hd.
  exists d', out, (Str "Todas" :: regions), (Str "Todos" :: options).
  split; [exact R|]. split; [exact Hrun|]. split; [exact Hout|].
  rewrite (main_after_load files w s d d' Hread R). unfold after_load.
  rewrite Hrun.
  destruct (df_empty out); [left; split; reflexivity|].
  right. split; [reflexivity|].
  destruct (bar_drawable out Hout) as (top & Htop & Hbar).
  eexists _, top, _.
  rewrite (render_dashboard_page w out _ (Bar top) _ []
             (kpi_values_drawable w out Hout) Hbar
             (scatter_drawable out Hout)
             (build_gender_donut_drawable w out Hout)).
  reflexivity.
Qed.

Lemma main_well_formed_sample :
  exists d' out regions options,
    run_steps (cleaning_steps sample_world) sample_raw = (Ok tt, d')
    /\ filter_data sample_world d' [] = (Ok out, sidebar_widgets regions options)
    /\ drawable out
    /\ ((df_empty out = true
         /\ main sample_files sample_world start_state
            = (Raised StopException,
               {| objects := ([] ++ [sample_raw; d'])%list;
                  screen := ([] ++ page_head
                             ++ drawn (sidebar_widgets regions options)
                             ++ [empty_warning])%list |}))
        \/ (df_empty out = false
            /\ exists v top donut,
                 main sample_files sample_world start_state
                 = (Returned tt,
                    {| objects := ([] ++ [sample_raw; d'])%list;
                       screen := ([] ++ page_head
                                  ++ drawn (sidebar_widgets regions options)
                                  ++ drawn (dashboard_page sample_world out v
                                              (build_impacted_farmers_map
                                                 sample_world out)
                                              (Bar top) donut))%list |}))).
Proof.
  apply (main_well_formed sample_files sample_world start_state sample_raw);
    [reflexivity | exact sample_raw_well_formed].
Defined.

(** X19.  On a well-formed CSV file with at least one row, when the
    selections are taken among the options shown, [main] returns: the
    filtered table has a row, so the run does not stop at the warning and
    the dashboard is drawn. *)
Theorem main_returns (files : Files) (w : World) (s : run_state)
    (d : DataFrame) :
  read_csv files (DATA_FILE files) = ReadTable d ->
  well_formed w d ->
  chooses_among_options w ->
  nrows d <> 0%nat ->
  exists d' out regions options v top donut,
    df_empty out = false
    /\ main files w s
       = (Returned tt,
          {| objects := (objects s ++ [d; d'])%list;
             screen := (screen s ++ page_head
                        ++ drawn (sidebar_widgets regions options)
                        ++ drawn (dashboard_page w out v
                                    (build_impacted_farmers_map w out)
                                    (Bar top) donut))%list |}).
Proof.
  intros Hread Hwf Hchoose Hrows.
  destruct (well_formed_cleaning w d Hwf) as (d' & R & Hd & Hn).
  pose proof Hd as (Hrect & _ & _ & Hrl & Hml).
  destruct (drawable_column d' IMMEDIATE_REGION_COL Hd) as (rcol & Hr);
    [simpl; tauto|].
  destruct (drawable_column d' MUNICIPALITY_COL Hd) as (mcol & Hm);
    [simpl; tauto|].
  destruct (filter_data_has_row w d' rcol mcol [] Hchoose Hrect Hr (Hrl _ Hr)
              Hm (Hml _ Hm)) as (out & Hout & Hne); [now rewrite Hn|].
  destruct (filter_data_run w d' rcol mcol [] Hrect Hr (Hrl _ Hr) Hm (Hml _ Hm))
    as (regions & region_df & region_mcol & options & out' & _ & _ & _
        & Hnar & _ & _ & _ & _ & _ & _ & Hrun & Hnar' & _).
  rewrite Hrun in Hout. cbn [fst] in Hout. injection Hout as ->.
  cbn [app] in Hrun.
  assert (Hdraw : drawable out)
    by apply (narrowed_drawable _ _ Hnar'), (narrowed_drawable _ _ Hnar), Hd.
  destruct (bar_drawable out Hdraw) as (top & Htop & Hbar).
  exists d', out, (Str "Todas" :: regions), (Str "Todos" :: options).
  eexists _, top, _. split; [exact Hne|].
  rewrite (main_after_load files w s d d' Hread R). unfold after_load.
  rewrite Hrun, Hne.
  rewrite (render_dashboard_page w out _ (Bar top) _ []
             (kpi_values_drawable w out Hdraw) Hbar
             (scatter_drawable out Hdraw)
             (build_gender_donut_drawable w out Hdraw)).
  reflexivity.
Qed.

Lemma main_returns_sample :
  exists d' out regions options v top donut,
    df_empty out = false
    /\ main sample_files sample_world start_state
       = (Returned tt,
          {| objects := ([] ++ [sample_raw; d'])%list;
             screen := ([] ++ page_head
                        ++ drawn (sidebar_widgets regions options)
                        ++ drawn (dashboard_page sample_world out v
                                    (build_impacted_farmers_map sample_world out)
                                    (Bar top) donut))%list |}).
Proof.
  apply (main_returns sample_files sample_world start_state sample_raw);
    [reflexivity | exact sample_raw_well_formed | exact sample_world_chooses
     | discriminate].
Defined.

(** X20.  [load_data] draws nothing.  When the reader returns a table,
    the run holds that table untouched and a copy that is cleaned and has
    the same columns and numbers of cells, or the cleaning raises one of its
    two exceptions; when the file is not there, [FileNotFoundError] is
    passed on and nothing is held; any other failure of the reader is
    passed on as it is. *)
Theorem load_data_outcome (files : Files) (w : World) (path : string)
    (s : run_state) :
  match read_csv files path with
  | ReadTable d =>
      (exists d',
          load_data files w path s
          = (Returned (S (length (objects s))),
             {| objects := (objects s ++ [d; d'])%list; screen := screen s |})
          /\ cleaned d' /\ shape d' = shape d)
      \/ (exists e d',
             load_data files w path s
             = (Raised (LibraryError e),
                {| objects := (objects s ++ [d; d'])%list; screen := screen s |})
             /\ (e = IntCastingNaNError \/ e = TypeError))
  | ReadNotFound => load_data files w path s = (Raised FileNotFoundError, s)
  | ReadFailure e => load_data files w path s = (Raised (LibraryError e), s)
  end.
Proof.
  destruct (read_csv files path) as [d| |e] eqn:Hread.
  - rewrite (load_data_cleaning files w path s d Hread).
    pose proof (run_steps_shape _ (cleaning_steps_keep_length w) d) as Hshape.
    destruct (run_steps (cleaning_steps w) d) as [[[]|e] d'] eqn:R.
    + left. exists d'. split; [reflexivity|].
      split; [exact (run_steps_cleaned w _ _ R) | exact Hshape].
    + right. exists e, d'. split; [reflexivity|].
      exact (run_steps_exceptions w _ _ _ R).
  - now rewrite load_data_run, Hread.
  - now rewrite load_data_run, Hread.
Qed.

